(** * nrsc5: the automatic gain search of the RTL-SDR front end

    A shallow embedding of [src/main.c]: the file-level statics
    [gain_list], [gain_index], [gain_count], the function-level statics
    [best_gain], [best_snr] of [rtlsdr_snr_callback], the callback itself
    (lines 49-84) and the RTL-SDR branch of [main] (lines 392-441).

    C [int] values are integers of [Z] together with an explicit range
    check where the source computes one; C [float] and [double] values are
    the IEEE-754 binary32 and binary64 numbers of [SpecFloat]. Calls into
    librtlsdr are recorded, in the order they are issued, in a command
    log; what the driver answers is a parameter of the model. *)

From Stdlib Require Import ZArith List Bool Lia.
From Stdlib Require Import Floats.SpecFloat.
Import ListNotations.
Local Open Scope Z_scope.

(** ** C scalar types *)

Definition INT_MIN : Z := - 2 ^ 31.
Definition INT_MAX : Z := 2 ^ 31 - 1.

Definition in_int (z : Z) : bool := (INT_MIN <=? z) && (z <=? INT_MAX).

(** [float]: IEEE-754 binary32, 24 bits of precision, exponent bound 128. *)
Definition float : Type := spec_float.
Definition float_valid (x : float) : bool := valid_binary 24 128 x.

(** [double]: IEEE-754 binary64. *)
Definition double : Type := spec_float.
Definition double_valid (x : double) : bool := valid_binary 53 1024 x.

(** The float with the value of a (small) integer literal, e.g. [5.0f]. *)
Definition float_of_Z (z : Z) : float := binary_normalize 24 128 z 0 false.

(** Zero-initialised static storage of type [float]. *)
Definition float_zero : float := S754_zero false.

(** [a >= b] on floats: false as soon as one side is a NaN. *)
Definition float_ge (a b : float) : bool :=
  match SFcompare a b with
  | Some Gt | Some Eq => true
  | _ => false
  end.

(** [a == b] on floats. *)
Definition float_eq (a b : float) : bool := SFeqb a b.

(** The usual arithmetic conversion of a [float] operand to [double]:
    the value is kept, the mantissa is renormalised to 53 bits. *)
Definition double_of_float (x : float) : double :=
  match x with
  | S754_finite s m e => binary_round 53 1024 s m e
  | _ => x
  end.

(** The literal [0.5], of type [double]: 2^52 * 2^-53. *)
Definition double_half : double := S754_finite false (2 ^ 52) (-53).

Definition double_mul (a b : double) : double := SFmul 53 1024 a b.
Definition double_lt (a b : double) : bool := SFltb a b.

(** The test [snr < best_snr * 0.5] of line 68: [best_snr] is converted to
    [double] for the product with the [double] literal, and so is [snr] for
    the comparison. *)
Definition below_half (snr best : float) : bool :=
  double_lt (double_of_float snr)
            (double_mul (double_of_float best) double_half).

(** ** Static storage *)

(** Number of elements of [gain_list] (line 45). *)
Definition GAIN_LIST_LEN : nat := 128.

Record statics := mkStatics {
  gain_list : list Z;    (* static int gain_list[128] *)
  gain_index : Z;        (* static int gain_index *)
  gain_count : Z;        (* static int gain_count *)
  best_gain : Z;         (* static int best_gain, local to the callback *)
  best_snr : float       (* static float best_snr, local to the callback *)
}.

(** Static storage is zero-initialised at program start. *)
Definition statics_init : statics :=
  mkStatics (repeat 0 GAIN_LIST_LEN) 0 0 0 float_zero.

(** ** The tuner driver *)

Inductive dev_cmd :=
| Open (index : Z)                    (* rtlsdr_open(&dev, index) *)
| SetSampleRate (rate : Z)            (* rtlsdr_set_sample_rate *)
| SetTunerGainMode (manual : Z)       (* rtlsdr_set_tuner_gain_mode *)
| SetFreqCorrection (ppm : Z)         (* rtlsdr_set_freq_correction *)
| SetCenterFreq (freq : Z)            (* rtlsdr_set_center_freq *)
| GetTunerGains                       (* rtlsdr_get_tuner_gains *)
| SetTunerGain (gain : Z)             (* rtlsdr_set_tuner_gain *)
| ResetBuffer                         (* rtlsdr_reset_buffer *)
| ReadSync (len : Z)                  (* rtlsdr_read_sync *)
| ReadAsync (buf_num buf_len : Z)     (* rtlsdr_read_async *)
| Close.                              (* rtlsdr_close *)

(** The process as far as the gain search is concerned: the statics, the
    [snr_cb] field of the [input_t] object (is a callback registered?) and
    the driver calls issued so far, oldest first. *)
Record world := mkWorld {
  mem : statics;
  snr_cb : bool;
  issued : list dev_cmd
}.

Definition world_init : world := mkWorld statics_init false [].

(** ** Programs *)

Inductive result (A : Type) :=
| Ok (a : A) (w : world)   (* ran to completion *)
| Fatal (w : world)        (* FATAL_EXIT: the process logs and exits *)
| Blocked (w : world)      (* waiting in a read for samples that never come *)
| Undefined.               (* behaviour undefined by the C standard *)

Arguments Ok {A} a w.
Arguments Fatal {A} w.
Arguments Blocked {A} w.
Arguments Undefined {A}.

Definition prog (A : Type) : Type := world -> result A.

Definition ret {A} (a : A) : prog A := fun w => Ok a w.

Definition bind {A B} (p : prog A) (k : A -> prog B) : prog B :=
  fun w =>
    match p w with
    | Ok a w' => k a w'
    | Fatal w' => Fatal w'
    | Blocked w' => Blocked w'
    | Undefined => Undefined
    end.

Declare Scope prog_scope.
Delimit Scope prog_scope with prog.
Notation "x <- p ;; k" := (bind p (fun x => k))
  (at level 61, p at next level, right associativity) : prog_scope.
Notation "p ;; k" := (bind p (fun _ => k))
  (at level 61, right associativity) : prog_scope.
Local Open Scope prog_scope.

Definition undefined {A} : prog A := fun _ => Undefined.

(** Modelled from the spec: [FATAL_EXIT], a macro of defines.h, which is
    absent; "hardware configuration failures are fatal to the whole
    process": the failure is logged and the process exits. *)
Definition fatal_exit {A} : prog A := fun w => Fatal w.

(** Reading and writing the statics. *)
Definition load {A} (f : statics -> A) : prog A := fun w => Ok (f (mem w)) w.

Definition store (f : statics -> statics) : prog unit :=
  fun w => Ok tt (mkWorld (f (mem w)) (snr_cb w) (issued w)).

Definition set_gain_list (l : list Z) (s : statics) : statics :=
  mkStatics l (gain_index s) (gain_count s) (best_gain s) (best_snr s).
Definition set_gain_index (i : Z) (s : statics) : statics :=
  mkStatics (gain_list s) i (gain_count s) (best_gain s) (best_snr s).
Definition set_gain_count (n : Z) (s : statics) : statics :=
  mkStatics (gain_list s) (gain_index s) n (best_gain s) (best_snr s).
Definition set_best_gain (i : Z) (s : statics) : statics :=
  mkStatics (gain_list s) (gain_index s) (gain_count s) i (best_snr s).
Definition set_best_snr (x : float) (s : statics) : statics :=
  mkStatics (gain_list s) (gain_index s) (gain_count s) (best_gain s) x.

(** [gain_list[i]]: an access outside the array is undefined. *)
Definition gain_at (l : list Z) (i : Z) : option Z :=
  if i <? 0 then None else nth_error l (Z.to_nat i).

Definition load_gain (i : Z) : prog Z :=
  fun w =>
    match gain_at (gain_list (mem w)) i with
    | Some g => Ok g w
    | None => Undefined
    end.

(** [a + b] on [int]: signed overflow is undefined. *)
Definition int_add (a b : Z) : prog Z :=
  if in_int (a + b) then ret (a + b) else undefined.

(** A driver call: the command is appended to the log and the driver's
    status code, which may depend on everything issued before, is the
    value of the call. *)
Definition driver : Type := list dev_cmd -> dev_cmd -> Z.

Definition call (drv : driver) (c : dev_cmd) : prog Z :=
  fun w => Ok (drv (issued w) c) (mkWorld (mem w) (snr_cb w) (issued w ++ [c])).

(** ** [rtlsdr_snr_callback] (main.c, lines 49-84)

    [log_info] and [log_debug] evaluate their arguments: of each only the
    array read it makes is kept. The status codes of the two driver calls
    at the end are discarded, as in the source. *)

Section Callback.

Variable drv : driver.

Definition rtlsdr_snr_callback (snr : float) : prog Z :=
  gc <- load gain_count ;;
  if gc =? 0 then ret 0                              (* lines 56-57 *)
  else
    bs <- load best_snr ;;
    (if float_ge snr bs                              (* line 60 *)
     then gi <- load gain_index ;;
          store (set_best_gain gi) ;;                (* line 62 *)
          store (set_best_snr snr)                   (* line 63 *)
     else ret tt) ;;
    gi <- load gain_index ;;
    _ <- load_gain gi ;;                             (* line 66, log_info *)
    gi1 <- int_add gi 1 ;;
    gc <- load gain_count ;;
    bs <- load best_snr ;;
    result <-
      (if (gi1 >=? gc) || below_half snr bs          (* line 68 *)
       then bg <- load best_gain ;;
            _ <- load_gain bg ;;                     (* line 70, log_debug *)
            store (set_gain_index bg) ;;             (* line 71 *)
            store (set_gain_count 0) ;;              (* line 72 *)
            ret 0
       else store (set_gain_index gi1) ;;            (* line 76 *)
            ret 1) ;;                                (* line 78 *)
    gi <- load gain_index ;;
    g <- load_gain gi ;;
    _ <- call drv (SetTunerGain g) ;;                (* line 81 *)
    _ <- call drv ResetBuffer ;;                     (* line 82 *)
    ret result.

(** One invocation as an observer sees it: the statics on entry and the
    value returned. *)
Record invocation := mkInvocation {
  at_entry : statics;
  returned : Z
}.

(** The callback invoked once per SNR sample, in order; what each
    invocation found and returned is collected. *)
Fixpoint snr_feed (snrs : list float) : prog (list invocation) :=
  match snrs with
  | [] => ret []
  | snr :: rest =>
      s <- load (fun s => s) ;;
      r <- rtlsdr_snr_callback snr ;;
      h <- snr_feed rest ;;
      ret (mkInvocation s r :: h)
  end.

End Callback.

(** ** The RTL-SDR branch of [main] (main.c, lines 392-441)

    The branch is cut into its phases: [main_configure] (lines 395-423,
    with [main_gain_setup] for lines 406-420), [main_sync_loop] (lines
    426-435) and [main_stream] (lines 438-441). The sample buffer of
    lines 392 and 436 holds nothing the gain search reads. *)

Definition RADIO_BUFCNT : Z := 8.
Definition RADIO_BUFFER : Z := 512 * 1024.

(** What the tuner answers to [rtlsdr_get_tuner_gains(dev, gain_list)]: the
    value it returns and the gains it writes to the front of the array. *)
Record tuner_gains := mkTunerGains {
  tg_ret : Z;
  tg_written : list Z
}.

(** The world a result carries, if any. *)
Definition world_of {A} (r : result A) : option world :=
  match r with
  | Ok _ w | Fatal w | Blocked w => Some w
  | Undefined => None
  end.

Definition blocked {A} : prog A := fun w => Blocked w.

(** [if (err) FATAL_EXIT(...)]. *)
Definition fatal_if (b : bool) : prog unit := if b then fatal_exit else ret tt.

Definition nonzero (z : Z) : bool := negb (z =? 0).

(** Modelled from the spec: [input_set_snr_callback], defined in input.c
    which is absent; "setSnrCallback(callback, context)" stores the callback
    in the pipeline state. Only the callback of this file is ever
    registered, so the stored pointer is a flag. *)
Definition input_set_snr_callback : prog unit :=
  fun w => Ok tt (mkWorld (mem w) true (issued w)).

Section Main.

Variable drv : driver.
Variable tuner : tuner_gains.

(** [SNR_FFT_COUNT], a macro of defines.h, which is absent. *)
Variable SNR_FFT_COUNT : Z.

(** [rtlsdr_get_tuner_gains(dev, gain_list)]: the tuner fills the front of
    the array; writing past its end is undefined. *)
Definition rtlsdr_get_tuner_gains : prog Z :=
  _ <- call drv GetTunerGains ;;
  l <- load gain_list ;;
  let gains := tg_written tuner in
  if (length gains <=? length l)%nat
  then store (set_gain_list (gains ++ skipn (length gains) l)) ;;
       ret (tg_ret tuner)
  else undefined.

(** Modelled from the spec: [input_cb], defined in input.c which is absent.
    Of one block of raw samples the model keeps the SNR values that the
    estimator completes while processing it ("invoke the registered
    callback with the SNR value and caller context"), in order. The statics
    of main.c are reachable from input.c through the callback only. *)
Definition input_cb (snrs : list float) : prog unit :=
  fun w =>
    if snr_cb w
    then (_ <- snr_feed drv snrs ;; ret tt) w
    else Ok tt w.

(** Lines 406-420. *)
Definition main_gain_setup (gain : Z) : prog unit :=
  if gain =? INT_MIN
  then
    n <- rtlsdr_get_tuner_gains ;;                          (* line 408 *)
    store (set_gain_count n) ;;
    gc <- load gain_count ;;
    if gc >? 0
    then
      input_set_snr_callback ;;                             (* line 411 *)
      g0 <- load_gain 0 ;;
      err <- call drv (SetTunerGain g0) ;;                  (* line 412 *)
      fatal_if (nonzero err)
    else ret tt
  else
    err <- call drv (SetTunerGain gain) ;;                  (* line 418 *)
    fatal_if (nonzero err).

(** Lines 426-435: [while (gain_count)]. Each element of [blocks] is one
    block of samples the driver hands over; when they run out while the
    loop is still reading, the process is blocked in [rtlsdr_read_sync]. *)
Fixpoint main_sync_loop (blocks : list (list float)) : prog unit :=
  gc <- load gain_count ;;
  if gc =? 0 then ret tt
  else
    match blocks with
    | [] => blocked
    | snrs :: rest =>
        err <- call drv (ReadSync (128 * SNR_FFT_COUNT)) ;;  (* line 431 *)
        fatal_if (nonzero err) ;;
        input_cb snrs ;;                                     (* line 434 *)
        main_sync_loop rest
    end.

(** Lines 395-423: the tuner is opened and configured. *)
Definition main_configure (gain ppm_error frequency : Z) : prog unit :=
  err <- call drv (Open 0) ;;
  fatal_if (nonzero err) ;;
  err <- call drv (SetSampleRate 1488375) ;;
  fatal_if (nonzero err) ;;
  err <- call drv (SetTunerGainMode 1) ;;
  fatal_if (nonzero err) ;;
  err <- call drv (SetFreqCorrection ppm_error) ;;
  fatal_if (nonzero err && negb (err =? -2)) ;;
  err <- call drv (SetCenterFreq frequency) ;;
  fatal_if (nonzero err) ;;
  main_gain_setup gain ;;
  err <- call drv ResetBuffer ;;                            (* line 422 *)
  fatal_if (nonzero err).

(** Lines 438-441, the value being what [main] returns. *)
Definition main_stream : prog Z :=
  err <- call drv (ReadAsync RADIO_BUFCNT RADIO_BUFFER) ;;  (* line 438 *)
  fatal_if (nonzero err) ;;
  err <- call drv Close ;;
  fatal_if (nonzero err) ;;
  ret 0.

(** Lines 395-441. *)
Definition main_rtlsdr (gain ppm_error frequency : Z)
    (blocks : list (list float)) : prog Z :=
  main_configure gain ppm_error frequency ;;
  main_sync_loop blocks ;;
  main_stream.

End Main.

(** * Properties *)

(** ** The float comparisons on small integers

    On the floats that hold the integers 0..40 the two tests of the
    callback are the comparisons of those integers: [snr >= best] is
    [a >= b], and [snr < best * 0.5] is [2 * a < b]. *)

Definition small_ints : list Z := map Z.of_nat (seq 0 41).

Example float_ge_small_ints :
  forallb (fun a => forallb (fun b =>
    Bool.eqb (float_ge (float_of_Z a) (float_of_Z b)) (a >=? b))
    small_ints) small_ints = true.
Proof. vm_compute. reflexivity. Qed.

Example below_half_small_ints :
  forallb (fun a => forallb (fun b =>
    Bool.eqb (below_half (float_of_Z a) (float_of_Z b)) (2 * a <? b))
    small_ints) small_ints = true.
Proof. vm_compute. reflexivity. Qed.

Example small_ints_valid :
  forallb (fun a => float_valid (float_of_Z a) &&
                    double_valid (double_of_float (float_of_Z a)))
          small_ints = true.
Proof. vm_compute. reflexivity. Qed.

Example double_half_valid : double_valid double_half = true.
Proof. reflexivity. Qed.

(** A NaN sample passes neither test; the smallest subnormal float is not
    below half of itself, and is below half of its double. *)
Example nan_tests :
  float_ge S754_nan (float_of_Z 1) = false /\
  float_ge (float_of_Z 1) S754_nan = false /\
  below_half S754_nan (float_of_Z 1) = false /\
  below_half (float_of_Z 1) S754_nan = false.
Proof. repeat split. Qed.

Example subnormal_tests :
  float_valid (S754_finite false 1 (-149)) = true /\
  below_half (S754_finite false 1 (-149)) (S754_finite false 1 (-149)) = false /\
  below_half (S754_finite false 1 (-149)) (S754_finite false 2 (-149)) = false /\
  below_half (S754_finite false 1 (-149)) (S754_finite false 3 (-149)) = true.
Proof. repeat split. Qed.

(** ** The two tests of the callback in exact arithmetic

    The value of a [float], exactly: a NaN, an infinity, or a number,
    counted in units of 2^-149, the least positive [float]; every finite
    [float] is a whole number of these units. The tests [>=] and
    "less than 0.5 times" are then comparisons of integers, with the usual
    rules for infinities and NaN. They are written from the arithmetic, not
    from the C expressions; [float_ge_exact] and [below_half_exact] show
    that the C expressions of lines 60 and 68 compute them. *)

Inductive float_value :=
| Not_a_number
| Infinite (negative : bool)
| Finite (units : Z).

Definition value_of (x : float) : float_value :=
  match x with
  | S754_nan => Not_a_number
  | S754_infinity s => Infinite s
  | S754_zero _ => Finite 0
  | S754_finite s m e => Finite (cond_Zopp s (Zpos m) * 2 ^ (e + 149))
  end.

(** [a >= b]. *)
Definition value_ge (a b : float_value) : bool :=
  match a, b with
  | Not_a_number, _ => false
  | _, Not_a_number => false
  | Infinite sa, Infinite sb => negb sa || sb
  | Infinite sa, Finite _ => negb sa
  | Finite _, Infinite sb => sb
  | Finite x, Finite y => x >=? y
  end.

(** [a < 0.5 * b]; half of an infinity is that infinity. *)
Definition value_below_half (a b : float_value) : bool :=
  match a, b with
  | Not_a_number, _ => false
  | _, Not_a_number => false
  | Infinite sa, Infinite sb => sa && negb sb
  | Infinite sa, Finite _ => sa
  | Finite _, Infinite sb => negb sb
  | Finite x, Finite y => 2 * x <? y
  end.

(** The float 5.0 is 5 * 2^149 units, the least positive float is one
    unit, and the greatest float is (2^24 - 1) * 2^253 units. *)
Example value_of_tests :
  value_of (float_of_Z 5) = Finite (5 * 2 ^ 149) /\
  value_of (S754_finite false 1 (-149)) = Finite 1 /\
  value_of (S754_finite true (2 ^ 24 - 1) 104) = Finite (- ((2 ^ 24 - 1) * 2 ^ 253)) /\
  value_below_half (value_of (float_of_Z 3)) (value_of (float_of_Z 8)) = true /\
  value_below_half (value_of (float_of_Z 4)) (value_of (float_of_Z 8)) = false.
Proof. repeat split. Qed.

(** A mantissa of [d] binary digits lies between 2^(d-1) and 2^d. *)
Lemma digits2_bounds (m : positive) :
  2 ^ (Zpos (digits2_pos m) - 1) <= Zpos m < 2 ^ Zpos (digits2_pos m).
Proof.
  induction m as [p IH | p IH |]; cbn [digits2_pos].
  - rewrite Pos2Z.inj_succ, (Pos2Z.inj_xI p).
    replace (Z.succ (Zpos (digits2_pos p)) - 1)
      with (Z.succ (Zpos (digits2_pos p) - 1)) by lia.
    rewrite !Z.pow_succ_r by lia.
    revert IH. generalize (2 ^ (Zpos (digits2_pos p) - 1)).
    generalize (2 ^ Zpos (digits2_pos p)). intros. lia.
  - rewrite Pos2Z.inj_succ, (Pos2Z.inj_xO p).
    replace (Z.succ (Zpos (digits2_pos p)) - 1)
      with (Z.succ (Zpos (digits2_pos p) - 1)) by lia.
    rewrite !Z.pow_succ_r by lia.
    revert IH. generalize (2 ^ (Zpos (digits2_pos p) - 1)).
    generalize (2 ^ Zpos (digits2_pos p)). intros. lia.
  - cbn. lia.
Qed.

(** Numbers with as many digits are ordered by exponent first. *)
Lemma scaled_lt (p m1 m2 a b : Z) :
  0 <= a < b -> 0 < m1 < 2 ^ p -> 2 ^ (p - 1) <= m2 -> 0 < p ->
  m1 * 2 ^ a < m2 * 2 ^ b.
Proof.
  intros Hab Hm1 Hm2 Hp.
  replace b with ((b - a - 1) + 1 + a) by lia.
  rewrite !Z.pow_add_r by lia.
  replace p with ((p - 1) + 1) in Hm1 by lia.
  rewrite Z.pow_add_r in Hm1 by lia.
  change (2 ^ 1) with 2 in *.
  pose proof (Z.pow_pos_nonneg 2 a ltac:(lia) ltac:(lia)) as HA.
  pose proof (Z.pow_pos_nonneg 2 (b - a - 1) ltac:(lia) ltac:(lia)) as HB.
  revert Hm1 Hm2 HA HB.
  generalize (2 ^ a), (2 ^ (b - a - 1)), (2 ^ (p - 1)). intros A B P Hm1 Hm2 HA HB.
  assert (m1 * A < 2 * m2 * A) by nia.
  assert (2 * m2 * A <= m2 * (B * 2 * A)) by nia.
  lia.
Qed.

Lemma lex_compare (p m1 m2 a b : Z) :
  0 < p -> 0 <= a -> 0 <= b -> 0 < m1 < 2 ^ p -> 0 < m2 < 2 ^ p ->
  (a < b -> 2 ^ (p - 1) <= m2) -> (b < a -> 2 ^ (p - 1) <= m1) ->
  match a ?= b with
  | Eq => m1 ?= m2
  | c => c
  end = (m1 * 2 ^ a ?= m2 * 2 ^ b).
Proof.
  intros Hp Ha Hb Hm1 Hm2 Hab Hba.
  destruct (Z.compare_spec a b) as [-> | Hlt | Hgt]; symmetry.
  - pose proof (Z.pow_pos_nonneg 2 b ltac:(lia) Hb) as Hpos.
    revert Hpos. generalize (2 ^ b). intros B Hpos.
    destruct (Z.compare_spec m1 m2) as [-> | Hlt | Hgt].
    + apply Z.compare_refl.
    + apply Z.compare_lt_iff. nia.
    + apply Z.compare_gt_iff. nia.
  - apply Z.compare_lt_iff. apply (scaled_lt p); auto; lia.
  - apply Z.compare_gt_iff. apply (scaled_lt p); auto; lia.
Qed.

(** What [float_valid] says of a finite float. *)
Lemma float_valid_finite (s : bool) (m : positive) (e : Z) :
  float_valid (S754_finite s m e) = true ->
  -149 <= e <= 104 /\ Zpos (digits2_pos m) <= 24 /\
  (-149 < e -> Zpos (digits2_pos m) = 24).
Proof.
  unfold float_valid, valid_binary, bounded, canonical_mantissa, fexp, emin.
  intros H. apply andb_prop in H. destruct H as (Hc & Hb).
  apply Z.eqb_eq in Hc. apply Z.leb_le in Hb. lia.
Qed.

(** The order of the magnitudes of two valid floats. *)
Lemma float_magnitudes (s1 s2 : bool) (m1 m2 : positive) (e1 e2 : Z) :
  float_valid (S754_finite s1 m1 e1) = true ->
  float_valid (S754_finite s2 m2 e2) = true ->
  match e1 ?= e2 with
  | Eq => Pos.compare_cont Eq m1 m2
  | c => c
  end = (Zpos m1 * 2 ^ (e1 + 149) ?= Zpos m2 * 2 ^ (e2 + 149)).
Proof.
  intros H1 H2.
  apply float_valid_finite in H1. apply float_valid_finite in H2.
  pose proof (digits2_bounds m1) as B1. pose proof (digits2_bounds m2) as B2.
  destruct H1 as (He1 & Hd1 & Hn1), H2 as (He2 & Hd2 & Hn2).
  assert (L1 : Zpos m1 < 2 ^ 24).
  { eapply Z.lt_le_trans; [apply B1 | apply Z.pow_le_mono_r; lia]. }
  assert (L2 : Zpos m2 < 2 ^ 24).
  { eapply Z.lt_le_trans; [apply B2 | apply Z.pow_le_mono_r; lia]. }
  rewrite <- (lex_compare 24); try lia.
  - rewrite (Z.add_comm e1), (Z.add_comm e2), Z.add_compare_mono_l.
    reflexivity.
  - intros Hlt. rewrite Hn2 in B2 by lia. lia.
  - intros Hlt. rewrite Hn1 in B1 by lia. lia.
Qed.

(** Line 60: [snr >= best_snr] is the comparison of the values. *)
Theorem float_ge_exact (a b : float) :
  float_valid a = true -> float_valid b = true ->
  float_ge a b = value_ge (value_of a) (value_of b).
Proof.
  destruct a as [sa | sa | | sa ma ea], b as [sb | sb | | sb mb eb];
    intros Ha Hb; try reflexivity;
    try (destruct sa; reflexivity); try (destruct sb; reflexivity);
    try (destruct sa, sb; reflexivity).
  - (* zero, finite *)
    unfold float_ge, value_of, value_ge. cbn [SFcompare cond_Zopp].
    pose proof (Z.pow_pos_nonneg 2 (eb + 149) ltac:(lia)
                  ltac:(apply float_valid_finite in Hb; lia)).
    rewrite Z.geb_leb.
    destruct sb; cbn [cond_Zopp]; symmetry;
      [apply Z.leb_le | apply Z.leb_gt]; nia.
  - unfold float_ge, value_of, value_ge. cbn [SFcompare cond_Zopp].
    pose proof (Z.pow_pos_nonneg 2 (ea + 149) ltac:(lia)
                  ltac:(apply float_valid_finite in Ha; lia)).
    rewrite Z.geb_leb.
    destruct sa; cbn [cond_Zopp]; symmetry;
      [apply Z.leb_gt | apply Z.leb_le]; nia.
  - unfold float_ge, value_of, value_ge. cbn [SFcompare].
    pose proof (float_magnitudes sa sb ma mb ea eb Ha Hb) as Hm.
    pose proof (Z.pow_pos_nonneg 2 (ea + 149) ltac:(lia)
                  ltac:(apply float_valid_finite in Ha; lia)).
    pose proof (Z.pow_pos_nonneg 2 (eb + 149) ltac:(lia)
                  ltac:(apply float_valid_finite in Hb; lia)).
    destruct sa, sb; cbn [cond_Zopp].
    + (* both negative *)
      rewrite Z.geb_leb.
      replace (match ea ?= eb with Lt => Gt | Eq => CompOpp (Pos.compare_cont Eq ma mb) | Gt => Lt end)
        with (CompOpp (Zpos ma * 2 ^ (ea + 149) ?= Zpos mb * 2 ^ (eb + 149)))
        by (rewrite <- Hm; destruct (ea ?= eb); reflexivity).
      rewrite <- Z.compare_antisym.
      destruct (Z.compare_spec (Zpos mb * 2 ^ (eb + 149)) (Zpos ma * 2 ^ (ea + 149)));
        symmetry; [apply Z.leb_le | apply Z.leb_gt | apply Z.leb_le]; lia.
    + rewrite Z.geb_leb. symmetry. apply Z.leb_gt. nia.
    + rewrite Z.geb_leb. symmetry. apply Z.leb_le. nia.
    + rewrite Z.geb_leb.
      replace (match ea ?= eb with Lt => Lt | Eq => Pos.compare_cont Eq ma mb | Gt => Gt end)
        with (Zpos ma * 2 ^ (ea + 149) ?= Zpos mb * 2 ^ (eb + 149))
        by (rewrite <- Hm; destruct (ea ?= eb); reflexivity).
      destruct (Z.compare_spec (Zpos ma * 2 ^ (ea + 149)) (Zpos mb * 2 ^ (eb + 149)));
        symmetry; [apply Z.leb_le | apply Z.leb_gt | apply Z.leb_le]; lia.
Qed.

(** Shifting a mantissa left by [p] digits. *)
Lemma digits2_iter_xO (m p : positive) :
  digits2_pos (Pos.iter xO m p) = (digits2_pos m + p)%positive.
Proof.
  induction p as [| p IH] using Pos.peano_ind.
  - cbn. rewrite Pos.add_1_r. reflexivity.
  - rewrite Pos.iter_succ. cbn [digits2_pos]. rewrite IH.
    rewrite Pos.add_succ_r. reflexivity.
Qed.

Lemma iter_xO_value (m p : positive) :
  Zpos (Pos.iter xO m p) = Zpos m * 2 ^ Zpos p.
Proof.
  induction p as [| p IH] using Pos.peano_ind.
  - cbn [Pos.iter]. rewrite Pos2Z.inj_xO. cbn. lia.
  - rewrite Pos.iter_succ, Pos2Z.inj_xO, IH, Pos2Z.inj_succ, Z.pow_succ_r by lia.
    lia.
Qed.

(** A 53-digit mantissa with the exponent in range is a [double] as it
    stands. *)
Lemma binary_round_aux_exact (s : bool) (M : positive) (E : Z) :
  Zpos (digits2_pos M) = 53 -> -1074 <= E <= 971 ->
  binary_round_aux 53 1024 s (Zpos M) E loc_Exact = S754_finite s M E.
Proof.
  intros Hd HE.
  unfold binary_round_aux, shr_fexp, fexp, emin.
  cbn [Zdigits2 shr_record_of_loc]. rewrite Hd.
  replace (Z.max (53 + E - 53) (3 - 1024 - 53) - E) with 0 by lia.
  cbn [shr shr_m loc_of_shr_record round_nearest_even Zdigits2]. rewrite Hd.
  replace (Z.max (53 + E - 53) (3 - 1024 - 53) - E) with 0 by lia.
  cbn [shr shr_m].
  destruct (Z.leb_spec E (1024 - 53)); [reflexivity | lia].
Qed.

(** The conversion of a finite float to [double]: the mantissa is shifted
    to 53 digits, the value is kept. *)
Lemma double_of_float_finite (s : bool) (m : positive) (e : Z) :
  float_valid (S754_finite s m e) = true ->
  exists M E,
    double_of_float (S754_finite s m e) = S754_finite s M E /\
    Zpos (digits2_pos M) = 53 /\ -201 <= E <= 75 /\
    Zpos M * 2 ^ (E + 202) = Zpos m * 2 ^ (e + 149) * 2 ^ 53.
Proof.
  intros Hv. apply float_valid_finite in Hv. destruct Hv as (He & Hd & _).
  set (d := digits2_pos m) in *.
  set (p := Z.to_pos (53 - Zpos d)).
  assert (Hp : Zpos p = 53 - Zpos d) by (unfold p; rewrite Z2Pos.id; lia).
  exists (Pos.iter xO m p), (Zpos d + e - 53).
  assert (HD : Zpos (digits2_pos (Pos.iter xO m p)) = 53).
  { rewrite digits2_iter_xO. fold d. lia. }
  split; [| split; [exact HD | split; [lia |]]].
  - unfold double_of_float, binary_round. fold d.
    unfold fexp at 1, emin.
    replace (Z.max (Zpos d + e - 53) (3 - 1024 - 53)) with (Zpos d + e - 53) by lia.
    unfold shl_align.
    replace (Zpos d + e - 53 - e) with (Zneg p) by lia.
    apply binary_round_aux_exact; [exact HD | lia].
  - rewrite iter_xO_value, Hp.
    rewrite <- !Z.mul_assoc, <- !Z.pow_add_r by lia.
    f_equal. f_equal. lia.
Qed.

(** Half of a [double] with a 53-digit mantissa, at least twice the least
    normal number: the exponent goes down by one, nothing is rounded. *)
Lemma double_mul_half (s : bool) (M : positive) (E : Z) :
  Zpos (digits2_pos M) = 53 -> -1073 <= E <= 972 ->
  double_mul (S754_finite s M E) double_half = S754_finite s M (E - 1).
Proof.
  intros Hd HE.
  unfold double_mul, double_half, SFmul.
  rewrite xorb_false_r, Pos.mul_comm.
  change (2 ^ 52 * M)%positive with (Pos.iter xO M 52).
  unfold binary_round_aux, shr_fexp, fexp, emin.
  cbn [Zdigits2 shr_record_of_loc].
  rewrite digits2_iter_xO, Pos2Z.inj_add, Hd.
  replace (Z.max (53 + 52 + (E + -53) - 53) (3 - 1024 - 53) - (E + -53))
    with 52 by lia.
  unfold shr at 1.
  change (iter_pos shr_1 52
            {| shr_m := Zpos (Pos.iter xO M 52); shr_r := false; shr_s := false |})
    with {| shr_m := Zpos M; shr_r := false; shr_s := false |}.
  cbn [shr_m loc_of_shr_record round_nearest_even Zdigits2]. rewrite Hd.
  replace (Z.max (53 + (E + -53 + 52) - 53) (3 - 1024 - 53) - (E + -53 + 52))
    with 0 by lia.
  cbn [shr shr_m].
  replace (E + -53 + 52) with (E - 1) by lia.
  destruct (Z.leb_spec (E - 1) (1024 - 53)); [reflexivity | lia].
Qed.

(** The order of the magnitudes of two doubles with 53-digit mantissas. *)
Lemma double_magnitudes (M1 M2 : positive) (E1 E2 : Z) :
  Zpos (digits2_pos M1) = 53 -> Zpos (digits2_pos M2) = 53 ->
  -202 <= E1 -> -202 <= E2 ->
  match E1 ?= E2 with
  | Eq => Pos.compare_cont Eq M1 M2
  | c => c
  end = (Zpos M1 * 2 ^ (E1 + 202) ?= Zpos M2 * 2 ^ (E2 + 202)).
Proof.
  intros H1 H2 L1 L2.
  pose proof (digits2_bounds M1) as B1. pose proof (digits2_bounds M2) as B2.
  rewrite H1 in B1. rewrite H2 in B2.
  rewrite <- (lex_compare 53); try lia.
  rewrite (Z.add_comm E1), (Z.add_comm E2), Z.add_compare_mono_l.
  reflexivity.
Qed.

(** The half of a valid finite float, as line 68 computes it. *)
Lemma half_of_float (s : bool) (m : positive) (e : Z) :
  float_valid (S754_finite s m e) = true ->
  exists M E,
    double_mul (double_of_float (S754_finite s m e)) double_half
      = S754_finite s M E /\
    Zpos (digits2_pos M) = 53 /\ -202 <= E /\
    Zpos M * 2 ^ (E + 202) = Zpos m * 2 ^ (e + 149) * 2 ^ 52.
Proof.
  intros Hv.
  destruct (double_of_float_finite s m e Hv) as (M & E & -> & Hd & HE & Hval).
  exists M, (E - 1). rewrite double_mul_half by (assumption || lia).
  split; [reflexivity |]. split; [exact Hd |]. split; [lia |].
  replace (E + 202) with (Z.succ (E - 1 + 202)) in Hval by lia.
  rewrite Z.pow_succ_r in Hval by lia.
  change (2 ^ 53) with (2 * 2 ^ 52) in Hval. lia.
Qed.

(** Line 68: [snr < best_snr * 0.5] is the comparison of the value of
    [snr] with half the value of [best_snr]; neither the conversions to
    [double] nor the product round. *)
Theorem below_half_exact (snr best : float) :
  float_valid snr = true -> float_valid best = true ->
  below_half snr best = value_below_half (value_of snr) (value_of best).
Proof.
  intros Hs Hb. unfold below_half.
  destruct best as [sb | sb | | sb mb eb].
  - (* half of a zero *)
    destruct snr as [sa | sa | | sa ma ea]; try reflexivity.
    + destruct sa; reflexivity.
    + destruct (double_of_float_finite sa ma ea Hs) as (M & E & -> & _).
      pose proof (Z.pow_pos_nonneg 2 (ea + 149) ltac:(lia)
                    ltac:(apply float_valid_finite in Hs; lia)).
      unfold value_of, value_below_half.
      destruct sa; cbn [cond_Zopp]; symmetry;
        [apply Z.ltb_lt | apply Z.ltb_ge]; nia.
  - (* half of an infinity *)
    destruct snr as [sa | sa | | sa ma ea]; try reflexivity.
    + destruct sb; reflexivity.
    + destruct sa, sb; reflexivity.
    + destruct (double_of_float_finite sa ma ea Hs) as (M & E & -> & _).
      destruct sb; reflexivity.
  - destruct snr as [sa | sa | | sa ma ea]; try reflexivity.
    destruct (double_of_float_finite sa ma ea Hs) as (M & E & -> & _).
    reflexivity.
  - destruct (half_of_float sb mb eb Hb) as (Mb & Eb & -> & Hdb & HEb & Hvb).
    pose proof (Z.pow_pos_nonneg 2 (eb + 149) ltac:(lia)
                  ltac:(apply float_valid_finite in Hb; lia)) as Pb.
    destruct snr as [sa | sa | | sa ma ea].
    + unfold value_of, value_below_half, double_lt, SFltb.
      cbn [double_of_float SFcompare].
      destruct sb; cbn [cond_Zopp]; symmetry;
        [apply Z.ltb_ge | apply Z.ltb_lt]; nia.
    + destruct sa; reflexivity.
    + reflexivity.
    + destruct (double_of_float_finite sa ma ea Hs)
        as (Ma & Ea & -> & Hda & HEa & Hva).
      pose proof (Z.pow_pos_nonneg 2 (ea + 149) ltac:(lia)
                    ltac:(apply float_valid_finite in Hs; lia)) as Pa.
      pose proof (double_magnitudes Ma Mb Ea Eb Hda Hdb ltac:(lia) HEb) as Hm.
      rewrite Hva, Hvb in Hm.
      unfold value_of, value_below_half, double_lt, SFltb. cbn [SFcompare].
      set (ua := Zpos ma * 2 ^ (ea + 149)) in *.
      set (ub := Zpos mb * 2 ^ (eb + 149)) in *.
      change (2 ^ 53) with 9007199254740992 in Hm.
      change (2 ^ 52) with 4503599627370496 in Hm.
      destruct sa, sb; cbn [cond_Zopp].
      * replace (match Ea ?= Eb with
                 | Lt => Gt | Eq => CompOpp (Pos.compare_cont Eq Ma Mb) | Gt => Lt
                 end)
          with (CompOpp (ua * 9007199254740992 ?= ub * 4503599627370496))
          by (rewrite <- Hm; destruct (Ea ?= Eb); reflexivity).
        destruct (Z.compare_spec (ua * 9007199254740992) (ub * 4503599627370496));
          cbn [CompOpp]; symmetry;
          [apply Z.ltb_ge | apply Z.ltb_ge | apply Z.ltb_lt]; lia.
      * symmetry. apply Z.ltb_lt. lia.
      * symmetry. apply Z.ltb_ge. lia.
      * replace (match Ea ?= Eb with
                 | Lt => Lt | Eq => Pos.compare_cont Eq Ma Mb | Gt => Gt
                 end)
          with (ua * 9007199254740992 ?= ub * 4503599627370496)
          by (rewrite <- Hm; destruct (Ea ?= Eb); reflexivity).
        destruct (Z.compare_spec (ua * 9007199254740992) (ub * 4503599627370496));
          symmetry;
          [apply Z.ltb_ge | apply Z.ltb_lt | apply Z.ltb_ge]; lia.
Qed.

(** ** Observations on a run of the search *)

(** An invocation found the search active. *)
Definition active (i : invocation) : bool := nonzero (gain_count (at_entry i)).

(** The table indices at which the search took a sample. *)
Definition visited (h : list invocation) : list Z :=
  map (fun i => gain_index (at_entry i)) (filter active h).

(** The number of "continue" signals (return value 1). *)
Definition continues (h : list invocation) : nat :=
  length (filter (fun i => returned i =? 1) h).

(** The invariant of an active search: the table fills the front of the
    array, the cursor is inside the table and the recorded best index is at
    or before the cursor. *)
Definition searching (s : statics) : Prop :=
  length (gain_list s) = GAIN_LIST_LEN /\
  0 <= best_gain s <= gain_index s /\
  gain_index s < gain_count s <= Z.of_nat GAIN_LIST_LEN.

(** The search is over. *)
Definition concluded (s : statics) : Prop := gain_count s = 0.

(** The world in which [main] enters the read loop after a tuner reported
    the gains [table]: lines 408-412 executed on fresh statics. *)
Definition search_start (table : list Z) (log : list dev_cmd) : world :=
  mkWorld
    (mkStatics (table ++ skipn (length table) (repeat 0 GAIN_LIST_LEN))
               0 (Z.of_nat (length table)) 0 float_zero)
    true log.

(** [len] consecutive integers from [start]. *)
Fixpoint zseq (start : Z) (len : nat) : list Z :=
  match len with
  | O => []
  | S n => start :: zseq (start + 1) n
  end.

(** How a run of the callback over a list of samples relates the world
    before, the invocations observed and the world after: the indices
    visited are consecutive from the cursor and stay inside the table;
    either the search has concluded, on the one visit that did not signal
    "continue", or every sample was a visit that did. *)
Definition run_shape (w : world) (h : list invocation) (w' : world) : Prop :=
  let gi := gain_index (mem w) in
  let k := length (visited h) in
  visited h = zseq gi k /\
  gi + Z.of_nat k <= gain_count (mem w) /\
  gain_list (mem w') = gain_list (mem w) /\
  ((concluded (mem w') /\ S (continues h) = k /\
    gain_index (mem w') = best_gain (mem w'))
   \/
   (searching (mem w') /\ continues h = k /\ k = length h /\
    gain_index (mem w') = gi + Z.of_nat k /\
    gain_count (mem w') = gain_count (mem w))).

Ltac prog_unfold :=
  unfold bind, ret, load, store, load_gain, int_add, call, undefined,
    fatal_if, fatal_exit, blocked, input_set_snr_callback in *.

Lemma gain_at_Some (l : list Z) (i : Z) :
  0 <= i < Z.of_nat (length l) -> exists g, gain_at l i = Some g.
Proof.
  intros Hi. unfold gain_at.
  destruct (Z.ltb_spec i 0) as [Hneg | _]; [lia |].
  destruct (nth_error l (Z.to_nat i)) as [g |] eqn:E; [eauto |].
  apply nth_error_None in E. lia.
Qed.

Lemma in_int_small (z : Z) : -1000 <= z <= 1000 -> in_int z = true.
Proof.
  intros H. unfold in_int, INT_MIN, INT_MAX.
  apply andb_true_iff. split; apply Z.leb_le; lia.
Qed.

Lemma zseq_In (n : nat) : forall a x, In x (zseq a n) <-> a <= x < a + Z.of_nat n.
Proof.
  induction n as [| n IH]; intros a x; cbn [zseq In].
  - lia.
  - rewrite IH. lia.
Qed.

Lemma zseq_NoDup (n : nat) : forall a, NoDup (zseq a n).
Proof.
  induction n as [| n IH]; intros a; cbn [zseq]; constructor.
  - rewrite zseq_In. lia.
  - apply IH.
Qed.

Lemma zseq_length (n : nat) : forall a, length (zseq a n) = n.
Proof. induction n as [| n IH]; intros a; cbn; [| rewrite IH]; reflexivity. Qed.

Section CallbackFacts.

Variable drv : driver.

(** What an invocation leaves behind when the search is active, read off
    the code path by path. *)
Definition after_active (snr : float) (w : world) (r : Z) (w' : world) : Prop :=
  let s := mem w in
  let s' := mem w' in
  gain_list s' = gain_list s /\
  snr_cb w' = snr_cb w /\
  (if float_ge snr (best_snr s)
   then best_gain s' = gain_index s /\ best_snr s' = snr
   else best_gain s' = best_gain s /\ best_snr s' = best_snr s) /\
  (exists g, gain_at (gain_list s') (gain_index s') = Some g /\
             issued w' = issued w ++ [SetTunerGain g; ResetBuffer]) /\
  ((r = 0 /\
    (gain_index s + 1 >= gain_count s \/ below_half snr (best_snr s') = true) /\
    gain_index s' = best_gain s' /\ gain_count s' = 0)
   \/
   (r = 1 /\
    gain_index s + 1 < gain_count s /\ below_half snr (best_snr s') = false /\
    gain_index s' = gain_index s + 1 /\ gain_count s' = gain_count s)).

Lemma callback_idle (snr : float) (w : world) :
  gain_count (mem w) = 0 -> rtlsdr_snr_callback drv snr w = Ok 0 w.
Proof.
  intros H. unfold rtlsdr_snr_callback. prog_unfold.
  rewrite H. reflexivity.
Qed.

Lemma callback_active_inv (snr : float) (w : world) (r : Z) (w' : world) :
  gain_count (mem w) <> 0 ->
  rtlsdr_snr_callback drv snr w = Ok r w' ->
  after_active snr w r w'.
Proof.
  intros Hact Hrun.
  destruct w as [[gl gi gc bg bs] cb iss]. cbn [mem gain_count] in Hact.
  unfold rtlsdr_snr_callback in Hrun. prog_unfold. cbn in Hrun.
  apply Z.eqb_neq in Hact. rewrite Hact in Hrun. cbn in Hrun.
  unfold after_active. cbn [mem gain_list gain_index gain_count best_gain best_snr snr_cb issued].
  destruct (float_ge snr bs) eqn:Hge; cbn in Hrun;
    (destruct (gain_at gl gi) as [g0 |] eqn:Hg0; [| discriminate]);
    cbn in Hrun;
    (destruct (in_int (gi + 1)) eqn:Hov; [| discriminate]);
    cbn in Hrun.
  all: match type of Hrun with
       | context [(?a >=? ?b) || below_half ?x ?y] =>
           destruct (Z.geb_spec a b) as [Hlast | Hlast];
           destruct (below_half x y) eqn:Hhalf
       end; cbn in Hrun.
  all: repeat match type of Hrun with
       | context [gain_at ?l ?i] =>
           let E := fresh "E" in
           destruct (gain_at l i) eqn:E; [| discriminate]; cbn in Hrun
       end.
  all: inversion Hrun; subst; clear Hrun; cbn.
  all: rewrite <- app_assoc; cbn.
  all: repeat split; eauto; try lia.
  all: try (left; repeat split; auto; lia).
  all: try (right; repeat split; auto; lia).
Qed.

Lemma callback_total (snr : float) (w : world) :
  searching (mem w) -> exists r w', rtlsdr_snr_callback drv snr w = Ok r w'.
Proof.
  intros (Hlen & Hbest & Hidx).
  destruct w as [[gl gi gc bg bs] cb iss]. cbn in Hlen, Hbest, Hidx.
  unfold GAIN_LIST_LEN in *.
  unfold rtlsdr_snr_callback. prog_unfold. cbn.
  destruct (Z.eqb_spec gc 0) as [Hz | _]; [lia |]. cbn.
  destruct (gain_at_Some gl gi) as [g0 Hg0]; [lia |].
  destruct (gain_at_Some gl bg) as [gb Hgb]; [lia |].
  assert (Hov : in_int (gi + 1) = true) by (apply in_int_small; lia).
  destruct (float_ge snr bs); cbn; rewrite Hg0; cbn; rewrite Hov; cbn;
    destruct (Z.geb_spec (gi + 1) gc) as [Hlast | Hlast];
    destruct (below_half _ _); cbn;
    rewrite ?Hg0, ?Hgb; cbn; rewrite ?Hg0, ?Hgb; cbn; eauto.
  all: destruct (gain_at_Some gl (gi + 1)) as [g1 Hg1]; [lia |];
    rewrite Hg1; cbn; eauto.
Qed.

Lemma after_active_searching (snr : float) (w : world) (r : Z) (w' : world) :
  searching (mem w) -> after_active snr w r w' ->
  (r = 1 /\ searching (mem w')) \/ (r = 0 /\ concluded (mem w')).
Proof.
  intros (Hlen & Hbest & Hidx) (Hgl & _ & Hupd & _ & [Hstop | Hcont]).
  - right. split; [tauto |]. unfold concluded. tauto.
  - left. split; [tauto |]. unfold searching. rewrite Hgl.
    destruct (float_ge snr (best_snr (mem w))); lia.
Qed.

Lemma searching_active (s : statics) : searching s -> gain_count s <> 0.
Proof. unfold searching. lia. Qed.

Lemma snr_feed_cons (snr : float) (rest : list float) (w : world) :
  snr_feed drv (snr :: rest) w =
  match rtlsdr_snr_callback drv snr w with
  | Ok r w1 =>
      match snr_feed drv rest w1 with
      | Ok h w2 => Ok (mkInvocation (mem w) r :: h) w2
      | Fatal w2 => Fatal w2
      | Blocked w2 => Blocked w2
      | Undefined => Undefined
      end
  | Fatal w1 => Fatal w1
  | Blocked w1 => Blocked w1
  | Undefined => Undefined
  end.
Proof. reflexivity. Qed.

(** Once concluded, any further samples leave the world as it is. *)
Lemma snr_feed_concluded (snrs : list float) (w : world) :
  gain_count (mem w) = 0 ->
  snr_feed drv snrs w = Ok (map (fun _ => mkInvocation (mem w) 0) snrs) w.
Proof.
  intros Hz. induction snrs as [| snr rest IH]; [reflexivity |].
  rewrite snr_feed_cons, (callback_idle snr w Hz), IH. reflexivity.
Qed.

Lemma visited_idle (s : statics) (snrs : list float) :
  gain_count s = 0 ->
  visited (map (fun _ => mkInvocation s 0) snrs) = [].
Proof.
  intros Hz. unfold visited.
  induction snrs as [| snr rest IH]; [reflexivity |].
  cbn [map filter]. unfold active at 1. cbn [at_entry]. rewrite Hz. exact IH.
Qed.

Lemma continues_idle (s : statics) (snrs : list float) :
  continues (map (fun _ => mkInvocation s 0) snrs) = O.
Proof.
  unfold continues. induction snrs as [| snr rest IH]; [reflexivity |].
  cbn [map filter returned Z.eqb]. exact IH.
Qed.

Lemma visited_cons_active (s : statics) (r : Z) (h : list invocation) :
  gain_count s <> 0 ->
  visited (mkInvocation s r :: h) = gain_index s :: visited h.
Proof.
  intros Hnz. unfold visited. cbn [filter]. unfold active at 1, nonzero.
  cbn [at_entry]. apply Z.eqb_neq in Hnz. rewrite Hnz. reflexivity.
Qed.

Lemma snr_feed_run (snrs : list float) :
  forall w, searching (mem w) ->
  exists h w', snr_feed drv snrs w = Ok h w' /\
               length h = length snrs /\ run_shape w h w'.
Proof.
  induction snrs as [| snr rest IH]; intros w Hs.
  - exists [], w. split; [reflexivity |]. split; [reflexivity |].
    unfold run_shape. cbn. repeat split; try lia.
    + destruct Hs as (_ & _ & ?). lia.
    + right. repeat split; try apply Hs; lia.
  - pose proof (searching_active _ Hs) as Hnz.
    destruct (callback_total snr w Hs) as (r & w1 & Hcb).
    pose proof (callback_active_inv snr w r w1 Hnz Hcb) as Hafter.
    assert (Hgl : gain_list (mem w1) = gain_list (mem w)) by apply Hafter.
    rewrite snr_feed_cons, Hcb.
    destruct (after_active_searching snr w r w1 Hs Hafter)
      as [[-> Hs1] | [-> Hc1]].
    + destruct (IH w1 Hs1) as (h & w2 & Hfeed & Hlen & Hshape).
      rewrite Hfeed. eexists _, w2. split; [reflexivity |].
      split; [cbn; lia |].
      destruct Hafter as (_ & _ & _ & _ & [(Hr & _) | (_ & _ & _ & Hgi & Hgc)]);
        [discriminate |].
      unfold run_shape in *. rewrite visited_cons_active by assumption.
      cbn [length zseq]. rewrite Hgi, Hgc in Hshape.
      destruct Hshape as (Hv & Hb & Hl & Hend).
      split; [f_equal; exact Hv |]. split; [lia |].
      split; [congruence |].
      unfold continues in *. cbn [filter returned Z.eqb Pos.eqb length].
      destruct Hend as [(Hc & Hk & Hbest) | (Hs2 & Hk & Hkl & Hgi2 & Hgc2)].
      * left. repeat split; auto.
      * right. repeat split; try apply Hs2; cbn [length]; lia.
    + unfold concluded in Hc1.
      rewrite (snr_feed_concluded rest w1 Hc1).
      eexists _, w1. split; [reflexivity |].
      split; [cbn; rewrite length_map; reflexivity |].
      unfold run_shape. rewrite visited_cons_active by assumption.
      rewrite (visited_idle _ _ Hc1). cbn [length zseq].
      split; [reflexivity |].
      split; [destruct Hs as (_ & _ & ?); lia |].
      split; [exact Hgl |].
      left. unfold continues. cbn [filter returned Z.eqb].
      fold (continues (map (fun _ => mkInvocation (mem w1) 0) rest)).
      rewrite continues_idle.
      destruct Hafter as (_ & _ & _ & _ & [(_ & _ & Hgi & _) | (Hr & _)]);
        [| discriminate].
      repeat split; auto.
Qed.

End CallbackFacts.

Lemma float_eq_ge (a b : float) : float_eq a b = true -> float_ge a b = true.
Proof.
  unfold float_eq, float_ge, SFeqb.
  destruct (SFcompare a b) as [[| |] |]; intros H; congruence.
Qed.

Lemma search_start_searching (table : list Z) (log : list dev_cmd) :
  (1 <= length table <= GAIN_LIST_LEN)%nat ->
  searching (mem (search_start table log)).
Proof.
  intros Hn. unfold searching, search_start.
  cbn [mem gain_list gain_index gain_count best_gain].
  rewrite length_app, length_skipn, repeat_length.
  unfold GAIN_LIST_LEN in *. lia.
Qed.

(** ** Concrete data for the examples *)

(** A driver whose every call succeeds. *)
Definition quiet_driver : driver := fun _ _ => 0.

(** The five lowest gains of an R820T tuner, in tenths of a dB. *)
Definition five_gains : list Z := [0; 9; 14; 27; 37].

(** The SNR samples of the trace in the specification. *)
Definition trace_snrs : list float := map float_of_Z [5; 8; 10; 9; 4].

(** The "continue" signals that come before the first "stop". *)
Fixpoint continues_before_stop (h : list invocation) : nat :=
  match h with
  | [] => O
  | i :: rest =>
      if returned i =? 0 then O
      else if returned i =? 1 then S (continues_before_stop rest)
      else continues_before_stop rest
  end.

(** ** The search trace *)

(** C1, as the code runs it: over any 5-entry gain table, the samples
    5, 8, 10, 9, 4 taken at indices 0..4 make index 2 (metric 10) the best,
    the search concludes with chosen index 2, and the callback returns
    1, 1, 1, 1, 0: four "continue" signals precede the "stop". *)
Theorem gain_search_trace (drv : driver) (g0 g1 g2 g3 g4 : Z)
    (log : list dev_cmd) :
  exists h w',
    snr_feed drv trace_snrs (search_start [g0; g1; g2; g3; g4] log) = Ok h w' /\
    visited h = [0; 1; 2; 3; 4] /\
    map returned h = [1; 1; 1; 1; 0] /\
    continues_before_stop h = 4%nat /\
    best_gain (mem w') = 2 /\
    best_snr (mem w') = float_of_Z 10 /\
    gain_index (mem w') = 2 /\
    concluded (mem w') /\
    issued w' = log ++ [SetTunerGain g1; ResetBuffer; SetTunerGain g2; ResetBuffer;
                        SetTunerGain g3; ResetBuffer; SetTunerGain g4; ResetBuffer;
                        SetTunerGain g2; ResetBuffer].
Proof.
  eexists _, _. split; [vm_compute; reflexivity |].
  cbn [mem issued gain_index best_gain best_snr].
  repeat split.
  fold (@app dev_cmd). rewrite <- !app_assoc. reflexivity.
Qed.

(** C1, as stated, fails: on the trace of the specification no run makes
    index 2 the best and final index with exactly 3 "continue" signals
    before the "stop"; the callback has returned 1 four times by then. *)
Lemma gain_search_trace_not_three :
  ~ exists h w',
      snr_feed quiet_driver trace_snrs (search_start five_gains []) = Ok h w' /\
      best_gain (mem w') = 2 /\
      gain_index (mem w') = 2 /\
      concluded (mem w') /\
      continues_before_stop h = 3%nat.
Proof.
  intros (h & w' & Hrun & _ & _ & _ & Hthree).
  vm_compute in Hrun. injection Hrun as <- _.
  vm_compute in Hthree. discriminate.
Qed.

(** The world at the start of a search over [five_gains]. *)
Definition w_start5 : world := search_start five_gains [].

(** The world of a run with an explicit gain of 30.0 dB: line 418 executed,
    statics untouched. *)
Definition w_explicit : world := mkWorld statics_init false [SetTunerGain 300].

(** A search that has recorded SNR 8 at index 1 and now samples index 2. *)
Definition w_tie : world :=
  mkWorld (mkStatics (gain_list (mem w_start5)) 2 5 1 (float_of_Z 8)) true [].

(** [searching] of a concrete state, by evaluation. *)
Ltac searching_by_eval :=
  unfold searching; repeat split; vm_compute;
  first [reflexivity | discriminate].

(** ** One invocation of the callback *)

(** C2: while the search is active, the callback returns 0 ("stop")
    exactly when the cursor is on the last table entry or the value of the
    sample is less than half the value of the best SNR as it stands after
    the best-update step, in exact arithmetic; on stop the cursor becomes
    the recorded best index and the search is concluded, otherwise the
    cursor advances by one and 1 ("continue") is returned. The sample and
    the recorded best SNR are values of the type [float]; the recorded best
    SNR remains one. *)
Theorem stop_rule (drv : driver) (w : world) (snr : float) :
  searching (mem w) ->
  float_valid snr = true ->
  float_valid (best_snr (mem w)) = true ->
  exists r w',
    rtlsdr_snr_callback drv snr w = Ok r w' /\
    best_snr (mem w') =
      (if value_ge (value_of snr) (value_of (best_snr (mem w)))
       then snr else best_snr (mem w)) /\
    float_valid (best_snr (mem w')) = true /\
    (r = 0 <->
     gain_index (mem w) = gain_count (mem w) - 1 \/
     value_below_half (value_of snr) (value_of (best_snr (mem w'))) = true) /\
    (r = 0 ->
     gain_index (mem w') = best_gain (mem w') /\ concluded (mem w')) /\
    (r <> 0 ->
     r = 1 /\ gain_index (mem w') = gain_index (mem w) + 1 /\
     gain_count (mem w') = gain_count (mem w)).
Proof.
  intros Hs Hsnr Hbest.
  destruct (callback_total drv snr w Hs) as (r & w' & Hrun).
  exists r, w'. split; [exact Hrun |].
  destruct (callback_active_inv drv snr w r w' (searching_active _ Hs) Hrun)
    as (_ & _ & Hupd & _ & Hcase).
  destruct Hs as (_ & _ & Hidx).
  assert (Hnew : best_snr (mem w') =
                 (if value_ge (value_of snr) (value_of (best_snr (mem w)))
                  then snr else best_snr (mem w))).
  { rewrite <- (float_ge_exact snr (best_snr (mem w)) Hsnr Hbest).
    destruct (float_ge snr (best_snr (mem w))); tauto. }
  assert (Hvalid : float_valid (best_snr (mem w')) = true).
  { rewrite Hnew.
    destruct (value_ge (value_of snr) (value_of (best_snr (mem w))));
      assumption. }
  split; [exact Hnew |]. split; [exact Hvalid |].
  rewrite <- (below_half_exact snr (best_snr (mem w')) Hsnr Hvalid).
  unfold concluded.
  destruct Hcase as [(-> & Hwhy & Hgi & Hgc) | (-> & Hmore & Hhalf & Hgi & Hgc)].
  - split; [| split].
    + split; [| reflexivity].
      intros _. destruct Hwhy; [left; lia | right; assumption].
    + intros _. split; assumption.
    + intros Hne. contradiction.
  - split; [| split].
    + split; [discriminate |].
      intros [Hlast | Hlow]; [lia | congruence].
    + discriminate.
    + intros _. repeat split; assumption.
Qed.

(** At index 2 of 5 with best SNR 8, the sample 3 is below 4: the search
    stops there, two entries before the end of the table. *)
Lemma stop_rule_witness :
  searching (mem w_tie) /\
  float_valid (float_of_Z 3) = true /\
  float_valid (best_snr (mem w_tie)) = true /\
  gain_index (mem w_tie) <> gain_count (mem w_tie) - 1 /\
  exists w',
    rtlsdr_snr_callback quiet_driver (float_of_Z 3) w_tie = Ok 0 w' /\
    value_below_half (value_of (float_of_Z 3)) (value_of (best_snr (mem w')))
      = true /\
    gain_index (mem w') = best_gain (mem w') /\ concluded (mem w').
Proof.
  assert (Hs : searching (mem w_tie)) by searching_by_eval.
  assert (Hsnr : float_valid (float_of_Z 3) = true) by reflexivity.
  assert (Hbest : float_valid (best_snr (mem w_tie)) = true) by reflexivity.
  split; [exact Hs |]. split; [exact Hsnr |]. split; [exact Hbest |].
  split; [vm_compute; discriminate |].
  destruct (stop_rule quiet_driver w_tie (float_of_Z 3) Hs Hsnr Hbest)
    as (r & w' & Hrun & Hnew & _ & Hstop & Hon & _).
  assert (Hlow : value_below_half (value_of (float_of_Z 3))
                   (value_of (best_snr (mem w'))) = true)
    by (rewrite Hnew; vm_compute; reflexivity).
  assert (Hr : r = 0) by (apply Hstop; right; exact Hlow).
  subst r. exists w'. split; [exact Hrun |]. split; [exact Hlow |].
  apply Hon. reflexivity.
Defined.

(** C3: while the search is active, a sample greater than or equal to the
    best SNR so far makes the cursor the best index and the sample the best
    SNR; a sample equal to the best SNR is such a sample, so a tie moves the
    best to the later index. A smaller (or NaN) sample leaves both alone. *)
Theorem best_update (drv : driver) (w : world) (snr : float) :
  searching (mem w) ->
  exists r w',
    rtlsdr_snr_callback drv snr w = Ok r w' /\
    (float_ge snr (best_snr (mem w)) = true ->
     best_gain (mem w') = gain_index (mem w) /\ best_snr (mem w') = snr) /\
    (float_eq snr (best_snr (mem w)) = true ->
     best_gain (mem w') = gain_index (mem w) /\ best_snr (mem w') = snr /\
     best_gain (mem w) <= best_gain (mem w')) /\
    (float_ge snr (best_snr (mem w)) = false ->
     best_gain (mem w') = best_gain (mem w) /\
     best_snr (mem w') = best_snr (mem w)).
Proof.
  intros Hs.
  destruct (callback_total drv snr w Hs) as (r & w' & Hrun).
  exists r, w'. split; [exact Hrun |].
  destruct (callback_active_inv drv snr w r w' (searching_active _ Hs) Hrun)
    as (_ & _ & Hupd & _).
  destruct Hs as (_ & Hbest & _).
  split; [| split].
  - intros Hge. rewrite Hge in Hupd. exact Hupd.
  - intros Heq. apply float_eq_ge in Heq. rewrite Heq in Hupd.
    destruct Hupd as (Hg & Hb). repeat split; try assumption. lia.
  - intros Hlt. rewrite Hlt in Hupd. exact Hupd.
Qed.

Lemma best_update_witness :
  searching (mem w_tie) /\
  float_eq (float_of_Z 8) (best_snr (mem w_tie)) = true /\
  exists r w',
    rtlsdr_snr_callback quiet_driver (float_of_Z 8) w_tie = Ok r w' /\
    best_gain (mem w') = 2 /\ best_snr (mem w') = float_of_Z 8.
Proof.
  assert (Hs : searching (mem w_tie)) by searching_by_eval.
  assert (Heq : float_eq (float_of_Z 8) (best_snr (mem w_tie)) = true)
    by reflexivity.
  split; [exact Hs |]. split; [exact Heq |].
  destruct (best_update quiet_driver w_tie (float_of_Z 8) Hs)
    as (r & w' & Hrun & _ & Htie & _).
  exists r, w'. split; [exact Hrun |].
  destruct (Htie Heq) as (Hg & Hb & _). split; assumption.
Defined.

(** C5: while the search is active, an invocation that signals "continue"
    moves the cursor up by exactly one, an invocation after which the search
    is not concluded never moves it down, and over any run the indices at
    which samples are taken are consecutive, starting at the cursor. *)
Theorem index_monotone (drv : driver) (w : world) (snr : float)
    (snrs : list float) :
  searching (mem w) ->
  (exists r w',
     rtlsdr_snr_callback drv snr w = Ok r w' /\
     (r = 1 -> gain_index (mem w') = gain_index (mem w) + 1) /\
     (~ concluded (mem w') -> gain_index (mem w) <= gain_index (mem w'))) /\
  (exists h w',
     snr_feed drv snrs w = Ok h w' /\
     visited h = zseq (gain_index (mem w)) (length (visited h))).
Proof.
  intros Hs. split.
  - destruct (callback_total drv snr w Hs) as (r & w' & Hrun).
    exists r, w'. split; [exact Hrun |].
    destruct (callback_active_inv drv snr w r w' (searching_active _ Hs) Hrun)
      as (_ & _ & _ & _ & Hcase).
    unfold concluded.
    destruct Hcase as [(-> & _ & _ & Hgc) | (-> & _ & _ & Hgi & _)].
    + split; [discriminate | intros Hn; contradiction].
    + split; intros; lia.
  - destruct (snr_feed_run drv snrs w Hs) as (h & w' & Hrun & _ & Hshape).
    exists h, w'. split; [exact Hrun | apply Hshape].
Qed.

Lemma index_monotone_witness :
  searching (mem w_start5) /\
  exists h w',
    snr_feed quiet_driver trace_snrs w_start5 = Ok h w' /\
    visited h = zseq 0 (length (visited h)).
Proof.
  assert (Hs : searching (mem w_start5)) by searching_by_eval.
  split; [exact Hs |].
  exact (proj2 (index_monotone quiet_driver w_start5 (float_of_Z 5)
                  trace_snrs Hs)).
Defined.

(** C10: every invocation while the search is active ends by setting the
    tuner gain to the table entry under the cursor as the invocation leaves
    it, then resetting the sample buffer, whether it returns "continue" or
    "stop"; on "stop" the cursor is the recorded best index, so the best
    gain is the one applied. *)
Theorem gain_applied (drv : driver) (w : world) (snr : float) :
  searching (mem w) ->
  exists r w' g,
    rtlsdr_snr_callback drv snr w = Ok r w' /\
    (r = 0 \/ r = 1) /\
    gain_at (gain_list (mem w')) (gain_index (mem w')) = Some g /\
    issued w' = issued w ++ [SetTunerGain g; ResetBuffer] /\
    (r = 0 ->
     gain_index (mem w') = best_gain (mem w') /\
     gain_at (gain_list (mem w')) (best_gain (mem w')) = Some g).
Proof.
  intros Hs.
  destruct (callback_total drv snr w Hs) as (r & w' & Hrun).
  destruct (callback_active_inv drv snr w r w' (searching_active _ Hs) Hrun)
    as (_ & _ & _ & (g & Hg & Hlog) & Hcase).
  exists r, w', g. split; [exact Hrun |].
  destruct Hcase as [(-> & _ & Hgi & _) | (-> & _)].
  - repeat split; auto. rewrite <- Hgi. exact Hg.
  - repeat split; auto; discriminate.
Qed.

Lemma gain_applied_witness :
  searching (mem w_tie) /\
  exists r w' g,
    rtlsdr_snr_callback quiet_driver (float_of_Z 3) w_tie = Ok r w' /\
    issued w' = issued w_tie ++ [SetTunerGain g; ResetBuffer].
Proof.
  assert (Hs : searching (mem w_tie)) by searching_by_eval.
  split; [exact Hs |].
  destruct (gain_applied quiet_driver w_tie (float_of_Z 3) Hs)
    as (r & w' & g & Hrun & _ & _ & Hlog & _).
  exists r, w', g. split; assumption.
Defined.

(** C9: invoked when no search is active, the callback returns 0 and
    leaves the world as it found it: no static is written and no driver
    command is issued. *)
Theorem idle_callback (drv : driver) (w : world) (snr : float) :
  gain_count (mem w) = 0 ->
  rtlsdr_snr_callback drv snr w = Ok 0 w.
Proof. apply callback_idle. Qed.

Lemma idle_callback_witness :
  gain_count (mem w_explicit) = 0 /\
  rtlsdr_snr_callback quiet_driver (float_of_Z 5) w_explicit = Ok 0 w_explicit.
Proof.
  split; [reflexivity |].
  apply (idle_callback quiet_driver w_explicit (float_of_Z 5)). reflexivity.
Defined.

(** ** Runs of the search *)

(** C6: once the search has concluded, every further invocation, for any
    samples, returns 0 and finds the statics as the conclusion left them;
    the world after the run is the world before it. *)
Theorem concluded_terminal (drv : driver) (w : world) (snrs : list float) :
  concluded (mem w) ->
  exists h,
    snr_feed drv snrs w = Ok h w /\
    length h = length snrs /\
    Forall (fun i => returned i = 0 /\ at_entry i = mem w) h.
Proof.
  intros Hc. eexists. split; [apply snr_feed_concluded; exact Hc |].
  split; [apply length_map |].
  apply Forall_forall. intros i Hi. apply in_map_iff in Hi.
  destruct Hi as (x & <- & _). split; reflexivity.
Qed.

(** The world in which the trace of the specification ends. *)
Definition w_done : world :=
  mkWorld (mkStatics (gain_list (mem w_start5)) 2 0 2 (float_of_Z 10)) true [].

Lemma concluded_terminal_witness :
  concluded (mem w_done) /\
  exists h,
    snr_feed quiet_driver trace_snrs w_done = Ok h w_done /\
    length h = 5%nat /\
    Forall (fun i => returned i = 0 /\ at_entry i = mem w_done) h.
Proof.
  split; [reflexivity |].
  apply (concluded_terminal quiet_driver w_done trace_snrs). reflexivity.
Defined.

(** C4: over a gain table of n entries, 1 <= n <= 128, and for any
    samples, the run is defined, fewer than n invocations return
    "continue", no table index is visited twice and every index visited is
    inside the table; n samples are enough for the search to conclude. *)
Theorem search_terminates (drv : driver) (table : list Z)
    (log : list dev_cmd) (snrs : list float) :
  (1 <= length table <= GAIN_LIST_LEN)%nat ->
  exists h w',
    snr_feed drv snrs (search_start table log) = Ok h w' /\
    (continues h < length table)%nat /\
    (length (visited h) <= length table)%nat /\
    NoDup (visited h) /\
    (forall i, In i (visited h) -> 0 <= i < Z.of_nat (length table)) /\
    ((length table <= length snrs)%nat -> concluded (mem w')).
Proof.
  intros Hn.
  pose proof (search_start_searching table log Hn) as Hs.
  destruct (snr_feed_run drv snrs _ Hs) as (h & w' & Hrun & Hlen & Hshape).
  exists h, w'. split; [exact Hrun |].
  unfold run_shape in Hshape.
  cbn [search_start mem gain_index gain_count] in Hshape.
  destruct Hshape as (Hv & Hb & _ & Hend).
  assert (Hcont : (continues h < length table)%nat).
  { destruct Hend as [(_ & Hk & _) | ((_ & _ & Hidx) & Hk & _ & Hgi & Hgc)];
      [lia |].
    rewrite Hgi, Hgc in Hidx. lia. }
  split; [exact Hcont |]. split; [lia |].
  split; [rewrite Hv; apply zseq_NoDup |].
  split.
  { intros i Hi. rewrite Hv in Hi. apply zseq_In in Hi. lia. }
  intros Hlong.
  destruct Hend as [(Hc & _) | (_ & Hk & Hkl & _)]; [exact Hc |].
  lia.
Qed.

Lemma search_terminates_witness :
  (1 <= length five_gains <= GAIN_LIST_LEN)%nat /\
  exists h w',
    snr_feed quiet_driver trace_snrs (search_start five_gains []) = Ok h w' /\
    (continues h < 5)%nat /\
    NoDup (visited h) /\
    ((5 <= 5)%nat -> concluded (mem w')).
Proof.
  assert (Hn : (1 <= length five_gains <= GAIN_LIST_LEN)%nat)
    by (unfold GAIN_LIST_LEN; simpl; lia).
  split; [exact Hn |].
  destruct (search_terminates quiet_driver five_gains [] trace_snrs Hn)
    as (h & w' & Hrun & Hcont & _ & Hnd & _ & Hend).
  exists h, w'. repeat split; assumption.
Defined.

(** ** What a program adds to the command log *)

(** Whenever [p] ends with a world, the commands it issued all satisfy
    [P]. *)
Definition emits {A} (P : dev_cmd -> Prop) (p : prog A) : Prop :=
  forall w w', world_of (p w) = Some w' ->
  exists tr, issued w' = issued w ++ tr /\ Forall P tr.

Lemma emits_silent {A} (P : dev_cmd -> Prop) (p : prog A) :
  (forall w w', world_of (p w) = Some w' -> issued w' = issued w) ->
  emits P p.
Proof.
  intros H w w' Hw. exists []. rewrite app_nil_r. split; [eauto | constructor].
Qed.

Lemma emits_ret {A} (P : dev_cmd -> Prop) (a : A) : emits P (ret a).
Proof. apply emits_silent. intros w w' [= <-]. reflexivity. Qed.

Lemma emits_load {A} (P : dev_cmd -> Prop) (f : statics -> A) : emits P (load f).
Proof. apply emits_silent. intros w w' [= <-]. reflexivity. Qed.

Lemma emits_store (P : dev_cmd -> Prop) (f : statics -> statics) :
  emits P (store f).
Proof. apply emits_silent. intros w w' [= <-]. reflexivity. Qed.

Lemma emits_load_gain (P : dev_cmd -> Prop) (i : Z) : emits P (load_gain i).
Proof.
  apply emits_silent. intros w w'. unfold load_gain.
  destruct (gain_at _ _); cbn; [intros [= <-]; reflexivity | discriminate].
Qed.

Lemma emits_int_add (P : dev_cmd -> Prop) (a b : Z) : emits P (int_add a b).
Proof.
  apply emits_silent. intros w w'. unfold int_add.
  destruct (in_int _); cbn; [intros [= <-]; reflexivity | discriminate].
Qed.

Lemma emits_fatal_if (P : dev_cmd -> Prop) (b : bool) : emits P (fatal_if b).
Proof.
  apply emits_silent. intros w w'.
  destruct b; cbn; intros [= <-]; reflexivity.
Qed.

Lemma emits_blocked {A} (P : dev_cmd -> Prop) : emits P (@blocked A).
Proof. apply emits_silent. intros w w' [= <-]. reflexivity. Qed.

Lemma emits_undefined {A} (P : dev_cmd -> Prop) : emits P (@undefined A).
Proof. intros w w'. discriminate. Qed.

Lemma emits_register (P : dev_cmd -> Prop) : emits P input_set_snr_callback.
Proof. apply emits_silent. intros w w' [= <-]. reflexivity. Qed.

Lemma emits_call (P : dev_cmd -> Prop) (drv : driver) (c : dev_cmd) :
  P c -> emits P (call drv c).
Proof.
  intros Hc w w' [= <-]. exists [c]. split; [reflexivity |].
  constructor; [exact Hc | constructor].
Qed.

Lemma emits_bind {A B} (P : dev_cmd -> Prop) (p : prog A) (k : A -> prog B) :
  emits P p -> (forall a, emits P (k a)) -> emits P (bind p k).
Proof.
  intros Hp Hk w w' Hw. unfold bind in Hw.
  destruct (p w) as [a w1 | w1 | w1 |] eqn:E.
  - destruct (Hp w w1) as (tr1 & E1 & F1); [rewrite E; reflexivity |].
    destruct (Hk a w1 w' Hw) as (tr2 & E2 & F2).
    exists (tr1 ++ tr2). rewrite E2, E1, app_assoc.
    split; [reflexivity | apply Forall_app; split; assumption].
  - apply Hp. rewrite E. exact Hw.
  - apply Hp. rewrite E. exact Hw.
  - discriminate.
Qed.

(** One step of a syntax-directed proof of [emits]. *)
Ltac emits_step :=
  first
    [ apply emits_ret | apply emits_load | apply emits_store
    | apply emits_load_gain | apply emits_int_add | apply emits_fatal_if
    | apply emits_blocked | apply emits_undefined | apply emits_register
    | apply emits_call; cbn; solve [eauto]
    | apply emits_bind; [| intros ?]
    | match goal with
      | |- emits _ (if ?b then _ else _) => destruct b
      end ].

(** The commands of the gain search. *)
Definition gain_cmd (c : dev_cmd) : Prop :=
  (exists g, c = SetTunerGain g) \/ c = ResetBuffer.

(** The commands that come before streaming: everything but
    [rtlsdr_read_async] and [rtlsdr_close]. *)
Definition setup_cmd (c : dev_cmd) : Prop :=
  match c with
  | ReadAsync _ _ | Close => False
  | _ => True
  end.

Lemma gain_cmd_setup (c : dev_cmd) : gain_cmd c -> setup_cmd c.
Proof. intros [(g & ->) | ->]; exact I. Qed.

Lemma emits_weaken {A} (P Q : dev_cmd -> Prop) (p : prog A) :
  (forall c, P c -> Q c) -> emits P p -> emits Q p.
Proof.
  intros HPQ Hp w w' Hw. destruct (Hp w w' Hw) as (tr & E & F).
  exists tr. split; [exact E |]. eapply Forall_impl; eauto.
Qed.

Lemma emits_callback (drv : driver) (snr : float) :
  emits gain_cmd (rtlsdr_snr_callback drv snr).
Proof.
  unfold rtlsdr_snr_callback, gain_cmd. repeat emits_step.
Qed.

Lemma emits_snr_feed (drv : driver) (snrs : list float) :
  emits gain_cmd (snr_feed drv snrs).
Proof.
  induction snrs as [| snr rest IH]; cbn [snr_feed].
  - apply emits_ret.
  - apply emits_bind; [apply emits_load | intros s].
    apply emits_bind; [apply emits_callback | intros r].
    apply emits_bind; [exact IH | intros h]. apply emits_ret.
Qed.

Lemma emits_input_cb (drv : driver) (snrs : list float) :
  emits gain_cmd (input_cb drv snrs).
Proof.
  intros w w'. unfold input_cb. destruct (snr_cb w).
  - apply emits_bind; [apply emits_snr_feed | intros h; apply emits_ret].
  - apply emits_ret.
Qed.

Section MainFacts.

Variable drv : driver.
Variable tuner : tuner_gains.
Variable SNR_FFT_COUNT : Z.

Lemma emits_gain_setup (gain : Z) :
  emits setup_cmd (main_gain_setup drv tuner gain).
Proof.
  unfold main_gain_setup, rtlsdr_get_tuner_gains. repeat emits_step.
Qed.

Lemma emits_configure (gain ppm_error frequency : Z) :
  emits setup_cmd (main_configure drv tuner gain ppm_error frequency).
Proof.
  unfold main_configure.
  repeat first [apply emits_gain_setup | emits_step].
Qed.

Lemma sync_loop_cons (snrs : list float) (rest : list (list float)) (w : world) :
  gain_count (mem w) <> 0 ->
  main_sync_loop drv SNR_FFT_COUNT (snrs :: rest) w =
  (err <- call drv (ReadSync (128 * SNR_FFT_COUNT)) ;;
   fatal_if (nonzero err) ;;
   input_cb drv snrs ;;
   main_sync_loop drv SNR_FFT_COUNT rest) w.
Proof.
  intros Hnz. apply Z.eqb_neq in Hnz.
  cbn [main_sync_loop]. unfold bind at 1, load. rewrite Hnz. reflexivity.
Qed.

Lemma sync_loop_done (blocks : list (list float)) (w : world) :
  gain_count (mem w) = 0 -> main_sync_loop drv SNR_FFT_COUNT blocks w = Ok tt w.
Proof.
  intros Hz. destruct blocks; cbn [main_sync_loop]; unfold bind, load;
    rewrite Hz; reflexivity.
Qed.

Lemma sync_loop_starved (w : world) :
  gain_count (mem w) <> 0 -> main_sync_loop drv SNR_FFT_COUNT [] w = Blocked w.
Proof.
  intros Hnz. apply Z.eqb_neq in Hnz.
  cbn [main_sync_loop]. unfold bind, load. rewrite Hnz. reflexivity.
Qed.

Lemma emits_sync_loop (blocks : list (list float)) :
  emits setup_cmd (main_sync_loop drv SNR_FFT_COUNT blocks).
Proof.
  induction blocks as [| snrs rest IH]; cbn [main_sync_loop].
  - repeat emits_step.
  - apply emits_bind; [apply emits_load | intros gc].
    destruct (gc =? 0); [apply emits_ret |].
    apply emits_bind; [apply emits_call; exact I | intros err].
    apply emits_bind; [apply emits_fatal_if | intros _].
    apply emits_bind; [| intros _; exact IH].
    eapply emits_weaken; [apply gain_cmd_setup | apply emits_input_cb].
Qed.

(** The read loop is left only with the search concluded. *)
Lemma sync_loop_exit (blocks : list (list float)) :
  forall w w', main_sync_loop drv SNR_FFT_COUNT blocks w = Ok tt w' ->
  concluded (mem w').
Proof.
  induction blocks as [| snrs rest IH]; intros w w' Hrun;
    destruct (Z.eq_dec (gain_count (mem w)) 0) as [Hz | Hnz].
  - rewrite (sync_loop_done _ _ Hz) in Hrun. injection Hrun as <-. exact Hz.
  - rewrite (sync_loop_starved _ Hnz) in Hrun. discriminate.
  - rewrite (sync_loop_done _ _ Hz) in Hrun. injection Hrun as <-. exact Hz.
  - rewrite (sync_loop_cons _ _ _ Hnz) in Hrun.
    unfold bind at 1 2, call, fatal_if, fatal_exit, ret in Hrun.
    destruct (nonzero _); [discriminate |].
    unfold bind in Hrun.
    destruct (input_cb drv snrs _) as [[] w1 | w1 | w1 |]; try discriminate.
    exact (IH w1 w' Hrun).
Qed.

(** While the search is active the loop's next command is a blocking
    read. *)
Lemma sync_loop_reads (snrs : list float) (rest : list (list float))
    (w w' : world) :
  gain_count (mem w) <> 0 ->
  world_of (main_sync_loop drv SNR_FFT_COUNT (snrs :: rest) w) = Some w' ->
  exists tr, issued w' = issued w ++ ReadSync (128 * SNR_FFT_COUNT) :: tr.
Proof.
  intros Hnz Hw. rewrite (sync_loop_cons _ _ _ Hnz) in Hw.
  unfold bind at 1, call in Hw.
  match type of Hw with
  | world_of (?k ?e ?w1) = _ =>
      assert (Hrest : emits setup_cmd (k e))
  end.
  { repeat first [apply emits_sync_loop | emits_step].
    eapply emits_weaken; [apply gain_cmd_setup | apply emits_input_cb]. }
  destruct (Hrest _ _ Hw) as (tr & E & _). cbn [issued] in E.
  exists tr. rewrite E, <- app_assoc. reflexivity.
Qed.

(** The read loop keeps the search invariant and never runs into
    undefined behaviour. *)
Lemma sync_loop_safe (blocks : list (list float)) :
  forall w, searching (mem w) \/ concluded (mem w) ->
  exists w',
    world_of (main_sync_loop drv SNR_FFT_COUNT blocks w) = Some w' /\
    (searching (mem w') \/ concluded (mem w')).
Proof.
  induction blocks as [| snrs rest IH]; intros w [Hs | Hc].
  - rewrite (sync_loop_starved _ (searching_active _ Hs)).
    exists w. split; [reflexivity | left; exact Hs].
  - rewrite (sync_loop_done _ _ Hc). exists w. split; [reflexivity | auto].
  - rewrite (sync_loop_cons _ _ _ (searching_active _ Hs)).
    unfold bind at 1 2, call, fatal_if, fatal_exit, ret.
    destruct (nonzero _).
    { eexists. split; [reflexivity | left; exact Hs]. }
    unfold bind, input_cb. cbn [snr_cb mem issued].
    destruct (snr_cb w).
    + match goal with
      | |- context [bind (snr_feed drv snrs) _ ?w1] =>
          destruct (snr_feed_run drv snrs w1 Hs)
            as (h & w2 & Hrun & _ & _ & _ & _ & Hend)
      end.
      unfold bind. rewrite Hrun. unfold ret. apply IH.
      destruct Hend as [(Hc2 & _) | (Hs2 & _)]; auto.
    + apply IH. left. exact Hs.
  - rewrite (sync_loop_done _ _ Hc). exists w. split; [reflexivity | auto].
Qed.

End MainFacts.

(** ** Entering the search *)

Lemma fresh_table_length (gains : list Z) :
  (length gains <= GAIN_LIST_LEN)%nat ->
  length (gains ++ skipn (length gains) (repeat 0 GAIN_LIST_LEN)) = GAIN_LIST_LEN.
Proof.
  intros H. rewrite length_app, length_skipn, repeat_length. lia.
Qed.

(** What [main_gain_setup] does on the fresh statics, case by case. *)
Lemma gain_setup_cases (drv : driver) (tuner : tuner_gains) (gain : Z)
    (log : list dev_cmd) :
  (length (tg_written tuner) <= GAIN_LIST_LEN)%nat ->
  let table :=
    tg_written tuner ++ skipn (length (tg_written tuner)) (repeat 0 GAIN_LIST_LEN) in
  exists w',
    world_of (main_gain_setup drv tuner gain (mkWorld statics_init false log)) = Some w' /\
    ((gain = INT_MIN /\ 0 < tg_ret tuner /\
      exists g0, gain_at table 0 = Some g0 /\
      w' = mkWorld (mkStatics table 0 (tg_ret tuner) 0 float_zero) true
                   (log ++ [GetTunerGains; SetTunerGain g0]))
     \/
     (gain = INT_MIN /\ tg_ret tuner <= 0 /\
      w' = mkWorld (mkStatics table 0 (tg_ret tuner) 0 float_zero) false
                   (log ++ [GetTunerGains]))
     \/
     (gain <> INT_MIN /\
      w' = mkWorld statics_init false (log ++ [SetTunerGain gain]))).
Proof.
  intros Hlen table.
  unfold main_gain_setup. destruct (Z.eqb_spec gain INT_MIN) as [Hmin | Hexp].
  - unfold rtlsdr_get_tuner_gains. prog_unfold.
    cbn [mem issued snr_cb statics_init gain_list].
    rewrite repeat_length.
    destruct (Nat.leb_spec (length (tg_written tuner)) GAIN_LIST_LEN)
      as [_ | Hbad]; [| lia].
    cbn [mem issued snr_cb set_gain_list set_gain_count gain_list gain_index
         gain_count best_gain best_snr].
    fold table.
    destruct (Z.gtb_spec (tg_ret tuner) 0) as [Hpos | Hnone].
    + destruct (gain_at_Some table 0) as (g0 & Hg0).
      { unfold table. rewrite fresh_table_length by assumption.
        unfold GAIN_LIST_LEN. lia. }
      unfold set_gain_count, set_gain_list, statics_init.
      cbn [mem issued snr_cb gain_list gain_index gain_count best_gain best_snr].
      rewrite Hg0.
      cbn [mem issued snr_cb]. rewrite <- app_assoc. cbn [app].
      eexists. split.
      * destruct (nonzero _); reflexivity.
      * left. repeat split; try assumption; try lia. exists g0. split; auto.
    + unfold set_gain_count, set_gain_list, statics_init.
      cbn [mem issued snr_cb gain_list gain_index gain_count best_gain best_snr].
      eexists. split; [reflexivity |].
      right. left. repeat split; try assumption; lia.
  - prog_unfold. cbn [mem issued snr_cb].
    eexists. split.
    + destruct (nonzero _); reflexivity.
    + right. right. split; [assumption | reflexivity].
Qed.

(** A tuner that reports [five_gains]. *)
Definition five_gain_tuner : tuner_gains := mkTunerGains 5 five_gains.

(** With a driver that accepts the gain and a tuner whose return value is
    the number of gains it wrote, the search starts in [search_start]. *)
Lemma gain_setup_search_start (drv : driver) (gains : list Z)
    (log : list dev_cmd) :
  (1 <= length gains <= GAIN_LIST_LEN)%nat ->
  exists g0,
    world_of (main_gain_setup drv (mkTunerGains (Z.of_nat (length gains)) gains)
                INT_MIN (mkWorld statics_init false log))
    = Some (search_start gains (log ++ [GetTunerGains; SetTunerGain g0])).
Proof.
  intros Hn.
  destruct (gain_setup_cases drv (mkTunerGains (Z.of_nat (length gains)) gains)
              INT_MIN log) as (w' & Hrun & Hcase); [cbn; lia |].
  cbn [tg_ret tg_written] in Hcase.
  destruct Hcase as [(_ & _ & g0 & _ & ->) | [(_ & Hnone & _) | (Hexp & _)]].
  - exists g0. exact Hrun.
  - lia.
  - contradiction.
Qed.

(** ** Synchronous reads first, asynchronous streaming after *)

Lemma setup_cmd_not_async (l : list dev_cmd) (a b : Z) :
  Forall setup_cmd l -> ~ In (ReadAsync a b) l.
Proof.
  intros Hall Hin. rewrite Forall_forall in Hall. exact (Hall _ Hin).
Qed.

Lemma emits_from_empty {A} (P : dev_cmd -> Prop) (p : prog A) (w' : world) :
  emits P p -> world_of (p world_init) = Some w' -> Forall P (issued w').
Proof.
  intros Hp Hw. destruct (Hp _ _ Hw) as (tr & -> & Hall). exact Hall.
Qed.

Lemma emits_extends {A} (P : dev_cmd -> Prop) (p : prog A) (w w' : world) :
  emits P p -> Forall P (issued w) -> world_of (p w) = Some w' ->
  Forall P (issued w').
Proof.
  intros Hp Hall Hw. destruct (Hp _ _ Hw) as (tr & -> & Htr).
  apply Forall_app. split; assumption.
Qed.

(** C8: in the RTL-SDR path, whenever [rtlsdr_read_async] appears in the
    command log, the configuration and the read loop ran to completion
    before it, the loop left the search concluded, everything the loop
    issued (its synchronous reads included) precedes the asynchronous read
    and only [rtlsdr_close] follows it. While the search is active, an
    iteration of the loop is a synchronous read of 128 * SNR_FFT_COUNT
    bytes, the block handed to [input_cb], and the loop again; its next
    command is that read, and if no samples come it stays blocked in the
    loop. *)
Theorem async_after_search (drv : driver) (tuner : tuner_gains)
    (SNR_FFT_COUNT gain ppm_error frequency : Z) (blocks : list (list float)) :
  (forall w' a b,
     world_of (main_rtlsdr drv tuner SNR_FFT_COUNT gain ppm_error frequency
                 blocks world_init) = Some w' ->
     In (ReadAsync a b) (issued w') ->
     exists w1 w2 post,
       main_configure drv tuner gain ppm_error frequency world_init = Ok tt w1 /\
       main_sync_loop drv SNR_FFT_COUNT blocks w1 = Ok tt w2 /\
       concluded (mem w2) /\
       mem w' = mem w2 /\
       issued w' = issued w2 ++ ReadAsync RADIO_BUFCNT RADIO_BUFFER :: post /\
       Forall setup_cmd (issued w2) /\
       Forall (fun c => c = Close) post) /\
  (forall w snrs rest,
     ~ concluded (mem w) ->
     main_sync_loop drv SNR_FFT_COUNT (snrs :: rest) w =
     (err <- call drv (ReadSync (128 * SNR_FFT_COUNT)) ;;
      fatal_if (nonzero err) ;;
      input_cb drv snrs ;;
      main_sync_loop drv SNR_FFT_COUNT rest) w) /\
  (forall w snrs rest w',
     ~ concluded (mem w) ->
     world_of (main_sync_loop drv SNR_FFT_COUNT (snrs :: rest) w) = Some w' ->
     exists tr, issued w' = issued w ++ ReadSync (128 * SNR_FFT_COUNT) :: tr) /\
  (forall w,
     ~ concluded (mem w) -> main_sync_loop drv SNR_FFT_COUNT [] w = Blocked w).
Proof.
  split; [| split; [| split]].
  - intros w' a b Hw Hin. unfold main_rtlsdr in Hw. unfold bind at 1 in Hw.
    pose proof (emits_configure drv tuner gain ppm_error frequency) as Hconf.
    destruct (main_configure drv tuner gain ppm_error frequency world_init)
      as [[] w1 | w1 | w1 |] eqn:Ec; cbn [world_of] in Hw.
    2, 3: injection Hw as <-;
      exfalso; apply (setup_cmd_not_async (issued w1) a b); [| exact Hin];
      apply (emits_from_empty _ _ _ Hconf); rewrite Ec; reflexivity.
    2: discriminate.
    assert (H1 : Forall setup_cmd (issued w1)).
    { apply (emits_from_empty _ _ _ Hconf). rewrite Ec. reflexivity. }
    unfold bind at 1 in Hw.
    pose proof (emits_sync_loop drv SNR_FFT_COUNT blocks) as Hloop.
    destruct (main_sync_loop drv SNR_FFT_COUNT blocks w1)
      as [[] w2 | w2 | w2 |] eqn:El; cbn [world_of] in Hw.
    2, 3: injection Hw as <-;
      exfalso; apply (setup_cmd_not_async (issued w2) a b); [| exact Hin];
      apply (emits_extends _ _ w1 _ Hloop H1); rewrite El; reflexivity.
    2: discriminate.
    assert (H2 : Forall setup_cmd (issued w2)).
    { apply (emits_extends _ _ w1 _ Hloop H1). rewrite El. reflexivity. }
    exists w1, w2.
    unfold main_stream in Hw. prog_unfold. cbn [mem snr_cb issued] in Hw.
    destruct (nonzero (drv (issued w2) _));
      unfold ret in Hw; cbn [mem snr_cb issued world_of] in Hw.
    + exists []. injection Hw as <-. cbn [mem issued].
      repeat split; auto. exact (sync_loop_exit _ _ _ _ _ El).
    + exists [Close].
      destruct (nonzero _); cbn [world_of] in Hw; injection Hw as <-;
        cbn [mem issued]; rewrite <- app_assoc;
        repeat split; auto; exact (sync_loop_exit _ _ _ _ _ El).
  - intros w snrs rest Hact.
    exact (sync_loop_cons drv SNR_FFT_COUNT snrs rest w Hact).
  - intros w snrs rest w' Hact Hw.
    exact (sync_loop_reads drv SNR_FFT_COUNT snrs rest w w' Hact Hw).
  - intros w Hact. exact (sync_loop_starved drv SNR_FFT_COUNT w Hact).
Qed.

(** One SNR sample per block read, as in the trace of the specification. *)
Definition trace_blocks : list (list float) := map (fun x => [x]) trace_snrs.

Lemma async_after_search_witness :
  exists w',
    world_of (main_rtlsdr quiet_driver five_gain_tuner 256 INT_MIN 0 99500000
                trace_blocks world_init) = Some w' /\
    In (ReadAsync 8 524288) (issued w') /\
    exists w1 w2 post,
      main_configure quiet_driver five_gain_tuner INT_MIN 0 99500000
        world_init = Ok tt w1 /\
      main_sync_loop quiet_driver 256 trace_blocks w1 = Ok tt w2 /\
      concluded (mem w2) /\
      issued w' = issued w2 ++ ReadAsync RADIO_BUFCNT RADIO_BUFFER :: post.
Proof.
  eexists. split; [vm_compute; reflexivity |].
  split; [cbn; tauto |].
  match goal with
  | |- context [issued ?w' = _] =>
      destruct (proj1 (async_after_search quiet_driver five_gain_tuner 256
                         INT_MIN 0 99500000 trace_blocks) w' 8 524288)
        as (w1 & w2 & post & Hc & Hl & Hdone & _ & Hlog & _)
  end.
  - vm_compute. reflexivity.
  - cbn. tauto.
  - exists w1, w2, post. repeat split; assumption.
Defined.

(** * Part II: more of main.c

    The rest of this file covers code beside the places above: further
    properties of the gain search and of the RTL-SDR branch, then
    [parse_freq], the option loop, the start-up checks and the file branch
    of [main]. *)

From Stdlib Require String.
From Stdlib Require Strings.Byte.
Import String.StringSyntax.
Delimit Scope string_scope with string.
From Equations Require Import Equations.

(** * Further properties of the gain search *)

(** ** The order of float comparison

    [SFcompare] orders the numbers that are not NaN by sign, then exponent,
    then mantissa; the key of a number is that triple, made so that greater
    numbers have greater keys. *)

Definition float_key (x : spec_float) : option (Z * Z * Z) :=
  match x with
  | S754_nan => None
  | S754_infinity true => Some (-2, 0, 0)
  | S754_infinity false => Some (2, 0, 0)
  | S754_zero _ => Some (0, 0, 0)
  | S754_finite true m e => Some (-1, - e, Zneg m)
  | S754_finite false m e => Some (1, e, Zpos m)
  end.

Definition key_compare (a b : Z * Z * Z) : comparison :=
  let '(a1, a2, a3) := a in
  let '(b1, b2, b3) := b in
  match a1 ?= b1 with
  | Eq => match a2 ?= b2 with
          | Eq => a3 ?= b3
          | c => c
          end
  | c => c
  end.

Definition key_ge (a b : Z * Z * Z) : Prop :=
  let '(a1, a2, a3) := a in
  let '(b1, b2, b3) := b in
  a1 > b1 \/ (a1 = b1 /\ (a2 > b2 \/ (a2 = b2 /\ a3 >= b3))).

Lemma SFcompare_key (a b : spec_float) :
  SFcompare a b =
  match float_key a, float_key b with
  | Some ka, Some kb => Some (key_compare ka kb)
  | _, _ => None
  end.
Proof.
  destruct a as [sa | sa | | sa ma ea], b as [sb | sb | | sb mb eb];
    try destruct sa; try destruct sb; try reflexivity.
  cbn [SFcompare float_key key_compare]. f_equal.
  rewrite Z.compare_opp.
  change (Pos.compare_cont Eq ma mb) with (Pos.compare ma mb).
  rewrite (Z.compare_antisym ea eb).
  destruct (ea ?= eb); reflexivity.
Qed.

Lemma key_compare_ge (a b : Z * Z * Z) :
  key_ge a b <-> key_compare a b <> Lt.
Proof.
  destruct a as [[a1 a2] a3], b as [[b1 b2] b3]. unfold key_ge, key_compare.
  destruct (Z.compare_spec a1 b1); destruct (Z.compare_spec a2 b2);
    destruct (Z.compare_spec a3 b3);
    split; intros Hk; try congruence; try lia; try discriminate;
    exfalso; apply Hk; reflexivity.
Qed.

Lemma key_compare_eq (a b : Z * Z * Z) :
  key_compare a b = Eq <-> a = b.
Proof.
  destruct a as [[a1 a2] a3], b as [[b1 b2] b3]. unfold key_compare.
  destruct (Z.compare_spec a1 b1); destruct (Z.compare_spec a2 b2);
    destruct (Z.compare_spec a3 b3);
    split; intros Hk; try discriminate; try congruence;
    injection Hk; lia.
Qed.

Lemma float_ge_key (a b : float) :
  float_ge a b = true <->
  exists ka kb, float_key a = Some ka /\ float_key b = Some kb /\ key_ge ka kb.
Proof.
  unfold float_ge. rewrite SFcompare_key.
  destruct (float_key a) as [ka |], (float_key b) as [kb |].
  - split.
    + intros H. exists ka, kb. repeat split. apply key_compare_ge.
      destruct (key_compare ka kb); congruence.
    + intros (ka' & kb' & [= <-] & [= <-] & H). apply key_compare_ge in H.
      destruct (key_compare ka kb); congruence.
  - split; [discriminate | intros (? & ? & _ & ? & _); discriminate].
  - split; [discriminate | intros (? & ? & ? & _); discriminate].
  - split; [discriminate | intros (? & ? & ? & _); discriminate].
Qed.

Lemma float_eq_key (a b : float) :
  float_eq a b = true <->
  exists k, float_key a = Some k /\ float_key b = Some k.
Proof.
  unfold float_eq, SFeqb. rewrite SFcompare_key.
  destruct (float_key a) as [ka |], (float_key b) as [kb |].
  - split.
    + intros H. exists ka. split; [reflexivity |]. f_equal. symmetry.
      apply key_compare_eq. destruct (key_compare ka kb); congruence.
    + intros (k & Ha & Hb). assert (ka = kb) as -> by congruence.
      rewrite (proj2 (key_compare_eq kb kb) eq_refl). reflexivity.
  - split; [discriminate | intros (? & _ & ?); discriminate].
  - split; [discriminate | intros (? & ? & _); discriminate].
  - split; [discriminate | intros (? & ? & _); discriminate].
Qed.

Lemma key_ge_trans (a b c : Z * Z * Z) : key_ge a b -> key_ge b c -> key_ge a c.
Proof.
  destruct a as [[a1 a2] a3], b as [[b1 b2] b3], c as [[c1 c2] c3].
  unfold key_ge. lia.
Qed.

Lemma key_ge_antisym (a b : Z * Z * Z) : key_ge a b -> key_ge b a -> a = b.
Proof.
  destruct a as [[a1 a2] a3], b as [[b1 b2] b3].
  unfold key_ge. intros H1 H2. repeat f_equal; lia.
Qed.

Lemma key_ge_refl (a : Z * Z * Z) : key_ge a a.
Proof. destruct a as [[a1 a2] a3]. unfold key_ge. lia. Qed.

Lemma float_ge_trans (a b c : float) :
  float_ge a b = true -> float_ge b c = true -> float_ge a c = true.
Proof.
  rewrite !float_ge_key.
  intros (ka & kb & Ha & Hb & Hab) (kb' & kc & Hb' & Hc & Hbc).
  rewrite Hb in Hb'. injection Hb' as <-.
  exists ka, kc. repeat split; try assumption. eapply key_ge_trans; eauto.
Qed.

Lemma float_ge_antisym (a b : float) :
  float_ge a b = true -> float_ge b a = true -> float_eq a b = true.
Proof.
  rewrite !float_ge_key, float_eq_key.
  intros (ka & kb & Ha & Hb & Hab) (kb' & ka' & Hb' & Ha' & Hba).
  rewrite Hb in Hb'. injection Hb' as <-.
  rewrite Ha in Ha'. injection Ha' as <-.
  exists ka. split; [assumption |].
  rewrite Hb. f_equal. symmetry. apply key_ge_antisym; assumption.
Qed.

Lemma float_eq_sym (a b : float) : float_eq a b = true -> float_eq b a = true.
Proof.
  rewrite !float_eq_key. intros (k & Ha & Hb). exists k. split; assumption.
Qed.

(** A number that compares greater or equal to anything is equal to
    itself: it is no NaN. *)
Lemma float_ge_self (a b : float) : float_ge a b = true -> float_eq a a = true.
Proof.
  rewrite float_ge_key, float_eq_key. intros (ka & kb & Ha & _).
  exists ka. split; assumption.
Qed.

Lemma float_eq_ge_l (a b : float) : float_eq a b = true -> float_ge b a = true.
Proof. intros H. apply float_eq_ge, float_eq_sym, H. Qed.

Lemma float_ge_total (a b : float) :
  float_eq a a = true -> float_eq b b = true ->
  float_ge a b = true \/ float_ge b a = true.
Proof.
  rewrite !float_eq_key, !float_ge_key.
  intros (ka & Ha & _) (kb & Hb & _).
  assert (H : key_ge ka kb \/ key_ge kb ka).
  { destruct ka as [[a1 a2] a3], kb as [[b1 b2] b3]. unfold key_ge. lia. }
  destruct H; [left; exists ka, kb | right; exists kb, ka]; auto.
Qed.

(** ** The search keeps the peak

    [seen] are the samples taken so far, in order, the sample at position
    [i] being the one taken at table index [i]. The recorded best SNR is at
    least 0 (the initial value); no sample seen beats it, and one that
    matches it was taken at or before the recorded best index; it is the
    sample taken at that index, unless no sample has reached 0 yet. *)
Definition peak_inv (seen : list float) (s : statics) : Prop :=
  float_ge (best_snr s) float_zero = true /\
  (forall i x, nth_error seen i = Some x ->
               float_ge x (best_snr s) = true ->
               float_eq x (best_snr s) = true /\ Z.of_nat i <= best_gain s) /\
  (nth_error seen (Z.to_nat (best_gain s)) = Some (best_snr s) \/
   (best_gain s = 0 /\ best_snr s = float_zero /\
    forall x, In x seen -> float_ge x float_zero = false)).

Section PeakFacts.

Variable drv : driver.

Lemma peak_step (snr : float) (w : world) (r : Z) (w' : world)
    (seen : list float) :
  searching (mem w) ->
  gain_index (mem w) = Z.of_nat (length seen) ->
  peak_inv seen (mem w) ->
  after_active snr w r w' ->
  peak_inv (seen ++ [snr]) (mem w').
Proof.
  intros (_ & Hbest & _) Hgi (Hzero & Hmax & Hat) (_ & _ & Hupd & _).
  unfold peak_inv.
  destruct (float_ge snr (best_snr (mem w))) eqn:Hge;
    destruct Hupd as (-> & ->).
  - split; [eapply float_ge_trans; eauto |]. split.
    + intros i x Hnth Hx.
      destruct (Nat.lt_ge_cases i (length seen)) as [Hlt | Hle].
      * rewrite nth_error_app1 in Hnth by assumption.
        destruct (Hmax i x Hnth (float_ge_trans _ _ _ Hx Hge)) as (Heq & _).
        split; [| lia].
        apply float_ge_antisym; [exact Hx |].
        eapply float_ge_trans; [exact Hge | apply float_eq_ge_l; exact Heq].
      * rewrite nth_error_app2 in Hnth by assumption.
        destruct (i - length seen)%nat as [| k] eqn:Hk; cbn in Hnth.
        -- injection Hnth as <-. split; [eapply float_ge_self; eauto | lia].
        -- destruct k; discriminate.
    + left. rewrite Hgi, Nat2Z.id, nth_error_app2, Nat.sub_diag by lia.
      reflexivity.
  - split; [exact Hzero |]. split.
    + intros i x Hnth Hx.
      destruct (Nat.lt_ge_cases i (length seen)) as [Hlt | Hle].
      * rewrite nth_error_app1 in Hnth by assumption. eauto.
      * rewrite nth_error_app2 in Hnth by assumption.
        destruct (i - length seen)%nat as [| k] eqn:Hk; cbn in Hnth.
        -- injection Hnth as <-. congruence.
        -- destruct k; discriminate.
    + destruct Hat as [Hnth | (Hg0 & Hb0 & Hneg)].
      * left. rewrite nth_error_app1; [exact Hnth |].
        apply nth_error_Some. congruence.
      * right. repeat split; try assumption.
        intros x Hin. apply in_app_or in Hin.
        destruct Hin as [Hin | [<- | []]]; [auto |]. congruence.
Qed.

Lemma peak_run (snrs : list float) :
  forall seen w h w',
    searching (mem w) ->
    gain_index (mem w) = Z.of_nat (length seen) ->
    peak_inv seen (mem w) ->
    snr_feed drv snrs w = Ok h w' ->
    peak_inv (seen ++ firstn (length (visited h)) snrs) (mem w').
Proof.
  induction snrs as [| snr rest IH]; intros seen w h w' Hs Hgi Hinv Hrun.
  - injection Hrun as <- <-. cbn. rewrite app_nil_r. exact Hinv.
  - rewrite snr_feed_cons in Hrun.
    destruct (rtlsdr_snr_callback drv snr w) as [r w1 | | |] eqn:Hcb;
      try discriminate.
    pose proof (callback_active_inv drv snr w r w1 (searching_active _ Hs) Hcb)
      as Hafter.
    pose proof (peak_step snr w r w1 seen Hs Hgi Hinv Hafter) as Hinv1.
    destruct (after_active_searching snr w r w1 Hs Hafter)
      as [[-> Hs1] | [-> Hc1]].
    + destruct (snr_feed drv rest w1) as [h1 w2 | | |] eqn:Hfeed;
        try discriminate.
      injection Hrun as <- <-.
      rewrite (visited_cons_active _ _ _ (searching_active _ Hs)).
      cbn [length firstn].
      change (seen ++ snr :: firstn (length (visited h1)) rest)
        with (seen ++ [snr] ++ firstn (length (visited h1)) rest).
      rewrite app_assoc. apply (IH _ w1 h1 w2 Hs1); try assumption.
      destruct Hafter as (_ & _ & _ & _ & [(Hr & _) | (_ & _ & _ & Hgi1 & _)]);
        [discriminate |].
      rewrite Hgi1, Hgi, length_app. cbn [length]. lia.
    + unfold concluded in Hc1.
      rewrite (snr_feed_concluded drv rest w1 Hc1) in Hrun.
      injection Hrun as <- <-.
      rewrite (visited_cons_active _ _ _ (searching_active _ Hs)).
      rewrite (visited_idle _ _ Hc1). cbn [length firstn]. exact Hinv1.
Qed.

End PeakFacts.

(** X1. Over a table of 1..128 gains, when a run of the search has taken
    the samples [taken] (one per index visited): the recorded best SNR is at
    least every sample taken that is a number; a sample that is at least
    the recorded best equals it and was taken at or before the recorded
    best index, so the index recorded is the last one holding the peak;
    and the recorded best is the sample taken at the recorded index,
    unless no sample reached 0, when index 0 and SNR 0 are still recorded. *)
Theorem search_keeps_peak (drv : driver) (table : list Z) (log : list dev_cmd)
    (snrs : list float) (h : list invocation) (w' : world) :
  (1 <= length table <= GAIN_LIST_LEN)%nat ->
  snr_feed drv snrs (search_start table log) = Ok h w' ->
  let taken := firstn (length (visited h)) snrs in
  let best := best_snr (mem w') in
  (forall x, In x taken -> float_eq x x = true -> float_ge best x = true) /\
  (forall i x, nth_error taken i = Some x -> float_ge x best = true ->
               float_eq x best = true /\ Z.of_nat i <= best_gain (mem w')) /\
  (nth_error taken (Z.to_nat (best_gain (mem w'))) = Some best \/
   (best_gain (mem w') = 0 /\ best = float_zero /\
    forall x, In x taken -> float_ge x float_zero = false)).
Proof.
  intros Hn Hrun taken best.
  assert (Hinv : peak_inv ([] ++ taken) (mem w')).
  { apply (peak_run drv snrs [] (search_start table log) h w');
      [apply search_start_searching; exact Hn | reflexivity | | exact Hrun].
    split; [reflexivity |]. split.
    - intros i x Hnth. destruct i; discriminate.
    - right. repeat split. intros x []. }
  cbn [app] in Hinv. destruct Hinv as (Hzero & Hmax & Hat).
  split; [| split; assumption].
  intros x Hin Hnum.
  destruct (float_ge_total best x) as [Hge | Hle];
    [eapply float_ge_self; exact Hzero | exact Hnum | exact Hge |].
  apply In_nth_error in Hin. destruct Hin as (i & Hnth).
  destruct (Hmax i x Hnth Hle) as (Heq & _).
  apply float_eq_ge_l. exact Heq.
Qed.

Lemma search_keeps_peak_witness :
  exists h w',
    snr_feed quiet_driver trace_snrs (search_start five_gains []) = Ok h w' /\
    forall x, In x (firstn (length (visited h)) trace_snrs) ->
              float_eq x x = true -> float_ge (best_snr (mem w')) x = true.
Proof.
  eexists _, _. split; [vm_compute; reflexivity |].
  refine (proj1 (search_keeps_peak quiet_driver five_gains [] trace_snrs _ _ _ _)).
  - unfold GAIN_LIST_LEN. simpl. lia.
  - vm_compute. reflexivity.
Defined.

(** ** The tuner follows the cursor *)

(** The gain of the last [SetTunerGain] in a command log: the gain the
    tuner is left with. *)
Fixpoint last_gain (log : list dev_cmd) : option Z :=
  match log with
  | [] => None
  | c :: rest =>
      match last_gain rest with
      | Some g => Some g
      | None => match c with
                | SetTunerGain g => Some g
                | _ => None
                end
      end
  end.

(** The tuner has been given the table entry under the cursor. *)
Definition tuned (w : world) : Prop :=
  exists g, last_gain (issued w) = Some g /\
            gain_at (gain_list (mem w)) (gain_index (mem w)) = Some g.

(** A program that ends neither in [FATAL_EXIT] nor in a blocking read. *)
Definition returns {A} (p : prog A) : Prop :=
  forall w w', world_of (p w) = Some w' -> exists a, p w = Ok a w'.

(** A program that keeps an invariant of the world, however it ends. *)
Definition keeps {A} (I : world -> Prop) (p : prog A) : Prop :=
  forall w w', I w -> world_of (p w) = Some w' -> I w'.

Lemma last_gain_app (l l' : list dev_cmd) :
  last_gain (l ++ l') =
  match last_gain l' with
  | Some g => Some g
  | None => last_gain l
  end.
Proof.
  induction l as [| c l IH]; cbn [app last_gain].
  - destruct (last_gain l'); reflexivity.
  - rewrite IH. destruct (last_gain l'); reflexivity.
Qed.

Lemma returns_bind {A B} (p : prog A) (k : A -> prog B) :
  returns p -> (forall a, returns (k a)) -> returns (bind p k).
Proof.
  intros Hp Hk w w' Hw. unfold bind in *.
  destruct (p w) as [a w1 | w1 | w1 |] eqn:E.
  - exact (Hk a w1 w' Hw).
  - destruct (Hp w w1) as (a & Ha); [rewrite E; reflexivity | congruence].
  - destruct (Hp w w1) as (a & Ha); [rewrite E; reflexivity | congruence].
  - discriminate.
Qed.

Lemma returns_ok {A} (p : prog A) :
  (forall w, (exists a w', p w = Ok a w') \/ p w = Undefined) -> returns p.
Proof.
  intros H w w' Hw. destruct (H w) as [(a & w1 & E) | E]; rewrite E in *.
  - injection Hw as <-. eauto.
  - discriminate.
Qed.

Ltac returns_step :=
  first
    [ apply returns_bind; [| intros ?]
    | match goal with
      | |- returns (if ?b then _ else _) => destruct b
      end
    | apply returns_ok; intros ?;
      unfold ret, load, store, load_gain, int_add, call, undefined;
      solve [ left; eauto
            | right; reflexivity
            | match goal with
              | |- context [gain_at ?l ?i] => destruct (gain_at l i); eauto
              end
            | match goal with
              | |- context [in_int ?z] => destruct (in_int z); eauto
              end ] ].

Lemma returns_callback (drv : driver) (snr : float) :
  returns (rtlsdr_snr_callback drv snr).
Proof. unfold rtlsdr_snr_callback. repeat returns_step. Qed.

Lemma keeps_bind {A B} (I : world -> Prop) (p : prog A) (k : A -> prog B) :
  keeps I p -> (forall a, keeps I (k a)) -> keeps I (bind p k).
Proof.
  intros Hp Hk w w' HI Hw. unfold bind in Hw.
  destruct (p w) as [a w1 | w1 | w1 |] eqn:E.
  - apply (Hk a w1 w'); [| exact Hw]. apply (Hp w w1 HI). rewrite E. reflexivity.
  - apply (Hp w w' HI). rewrite E. exact Hw.
  - apply (Hp w w' HI). rewrite E. exact Hw.
  - discriminate.
Qed.

Lemma keeps_same {A} (I : world -> Prop) (p : prog A) :
  (forall w w', world_of (p w) = Some w' -> w' = w) -> keeps I p.
Proof. intros H w w' HI Hw. rewrite (H w w' Hw). exact HI. Qed.

Lemma keeps_ret {A} (I : world -> Prop) (a : A) : keeps I (ret a).
Proof. apply keeps_same. intros w w' [= <-]. reflexivity. Qed.

Lemma keeps_load {A} (I : world -> Prop) (f : statics -> A) : keeps I (load f).
Proof. apply keeps_same. intros w w' [= <-]. reflexivity. Qed.

Lemma keeps_fatal_if (I : world -> Prop) (b : bool) : keeps I (fatal_if b).
Proof.
  apply keeps_same. intros w w'. destruct b; intros [= <-]; reflexivity.
Qed.

Lemma keeps_blocked {A} (I : world -> Prop) : keeps I (@blocked A).
Proof. apply keeps_same. intros w w' [= <-]. reflexivity. Qed.

Section KeepsFacts.

Variable drv : driver.
Variable I : world -> Prop.

(** The invariant does not look at commands that set no gain. *)
Hypothesis I_log :
  forall w c, I w -> (forall g, c <> SetTunerGain g) ->
              I (mkWorld (mem w) (snr_cb w) (issued w ++ [c])).

Hypothesis I_callback :
  forall snr w r w', I w -> rtlsdr_snr_callback drv snr w = Ok r w' -> I w'.

Lemma keeps_call (c : dev_cmd) :
  (forall g, c <> SetTunerGain g) -> keeps I (call drv c).
Proof. intros Hc w w' HI [= <-]. apply I_log; assumption. Qed.

Lemma keeps_callback (snr : float) : keeps I (rtlsdr_snr_callback drv snr).
Proof.
  intros w w' HI Hw. destruct (returns_callback drv snr w w' Hw) as (r & Hr).
  exact (I_callback snr w r w' HI Hr).
Qed.

Lemma keeps_snr_feed (snrs : list float) : keeps I (snr_feed drv snrs).
Proof.
  induction snrs as [| snr rest IH]; cbn [snr_feed].
  - apply keeps_ret.
  - apply keeps_bind; [apply keeps_load | intros s].
    apply keeps_bind; [apply keeps_callback | intros r].
    apply keeps_bind; [exact IH | intros h; apply keeps_ret].
Qed.

Lemma keeps_input_cb (snrs : list float) : keeps I (input_cb drv snrs).
Proof.
  intros w w' HI. unfold input_cb. destruct (snr_cb w).
  - intros Hw.
    exact (keeps_bind I _ _ (keeps_snr_feed snrs) (fun h => keeps_ret I tt)
             w w' HI Hw).
  - intros [= <-]. exact HI.
Qed.

Lemma keeps_sync_loop (n : Z) (blocks : list (list float)) :
  keeps I (main_sync_loop drv n blocks).
Proof.
  induction blocks as [| snrs rest IH]; cbn [main_sync_loop].
  - apply keeps_bind; [apply keeps_load | intros gc].
    destruct (gc =? 0); [apply keeps_ret | apply keeps_blocked].
  - apply keeps_bind; [apply keeps_load | intros gc].
    destruct (gc =? 0); [apply keeps_ret |].
    apply keeps_bind; [apply keeps_call; discriminate | intros err].
    apply keeps_bind; [apply keeps_fatal_if | intros _].
    apply keeps_bind; [apply keeps_input_cb | intros _; exact IH].
Qed.

Lemma keeps_stream : keeps I (main_stream drv).
Proof.
  unfold main_stream.
  apply keeps_bind; [apply keeps_call; discriminate | intros err].
  apply keeps_bind; [apply keeps_fatal_if | intros _].
  apply keeps_bind; [apply keeps_call; discriminate | intros err2].
  apply keeps_bind; [apply keeps_fatal_if | intros _; apply keeps_ret].
Qed.

End KeepsFacts.

Lemma tuned_log (w : world) (c : dev_cmd) :
  tuned w -> (forall g, c <> SetTunerGain g) ->
  tuned (mkWorld (mem w) (snr_cb w) (issued w ++ [c])).
Proof.
  intros (g & Hlast & Hat) Hc. exists g. cbn [mem issued]. split; [| exact Hat].
  rewrite last_gain_app. cbn [last_gain].
  destruct c; try exact Hlast. exfalso. eapply Hc. reflexivity.
Qed.

Lemma tuned_callback (drv : driver) (snr : float) (w : world) (r : Z)
    (w' : world) :
  tuned w -> rtlsdr_snr_callback drv snr w = Ok r w' -> tuned w'.
Proof.
  intros Ht Hrun.
  destruct (Z.eq_dec (gain_count (mem w)) 0) as [Hz | Hnz].
  - rewrite (callback_idle drv snr w Hz) in Hrun. injection Hrun as _ <-.
    exact Ht.
  - destruct (callback_active_inv drv snr w r w' Hnz Hrun)
      as (_ & _ & _ & (g & Hg & Hlog) & _).
    exists g. split; [| exact Hg].
    rewrite Hlog, last_gain_app. reflexivity.
Qed.

(** X2. The read loop keeps the tuner on the cursor: if, when the loop is
    entered, the last gain set on the tuner is the table entry under the
    cursor, then so it is whenever the loop stops, be it by leaving the
    loop, by a fatal read error or blocked in a read, for any blocks of
    samples. *)
Theorem sync_loop_keeps_tuned (drv : driver) (n : Z)
    (blocks : list (list float)) (w w' : world) :
  tuned w ->
  world_of (main_sync_loop drv n blocks w) = Some w' ->
  tuned w'.
Proof.
  intros Ht Hw.
  exact (keeps_sync_loop drv tuned tuned_log (tuned_callback drv) n blocks
           w w' Ht Hw).
Qed.

(** The world in which [main] enters the read loop over [five_gains]. *)
Definition w_loop5 : world :=
  search_start five_gains [GetTunerGains; SetTunerGain 0; ResetBuffer].

Lemma sync_loop_keeps_tuned_witness :
  tuned w_loop5 /\
  exists w',
    world_of (main_sync_loop quiet_driver 256 trace_blocks w_loop5) = Some w' /\
    tuned w'.
Proof.
  assert (Ht : tuned w_loop5) by (exists 0; split; reflexivity).
  split; [exact Ht |].
  eexists. split; [vm_compute; reflexivity |].
  apply (sync_loop_keeps_tuned quiet_driver 256 trace_blocks w_loop5);
    [exact Ht | vm_compute; reflexivity].
Defined.

(** ** The configuration phase *)

(** The commands that open and tune the device, lines 395-404. *)
Definition config_log (ppm_error frequency : Z) : list dev_cmd :=
  [Open 0; SetSampleRate 1488375; SetTunerGainMode 1;
   SetFreqCorrection ppm_error; SetCenterFreq frequency].

(** The driver accepted every command of [config_log]; for the frequency
    correction the status -2 counts as accepted. *)
Definition config_accepted (drv : driver) (ppm_error frequency : Z) : Prop :=
  drv [] (Open 0) = 0 /\
  drv [Open 0] (SetSampleRate 1488375) = 0 /\
  drv [Open 0; SetSampleRate 1488375] (SetTunerGainMode 1) = 0 /\
  (drv [Open 0; SetSampleRate 1488375; SetTunerGainMode 1]
       (SetFreqCorrection ppm_error) = 0 \/
   drv [Open 0; SetSampleRate 1488375; SetTunerGainMode 1]
       (SetFreqCorrection ppm_error) = -2) /\
  drv [Open 0; SetSampleRate 1488375; SetTunerGainMode 1;
       SetFreqCorrection ppm_error] (SetCenterFreq frequency) = 0.

(** Commands that read no samples and do not close the device. *)
Definition quiet_cmd (c : dev_cmd) : Prop :=
  match c with
  | ReadSync _ | ReadAsync _ _ | Close => False
  | _ => True
  end.

Lemma nonzero_false (z : Z) : nonzero z = false -> z = 0.
Proof.
  unfold nonzero. intros H. apply negb_false_iff in H. apply Z.eqb_eq, H.
Qed.

Lemma nonzero_true (z : Z) : nonzero z = true -> z <> 0.
Proof.
  unfold nonzero. intros H. apply negb_true_iff in H. apply Z.eqb_neq, H.
Qed.

Section ConfigFacts.

Variable drv : driver.
Variable tuner : tuner_gains.

Lemma emits_configure_quiet (gain ppm_error frequency : Z) :
  emits quiet_cmd (main_configure drv tuner gain ppm_error frequency).
Proof.
  unfold main_configure, main_gain_setup, rtlsdr_get_tuner_gains.
  repeat emits_step.
Qed.

Lemma main_configure_ok (gain ppm_error frequency : Z) (w1 : world) :
  main_configure drv tuner gain ppm_error frequency world_init = Ok tt w1 ->
  config_accepted drv ppm_error frequency /\
  exists w0,
    main_gain_setup drv tuner gain
      (mkWorld statics_init false (config_log ppm_error frequency)) = Ok tt w0 /\
    drv (issued w0) ResetBuffer = 0 /\
    w1 = mkWorld (mem w0) (snr_cb w0) (issued w0 ++ [ResetBuffer]).
Proof.
  unfold main_configure, config_accepted, config_log.
  unfold bind at 1 2, call, fatal_if, fatal_exit, ret, world_init.
  cbn [mem snr_cb issued app].
  destruct (nonzero (drv [] (Open 0))) eqn:E1; [discriminate |].
  unfold bind at 1 2. cbn [mem snr_cb issued app].
  destruct (nonzero (drv [Open 0] _)) eqn:E2; [discriminate |].
  unfold bind at 1 2. cbn [mem snr_cb issued app].
  destruct (nonzero (drv [Open 0; SetSampleRate 1488375] _)) eqn:E3;
    [discriminate |].
  unfold bind at 1 2. cbn [mem snr_cb issued app].
  destruct (nonzero (drv [Open 0; SetSampleRate 1488375; SetTunerGainMode 1] _)
            && _) eqn:E4; [discriminate |].
  unfold bind at 1 2. cbn [mem snr_cb issued app].
  destruct (nonzero (drv [Open 0; SetSampleRate 1488375; SetTunerGainMode 1;
                          SetFreqCorrection ppm_error] _)) eqn:E5;
    [discriminate |].
  unfold bind at 1.
  destruct (main_gain_setup drv tuner gain _) as [[] w0 | | |] eqn:Es;
    try discriminate.
  unfold bind. cbn [mem snr_cb issued].
  destruct (nonzero (drv (issued w0) ResetBuffer)) eqn:E6; [discriminate |].
  intros [= <-].
  apply nonzero_false in E1, E2, E3, E5, E6.
  repeat split; try assumption.
  - apply andb_false_iff in E4. destruct E4 as [E4 | E4].
    + left. apply nonzero_false, E4.
    + right. apply negb_false_iff in E4. apply Z.eqb_eq, E4.
  - exists w0. repeat split; assumption.
Qed.

End ConfigFacts.

Lemma bind_ok {A B} (p : prog A) (k : A -> prog B) (w : world) (b : B)
    (w' : world) :
  bind p k w = Ok b w' -> exists a w1, p w = Ok a w1 /\ k a w1 = Ok b w'.
Proof.
  unfold bind. destruct (p w) as [a w1 | | |]; try discriminate. eauto.
Qed.

Lemma main_stream_ok (drv : driver) (w : world) (r : Z) (w' : world) :
  main_stream drv w = Ok r w' ->
  r = 0 /\
  w' = mkWorld (mem w) (snr_cb w)
         (issued w ++ [ReadAsync RADIO_BUFCNT RADIO_BUFFER; Close]).
Proof.
  unfold main_stream. intros H. prog_unfold. cbn [mem snr_cb issued] in H.
  destruct (nonzero (drv (issued w) _)); [discriminate |].
  unfold ret in H. cbn [mem snr_cb issued] in H.
  destruct (nonzero _); [discriminate |].
  injection H as <- <-. rewrite <- app_assoc. split; reflexivity.
Qed.

(** ** Runs of the RTL-SDR path *)

Section PathFacts.

Variable drv : driver.
Variable tuner : tuner_gains.
Variable SNR_FFT_COUNT : Z.

Lemma main_rtlsdr_ok (gain ppm_error frequency : Z)
    (blocks : list (list float)) (r : Z) (w' : world) :
  main_rtlsdr drv tuner SNR_FFT_COUNT gain ppm_error frequency blocks
    world_init = Ok r w' ->
  exists w1 w2,
    main_configure drv tuner gain ppm_error frequency world_init = Ok tt w1 /\
    main_sync_loop drv SNR_FFT_COUNT blocks w1 = Ok tt w2 /\
    main_stream drv w2 = Ok r w'.
Proof.
  unfold main_rtlsdr. intros H.
  apply bind_ok in H. destruct H as ([] & w1 & Hc & H).
  apply bind_ok in H. destruct H as ([] & w2 & Hl & H).
  eauto.
Qed.

(** X3. No sample is read from a tuner whose configuration failed: if a
    synchronous read, an asynchronous read or a close appears in the
    command log of the RTL-SDR path, the driver accepted the five
    configuration commands (status 0, or -2 for the frequency correction)
    and the whole configuration phase, gain setup and buffer reset
    included, ran to completion. *)
Theorem reads_need_configuration (gain ppm_error frequency : Z)
    (blocks : list (list float)) (w' : world) (c : dev_cmd) :
  world_of (main_rtlsdr drv tuner SNR_FFT_COUNT gain ppm_error frequency
              blocks world_init) = Some w' ->
  In c (issued w') ->
  ~ quiet_cmd c ->
  config_accepted drv ppm_error frequency /\
  exists w1,
    main_configure drv tuner gain ppm_error frequency world_init = Ok tt w1.
Proof.
  intros Hw Hin Hc. unfold main_rtlsdr in Hw. unfold bind at 1 in Hw.
  pose proof (emits_configure_quiet drv tuner gain ppm_error frequency) as He.
  destruct (main_configure drv tuner gain ppm_error frequency world_init)
    as [[] w1 | w1 | w1 |] eqn:Ec; cbn [world_of] in Hw.
  - split; [| eauto]. apply (main_configure_ok drv tuner _ _ _ w1 Ec).
  - injection Hw as <-. exfalso. apply Hc.
    assert (Hall : Forall quiet_cmd (issued w1))
      by (apply (emits_from_empty _ _ _ He); rewrite Ec; reflexivity).
    rewrite Forall_forall in Hall. auto.
  - injection Hw as <-. exfalso. apply Hc.
    assert (Hall : Forall quiet_cmd (issued w1))
      by (apply (emits_from_empty _ _ _ He); rewrite Ec; reflexivity).
    rewrite Forall_forall in Hall. auto.
  - discriminate.
Qed.

(** X4. With an explicit gain the path, when it returns, has issued
    exactly the configuration commands, the explicit gain, the buffer
    reset, the asynchronous read and the close: there is no synchronous
    read whatever samples are on offer, and the statics are as
    initialised. *)
Theorem explicit_gain_run (gain ppm_error frequency : Z)
    (blocks : list (list float)) (r : Z) (w' : world) :
  gain <> INT_MIN ->
  main_rtlsdr drv tuner SNR_FFT_COUNT gain ppm_error frequency blocks
    world_init = Ok r w' ->
  r = 0 /\
  mem w' = statics_init /\
  snr_cb w' = false /\
  issued w' =
    config_log ppm_error frequency ++
    [SetTunerGain gain; ResetBuffer;
     ReadAsync RADIO_BUFCNT RADIO_BUFFER; Close].
Proof.
  intros Hexp Hrun.
  destruct (main_rtlsdr_ok _ _ _ _ _ _ Hrun) as (w1 & w2 & Hc & Hl & Hs).
  destruct (main_configure_ok drv tuner _ _ _ _ Hc)
    as (_ & w0 & Hsetup & _ & ->).
  unfold main_gain_setup in Hsetup.
  apply Z.eqb_neq in Hexp. rewrite Hexp in Hsetup.
  unfold bind, call, fatal_if, fatal_exit, ret in Hsetup.
  cbn [mem snr_cb issued] in Hsetup.
  destruct (nonzero _); [discriminate |]. injection Hsetup as <-.
  rewrite sync_loop_done in Hl by reflexivity. injection Hl as <-.
  apply main_stream_ok in Hs. destruct Hs as (-> & ->).
  unfold config_log. cbn. repeat split.
Qed.

(** X5. When no gain is given and the tuner reports an empty gain list
    (return value 0), the path, when it returns, has queried the gains and
    gone straight to the asynchronous read: no gain is ever set on the
    tuner, and no callback is registered. *)
Theorem empty_gain_list_run (ppm_error frequency : Z)
    (blocks : list (list float)) (r : Z) (w' : world) :
  (length (tg_written tuner) <= GAIN_LIST_LEN)%nat ->
  tg_ret tuner = 0 ->
  main_rtlsdr drv tuner SNR_FFT_COUNT INT_MIN ppm_error frequency blocks
    world_init = Ok r w' ->
  r = 0 /\
  snr_cb w' = false /\
  last_gain (issued w') = None /\
  issued w' =
    config_log ppm_error frequency ++
    [GetTunerGains; ResetBuffer; ReadAsync RADIO_BUFCNT RADIO_BUFFER; Close].
Proof.
  intros Hlen Hret Hrun.
  destruct (main_rtlsdr_ok _ _ _ _ _ _ Hrun) as (w1 & w2 & Hc & Hl & Hs).
  destruct (main_configure_ok drv tuner _ _ _ _ Hc)
    as (_ & w0 & Hsetup & _ & ->).
  destruct (gain_setup_cases drv tuner INT_MIN
              (config_log ppm_error frequency) Hlen)
    as (w0' & Hw0 & Hcase).
  rewrite Hsetup in Hw0. injection Hw0 as <-.
  destruct Hcase as [(_ & Hpos & _) | [(_ & _ & ->) | (Hexp & _)]];
    [lia | | contradiction].
  rewrite sync_loop_done in Hl by (cbn; exact Hret). injection Hl as <-.
  apply main_stream_ok in Hs. destruct Hs as (-> & ->).
  unfold config_log. cbn. repeat split.
Qed.

(** A read loop that no callback can end: the count is negative and no
    callback is registered. *)
Definition stuck (w : world) : Prop :=
  gain_count (mem w) < 0 /\ snr_cb w = false.

Lemma sync_loop_stuck (blocks : list (list float)) :
  forall w, stuck w ->
  (exists w', main_sync_loop drv SNR_FFT_COUNT blocks w = Blocked w') \/
  (exists w', main_sync_loop drv SNR_FFT_COUNT blocks w = Fatal w').
Proof.
  induction blocks as [| snrs rest IH]; intros w (Hneg & Hcb).
  - left. exists w. apply sync_loop_starved. lia.
  - rewrite sync_loop_cons by lia.
    unfold bind, call, fatal_if, fatal_exit, ret, input_cb.
    cbn [snr_cb mem issued].
    destruct (nonzero (drv (issued w) (ReadSync (128 * SNR_FFT_COUNT)))).
    { right. eexists. reflexivity. }
    rewrite Hcb. apply IH. split; [exact Hneg | reflexivity].
Qed.

(** X6. When no gain is given and the tuner answers the gain query with a
    negative value, the path never returns and never issues the
    asynchronous read: with samples on offer it goes on reading
    synchronously until it is blocked in a read or a read fails. *)
Theorem negative_gain_count_never_streams (ppm_error frequency : Z)
    (blocks : list (list float)) :
  (length (tg_written tuner) <= GAIN_LIST_LEN)%nat ->
  tg_ret tuner < 0 ->
  (forall r w',
     main_rtlsdr drv tuner SNR_FFT_COUNT INT_MIN ppm_error frequency blocks
       world_init <> Ok r w') /\
  (forall w' a b,
     world_of (main_rtlsdr drv tuner SNR_FFT_COUNT INT_MIN ppm_error frequency
                 blocks world_init) = Some w' ->
     ~ In (ReadAsync a b) (issued w')).
Proof.
  intros Hlen Hret.
  pose proof (emits_configure drv tuner INT_MIN ppm_error frequency) as He.
  pose proof (emits_sync_loop drv SNR_FFT_COUNT blocks) as Hel.
  unfold main_rtlsdr. unfold bind at 1 3.
  destruct (main_configure drv tuner INT_MIN ppm_error frequency world_init)
    as [[] w1 | w1 | w1 |] eqn:Ec.
  - assert (H1 : Forall setup_cmd (issued w1))
      by (apply (emits_from_empty _ _ _ He); rewrite Ec; reflexivity).
    assert (Hstuck : stuck w1).
    { destruct (main_configure_ok drv tuner _ _ _ _ Ec)
        as (_ & w0 & Hsetup & _ & ->).
      destruct (gain_setup_cases drv tuner INT_MIN
                  (config_log ppm_error frequency) Hlen)
        as (w0' & Hw0 & Hcase).
      rewrite Hsetup in Hw0. injection Hw0 as <-.
      destruct Hcase as [(_ & Hpos & _) | [(_ & _ & ->) | (Hexp & _)]];
        [lia | | contradiction].
      split; [exact Hret | reflexivity]. }
    unfold bind.
    destruct (sync_loop_stuck blocks w1 Hstuck) as [(w3 & E) | (w3 & E)];
      rewrite E; (split; [discriminate |]);
      intros w' a b [= <-]; apply setup_cmd_not_async;
      apply (emits_extends _ _ w1 _ Hel H1); rewrite E; reflexivity.
  - split; [discriminate |]. intros w' a b [= <-].
    apply setup_cmd_not_async.
    apply (emits_from_empty _ _ _ He). rewrite Ec. reflexivity.
  - split; [discriminate |]. intros w' a b [= <-].
    apply setup_cmd_not_async.
    apply (emits_from_empty _ _ _ He). rewrite Ec. reflexivity.
  - split; [discriminate | discriminate].
Qed.

End PathFacts.

(** ** The gain the tuner is left with *)

(** [gain_list] after a tuner wrote [table] to its front. *)
Definition fresh_table (table : list Z) : list Z :=
  table ++ skipn (length table) (repeat 0 GAIN_LIST_LEN).

(** The invariant of the read loop over [table]: the array holds the
    table, the tuner is on the cursor, and either the search is active over
    the whole table or it has concluded with the cursor on the recorded
    best index, an index of the table. *)
Definition search_inv (table : list Z) (w : world) : Prop :=
  tuned w /\
  gain_list (mem w) = fresh_table table /\
  ((searching (mem w) /\ gain_count (mem w) = Z.of_nat (length table))
   \/
   (concluded (mem w) /\ gain_index (mem w) = best_gain (mem w) /\
    0 <= best_gain (mem w) < Z.of_nat (length table))).

Lemma search_inv_log (table : list Z) (w : world) (c : dev_cmd) :
  search_inv table w -> (forall g, c <> SetTunerGain g) ->
  search_inv table (mkWorld (mem w) (snr_cb w) (issued w ++ [c])).
Proof.
  intros (Ht & Hgl & Hcase) Hc.
  split; [apply tuned_log; assumption | split; assumption].
Qed.

Lemma search_inv_callback (drv : driver) (table : list Z) (snr : float)
    (w : world) (r : Z) (w' : world) :
  search_inv table w -> rtlsdr_snr_callback drv snr w = Ok r w' ->
  search_inv table w'.
Proof.
  intros (Ht & Hgl & Hcase) Hrun.
  pose proof (tuned_callback drv snr w r w' Ht Hrun) as Ht'.
  destruct Hcase as [(Hs & Hn) | (Hc & Hrest)].
  - pose proof (callback_active_inv drv snr w r w' (searching_active _ Hs) Hrun)
      as Hafter.
    destruct (after_active_searching snr w r w' Hs Hafter)
      as [(-> & Hs') | (-> & Hc')];
      destruct Hafter as (Hgl' & _ & Hupd & _ & Hend);
      (split; [exact Ht' | split; [congruence |]]).
    + left. split; [exact Hs' |].
      destruct Hend as [(Hr & _) | (_ & _ & _ & _ & Hgc)];
        [discriminate | congruence].
    + right. split; [exact Hc' |].
      destruct Hend as [(_ & _ & Hgi & _) | (Hr & _)]; [| discriminate].
      split; [exact Hgi |].
      destruct Hs as (_ & Hb & Hi).
      destruct (float_ge snr (best_snr (mem w))); lia.
  - rewrite (callback_idle drv snr w Hc) in Hrun. injection Hrun as _ <-.
    split; [exact Ht | split; [exact Hgl | right; split; assumption]].
Qed.

Lemma fresh_table_at (table : list Z) (i g : Z) :
  0 <= i < Z.of_nat (length table) ->
  gain_at (fresh_table table) i = Some g ->
  nth_error table (Z.to_nat i) = Some g.
Proof.
  intros Hi. unfold gain_at, fresh_table.
  destruct (Z.ltb_spec i 0); [lia |].
  rewrite nth_error_app1 by lia. auto.
Qed.

(** X7. In a run of the RTL-SDR path with no gain given and a tuner that
    reports its n gains, 1 <= n <= 128: when the path returns, the search
    has concluded with the cursor on the recorded best index, and the last
    gain set on the tuner, the one in force for the asynchronous read, is
    the tuner's gain at that index. *)
Theorem stream_uses_best_gain (drv : driver) (gains : list Z)
    (SNR_FFT_COUNT ppm_error frequency : Z) (blocks : list (list float))
    (r : Z) (w' : world) :
  (1 <= length gains <= GAIN_LIST_LEN)%nat ->
  main_rtlsdr drv (mkTunerGains (Z.of_nat (length gains)) gains) SNR_FFT_COUNT
    INT_MIN ppm_error frequency blocks world_init = Ok r w' ->
  concluded (mem w') /\
  gain_index (mem w') = best_gain (mem w') /\
  exists g,
    nth_error gains (Z.to_nat (best_gain (mem w'))) = Some g /\
    last_gain (issued w') = Some g.
Proof.
  intros Hn Hrun.
  destruct (main_rtlsdr_ok _ _ _ _ _ _ _ _ _ Hrun) as (w1 & w2 & Hc & Hl & Hs).
  destruct (main_configure_ok _ _ _ _ _ _ Hc) as (_ & w0 & Hsetup & _ & ->).
  destruct (gain_setup_cases drv (mkTunerGains (Z.of_nat (length gains)) gains)
              INT_MIN (config_log ppm_error frequency))
    as (w0' & Hw0 & Hcase); [cbn; lia |].
  rewrite Hsetup in Hw0. injection Hw0 as <-.
  cbn [tg_ret tg_written] in Hcase.
  destruct Hcase as [(_ & _ & g0 & Hg0 & ->) | [(_ & Hnone & _) | (Hexp & _)]];
    [| lia | contradiction].
  cbn [mem snr_cb issued] in Hl.
  assert (Hinv1 : search_inv gains
            (search_start gains
               ((config_log ppm_error frequency ++
                 [GetTunerGains; SetTunerGain g0]) ++ [ResetBuffer]))).
  { split; [| split; [reflexivity |]].
    - exists g0. split; [| exact Hg0]. cbn [search_start issued].
      rewrite !last_gain_app. reflexivity.
    - left. split; [apply search_start_searching; exact Hn | reflexivity]. }
  assert (Hinv2 : search_inv gains w2).
  { apply (keeps_sync_loop drv (search_inv gains) (search_inv_log gains)
             (fun snr w r w' => search_inv_callback drv gains snr w r w')
             SNR_FFT_COUNT blocks _ w2 Hinv1).
    unfold search_start. rewrite Hl. reflexivity. }
  pose proof (sync_loop_exit _ _ _ _ _ Hl) as Hdone.
  apply main_stream_ok in Hs. destruct Hs as (-> & ->).
  destruct Hinv2 as ((g & Hlast & Hat) & Hgl & [(Hs & _) | (_ & Hgi & Hb)]).
  { exfalso. apply (searching_active _ Hs). exact Hdone. }
  cbn [mem issued]. split; [exact Hdone |]. split; [exact Hgi |].
  exists g. split.
  - apply fresh_table_at; [exact Hb |]. rewrite <- Hgl, <- Hgi. exact Hat.
  - rewrite last_gain_app. cbn [last_gain]. exact Hlast.
Qed.

Lemma stream_uses_best_gain_witness :
  exists w',
    main_rtlsdr quiet_driver five_gain_tuner 256 INT_MIN 0 99500000
      trace_blocks world_init = Ok 0 w' /\
    last_gain (issued w') = Some 14 /\
    exists g,
      nth_error five_gains (Z.to_nat (best_gain (mem w'))) = Some g /\
      last_gain (issued w') = Some g.
Proof.
  eexists. split; [vm_compute; reflexivity |].
  split; [reflexivity |].
  refine (proj2 (proj2 (stream_uses_best_gain quiet_driver five_gains 256 0
                          99500000 trace_blocks 0 _ _ _))).
  - unfold GAIN_LIST_LEN. simpl. lia.
  - vm_compute. reflexivity.
Defined.

Lemma reads_need_configuration_witness :
  exists w',
    world_of (main_rtlsdr quiet_driver five_gain_tuner 256 INT_MIN 0 99500000
                trace_blocks world_init) = Some w' /\
    In (ReadSync (128 * 256)) (issued w') /\
    ~ quiet_cmd (ReadSync (128 * 256)) /\
    config_accepted quiet_driver 0 99500000.
Proof.
  eexists. split; [vm_compute; reflexivity |].
  assert (Hq : ~ quiet_cmd (ReadSync (128 * 256))) by (intros H; exact H).
  split; [cbn; tauto |]. split; [exact Hq |].
  refine (proj1 (reads_need_configuration quiet_driver five_gain_tuner 256
                   INT_MIN 0 99500000 trace_blocks _ (ReadSync (128 * 256))
                   _ _ Hq)).
  - vm_compute. reflexivity.
  - cbn. tauto.
Defined.

Lemma explicit_gain_run_witness :
  300 <> INT_MIN /\
  exists w',
    main_rtlsdr quiet_driver five_gain_tuner 256 300 0 99500000 trace_blocks
      world_init = Ok 0 w' /\
    issued w' =
      config_log 0 99500000 ++
      [SetTunerGain 300; ResetBuffer; ReadAsync RADIO_BUFCNT RADIO_BUFFER; Close].
Proof.
  assert (Hne : 300 <> INT_MIN) by (vm_compute; discriminate).
  split; [exact Hne |].
  eexists. split; [vm_compute; reflexivity |].
  refine (proj2 (proj2 (proj2 (explicit_gain_run quiet_driver five_gain_tuner
                                 256 300 0 99500000 trace_blocks 0 _ Hne _)))).
  vm_compute. reflexivity.
Defined.

(** A tuner that reports no gains, and one whose gain query fails. *)
Definition no_gain_tuner : tuner_gains := mkTunerGains 0 [].
Definition failing_tuner : tuner_gains := mkTunerGains (-1) [].

Lemma empty_gain_list_run_witness :
  (length (tg_written no_gain_tuner) <= GAIN_LIST_LEN)%nat /\
  tg_ret no_gain_tuner = 0 /\
  exists w',
    main_rtlsdr quiet_driver no_gain_tuner 256 INT_MIN 0 99500000 trace_blocks
      world_init = Ok 0 w' /\
    last_gain (issued w') = None.
Proof.
  assert (Hlen : (length (tg_written no_gain_tuner) <= GAIN_LIST_LEN)%nat)
    by (unfold GAIN_LIST_LEN; simpl; lia).
  split; [exact Hlen |]. split; [reflexivity |].
  eexists. split; [vm_compute; reflexivity |].
  refine (proj1 (proj2 (proj2 (empty_gain_list_run quiet_driver no_gain_tuner
                                 256 0 99500000 trace_blocks 0 _ Hlen
                                 eq_refl _)))).
  vm_compute. reflexivity.
Defined.

Lemma negative_gain_count_never_streams_witness :
  (length (tg_written failing_tuner) <= GAIN_LIST_LEN)%nat /\
  tg_ret failing_tuner < 0 /\
  forall r w',
    main_rtlsdr quiet_driver failing_tuner 256 INT_MIN 0 99500000 trace_blocks
      world_init <> Ok r w'.
Proof.
  assert (Hlen : (length (tg_written failing_tuner) <= GAIN_LIST_LEN)%nat)
    by (unfold GAIN_LIST_LEN; simpl; lia).
  assert (Hneg : tg_ret failing_tuner < 0) by reflexivity.
  split; [exact Hlen |]. split; [exact Hneg |].
  exact (proj1 (negative_gain_count_never_streams quiet_driver failing_tuner
                  256 0 99500000 trace_blocks Hlen Hneg)).
Defined.

(** ** The search depends on the samples only *)

(** What one sample does to the statics, as a function of the statics and
    the sample alone. *)
Definition search_step (s : statics) (snr : float) : statics :=
  if gain_count s =? 0 then s
  else
    let better := float_ge snr (best_snr s) in
    let bg := if better then gain_index s else best_gain s in
    let bs := if better then snr else best_snr s in
    if (gain_index s + 1 >=? gain_count s) || below_half snr bs
    then mkStatics (gain_list s) bg 0 bg bs
    else mkStatics (gain_list s) (gain_index s + 1) (gain_count s) bg bs.

Lemma search_step_concluded (snrs : list float) (s : statics) :
  gain_count s = 0 -> fold_left search_step snrs s = s.
Proof.
  intros Hz. induction snrs as [| snr rest IH]; [reflexivity |].
  cbn [fold_left]. unfold search_step at 2. rewrite Hz. exact IH.
Qed.

Section StepFacts.

Variable drv : driver.

Lemma callback_mem (snr : float) (w : world) (r : Z) (w' : world) :
  rtlsdr_snr_callback drv snr w = Ok r w' ->
  mem w' = search_step (mem w) snr.
Proof.
  intros Hrun. unfold search_step.
  destruct (Z.eqb_spec (gain_count (mem w)) 0) as [Hz | Hnz].
  - rewrite (callback_idle drv snr w Hz) in Hrun. injection Hrun as _ <-.
    reflexivity.
  - destruct (callback_active_inv drv snr w r w' Hnz Hrun)
      as (Hgl & _ & Hupd & _ & Hend).
    destruct (mem w') as [gl' gi' gc' bg' bs'].
    cbn [gain_list gain_index gain_count best_gain best_snr] in *.
    assert (Hbest :
      bg' = (if float_ge snr (best_snr (mem w))
             then gain_index (mem w) else best_gain (mem w)) /\
      bs' = (if float_ge snr (best_snr (mem w))
             then snr else best_snr (mem w))).
    { destruct (float_ge snr (best_snr (mem w))); exact Hupd. }
    destruct Hbest as (Hbg & Hbs). rewrite <- Hbg, <- Hbs.
    destruct Hend as [(_ & Hwhy & Hgi & Hgc) | (_ & Hmore & Hhalf & Hgi & Hgc)].
    + assert (Hstop : (gain_index (mem w) + 1 >=? gain_count (mem w))
                      || below_half snr bs' = true).
      { apply orb_true_iff. destruct Hwhy as [Hlast | Hlow]; [left | right; exact Hlow].
        apply Z.geb_le. lia. }
      rewrite Hstop. congruence.
    + assert (Hgo : (gain_index (mem w) + 1 >=? gain_count (mem w))
                    || below_half snr bs' = false).
      { apply orb_false_iff. split; [| exact Hhalf].
        destruct (Z.geb_spec (gain_index (mem w) + 1) (gain_count (mem w)));
          [lia | reflexivity]. }
      rewrite Hgo. congruence.
Qed.

Lemma snr_feed_mem (snrs : list float) :
  forall w h w', snr_feed drv snrs w = Ok h w' ->
  mem w' = fold_left search_step snrs (mem w) /\ snr_cb w' = snr_cb w.
Proof.
  induction snrs as [| snr rest IH]; intros w h w' Hrun.
  - injection Hrun as _ <-. split; reflexivity.
  - rewrite snr_feed_cons in Hrun.
    destruct (rtlsdr_snr_callback drv snr w) as [r w1 | | |] eqn:Hcb;
      try discriminate.
    destruct (snr_feed drv rest w1) as [h1 w2 | | |] eqn:Hfeed;
      try discriminate.
    injection Hrun as _ <-.
    destruct (IH w1 h1 w2 Hfeed) as (Hm & Hc).
    cbn [fold_left]. rewrite <- (callback_mem snr w r w1 Hcb).
    split; [exact Hm |]. rewrite Hc.
    destruct (Z.eq_dec (gain_count (mem w)) 0) as [Hz | Hnz].
    + rewrite (callback_idle drv snr w Hz) in Hcb. injection Hcb as _ <-.
      reflexivity.
    + apply (callback_active_inv drv snr w r w1 Hnz Hcb).
Qed.

Lemma sync_loop_mem (n : Z) (blocks : list (list float)) :
  forall w w', snr_cb w = true ->
  main_sync_loop drv n blocks w = Ok tt w' ->
  mem w' = fold_left search_step (concat blocks) (mem w).
Proof.
  induction blocks as [| snrs rest IH]; intros w w' Hcb Hrun;
    destruct (Z.eq_dec (gain_count (mem w)) 0) as [Hz | Hnz].
  - rewrite (sync_loop_done _ _ _ _ Hz) in Hrun. injection Hrun as <-.
    reflexivity.
  - rewrite (sync_loop_starved _ _ _ Hnz) in Hrun. discriminate.
  - rewrite (sync_loop_done _ _ _ _ Hz) in Hrun. injection Hrun as <-.
    rewrite search_step_concluded by exact Hz. reflexivity.
  - rewrite (sync_loop_cons _ _ _ _ _ Hnz) in Hrun.
    apply bind_ok in Hrun. destruct Hrun as (err & w1 & Hcall & Hrun).
    injection Hcall as _ <-.
    apply bind_ok in Hrun. destruct Hrun as ([] & w2 & Hfatal & Hrun).
    unfold fatal_if, fatal_exit, ret in Hfatal.
    destruct (nonzero _); [discriminate |]. injection Hfatal as <-.
    apply bind_ok in Hrun. destruct Hrun as ([] & w3 & Hin & Hrun).
    unfold input_cb in Hin. cbn [snr_cb] in Hin. rewrite Hcb in Hin.
    apply bind_ok in Hin. destruct Hin as (h & w4 & Hfeed & Hret).
    injection Hret as <-.
    destruct (snr_feed_mem snrs _ h w4 Hfeed) as (Hm & Hc).
    cbn [mem snr_cb] in Hm, Hc.
    assert (Hcb4 : snr_cb w4 = true)
      by first [exact Hc | rewrite Hc; exact Hcb].
    rewrite (IH w4 w' Hcb4 Hrun), Hm.
    cbn [concat]. rewrite fold_left_app. reflexivity.
Qed.

End StepFacts.

(** X8. The outcome of the search depends on the SNR samples only. Two
    read loops that start from the same statics with the callback
    registered and that both leave the loop end with the same statics
    whenever the samples they were given are the same in order, however
    the samples were cut into blocks and whatever the two drivers answered
    to the commands. *)
Theorem search_ignores_blocks_and_driver (drv1 drv2 : driver) (n1 n2 : Z)
    (blocks1 blocks2 : list (list float)) (w1 w2 w1' w2' : world) :
  mem w1 = mem w2 ->
  snr_cb w1 = true ->
  snr_cb w2 = true ->
  concat blocks1 = concat blocks2 ->
  main_sync_loop drv1 n1 blocks1 w1 = Ok tt w1' ->
  main_sync_loop drv2 n2 blocks2 w2 = Ok tt w2' ->
  mem w1' = mem w2'.
Proof.
  intros Hm Hc1 Hc2 Hsame H1 H2.
  rewrite (sync_loop_mem drv1 n1 blocks1 w1 w1' Hc1 H1).
  rewrite (sync_loop_mem drv2 n2 blocks2 w2 w2' Hc2 H2).
  rewrite Hm, Hsame. reflexivity.
Qed.

(** A driver that reports an error for every gain command. *)
Definition deaf_driver : driver :=
  fun _ c => match c with
             | SetTunerGain _ => -1
             | _ => 0
             end.

Lemma search_ignores_blocks_and_driver_witness :
  exists w1' w2',
    main_sync_loop quiet_driver 256 trace_blocks w_loop5 = Ok tt w1' /\
    main_sync_loop deaf_driver 64 [trace_snrs] w_start5 = Ok tt w2' /\
    mem w1' = mem w2'.
Proof.
  eexists _, _. split; [vm_compute; reflexivity |].
  split; [vm_compute; reflexivity |].
  apply (search_ignores_blocks_and_driver quiet_driver deaf_driver 256 64
           trace_blocks [trace_snrs] w_loop5 w_start5);
    try reflexivity; vm_compute; reflexivity.
Defined.

(** * The command line and the file input of [main] *)

(** ** [parse_freq] (main.c, lines 97-102) *)

(** The integral part of a [double], towards zero, when it is a number. *)
Definition double_trunc (x : double) : option Z :=
  match x with
  | S754_zero _ => Some 0
  | S754_finite s m e =>
      let mag := if 0 <=? e then Zpos m * 2 ^ e else Zpos m / 2 ^ (- e) in
      Some (if s then - mag else mag)
  | S754_infinity _ | S754_nan => None
  end.

Definition UINT_MAX : Z := 2 ^ 32 - 1.

(** [(unsigned int) x]: the integral part; undefined when it does not fit
    the type. *)
Definition double_to_uint (x : double) : option Z :=
  match double_trunc x with
  | Some z => if (0 <=? z) && (z <=? UINT_MAX) then Some z else None
  | None => None
  end.

(** The [double] with the value of an integer literal, e.g. [10000] or
    [1e6]. *)
Definition double_of_Z (z : Z) : double := binary_normalize 53 1024 z 0 false.

(** [parse_freq]; [strtod] is the C library's, and the result is [None]
    when the conversion to [unsigned int] is undefined. *)
Definition parse_freq (strtod : String.string -> double) (s : String.string) :
    option Z :=
  let d := strtod s in
  let d := if double_lt d (double_of_Z 10000)      (* line 100 *)
           then double_mul d (double_of_Z 1000000)
           else d in
  double_to_uint d.                                (* line 101 *)

(** The [double] nearest to the decimal [k] / 10^[digits], which is what a
    correctly rounding [strtod] makes of such a decimal string. *)
Definition double_of_decimal (k : Z) (digits : nat) : double :=
  SFdiv 53 1024 (double_of_Z k) (double_of_Z (10 ^ Z.of_nat digits)).

(** ** The file read loop (main.c, lines 326-336) *)

(** An open input stream: the bytes not yet read and the end-of-file
    indicator, which a read sets when it runs into the end. *)
Record file_stream := mkFile {
  f_rest : list Byte.byte;
  f_eof : bool
}.

(** [fread(tmp, 4, items, infp)]: the number of complete 4-byte items
    read, the bytes of those items, and the stream afterwards. A short
    read consumes what is left, a trailing partial item included, and sets
    the end-of-file indicator. Read errors are not modelled. *)
Definition fread4 (items : positive) (f : file_stream) :
    nat * list Byte.byte * file_stream :=
  let want := (4 * Pos.to_nat items)%nat in
  if (want <=? length (f_rest f))%nat
  then (Pos.to_nat items, firstn want (f_rest f),
        mkFile (skipn want (f_rest f)) (f_eof f))
  else let cnt := (length (f_rest f) / 4)%nat in
       (cnt, firstn (4 * cnt) (f_rest f), mkFile [] true).

(** What is left to do for a loop that reads until end of file. *)
Definition file_measure (f : file_stream) : nat :=
  if f_eof f then O else S (length (f_rest f)).

(** [while (!feof(infp)) { cnt = fread(...); if (cnt > 0) input_cb(tmp,
    cnt * 4, &input); }]: the blocks handed to [input_cb], in order. *)
Equations? read_loop (items : positive) (f : file_stream) :
    list (list Byte.byte) by wf (file_measure f) lt :=
  read_loop items (mkFile rest true) := [];
  read_loop items (mkFile rest false) :=
    (if (0 <? fst (fst (fread4 items (mkFile rest false))))%nat
     then [snd (fst (fread4 items (mkFile rest false)))]
     else [])
    ++ read_loop items (snd (fread4 items (mkFile rest false))).
Proof.
  unfold fread4, file_measure. cbn [f_rest f_eof].
  destruct (Nat.leb_spec (4 * Pos.to_nat items) (length rest)) as [Hle | Hgt];
    cbn [snd f_eof f_rest]; [| lia].
  rewrite length_skipn. pose proof (Pos2Nat.is_pos items). lia.
Qed.

(** [sizeof(tmp) / 4] with [uint8_t tmp[RADIO_BUFFER]]. *)
Definition RADIO_ITEMS : positive := Z.to_pos (RADIO_BUFFER / 4).

(** The file branch of [main]: the blocks that reach [input_cb]. *)
Definition main_file (content : list Byte.byte) : list (list Byte.byte) :=
  read_loop RADIO_ITEMS (mkFile content false).

(** ** The command line (main.c, lines 114-336)

    The model is of the build without [USE_SOAPYSDR]: the SoapySDR options
    and branch are not compiled in. What [getopt_long] returns call after
    call is the list of [cli_opt]; [args] are the arguments it leaves,
    [argv[optind]] onwards. *)

Inductive cli_opt :=
| Opt_dump_aas_files (optarg : String.string)   (* --dump-aas-files, value 1 *)
| Opt_r (optarg : String.string)
| Opt_w (optarg : String.string)
| Opt_d (optarg : String.string)
| Opt_p (optarg : String.string)
| Opt_o (optarg : String.string)
| Opt_f (optarg : String.string)
| Opt_g (optarg : String.string)
| Opt_q
| Opt_l (optarg : String.string)
| Opt_v
| Opt_unknown.                           (* '?': the default case *)

(** The locals of [main] that the options set (line 124-128). *)
Record settings := mkSettings {
  gain : Z;
  ppm_error : Z;
  device_index : Z;                      (* unsigned int *)
  input_name : option String.string;
  output_name : option String.string;
  audio_name : option String.string;
  format_name : option String.string;
  files_path : option String.string
}.

Definition settings_init : settings :=
  mkSettings INT_MIN 0 0 None None None None None.

Inductive output_kind :=
| OutWav (name : String.string)                 (* output_init_wav *)
| OutAdts (name : String.string)                (* output_init_adts *)
| OutHdc (name : String.string)                 (* output_init_hdc *)
| OutLive.                               (* output_init_live *)

(** What the process does besides driving the tuner. *)
Inductive sys_event :=
| LogSetQuiet (enable : Z)
| LogSetLevel (level : Z)
| PrintRevision
| Help
| LogFatal (msg : String.string)
| GetDeviceCount
| LogDeviceName (i : Z)
| FopenRead (name : String.string)
| FopenWrite (name : String.string)
| OutputInit (kind : output_kind)
| OutputSetAasFilesPath (path : option String.string)
| InputInit (frequency program : Z) (dump : bool)
| InputCb (block : list Byte.byte).

(** The machine and the C library, as far as [main] asks them. *)
Record host := mkHost {
  atoi : String.string -> Z;
  strtod : String.string -> double;
  strtoul : String.string -> Z;
  rtlsdr_get_device_count : Z;
  fopen_rb : String.string -> option (list Byte.byte);
  fopen_wb : String.string -> bool;
  stdin : list Byte.byte;
  USE_FAAD2 : bool
}.

(** Conversion to [unsigned int]. *)
Definition to_uint (z : Z) : Z := z mod 2 ^ 32.

(** How a stretch of [main] ends: it falls through with a value, [main]
    returns a code, or the behaviour is undefined. *)
Inductive flow (A : Type) :=
| Next (a : A)
| Return (code : Z)
| Wrong.

Arguments Next {A} a.
Arguments Return {A} code.
Arguments Wrong {A}.

Definition act (A : Type) : Type := list sys_event * flow A.

Definition act_ret {A} (a : A) : act A := ([], Next a).

Definition act_bind {A B} (p : act A) (k : A -> act B) : act B :=
  match p with
  | (ev, Next a) => let (ev', r) := k a in (ev ++ ev', r)
  | (ev, Return code) => (ev, Return code)
  | (ev, Wrong) => (ev, Wrong)
  end.

Definition emit (e : sys_event) : act unit := ([e], Next tt).
Definition emit_all (evs : list sys_event) : act unit := (evs, Next tt).
Definition return_ {A} (code : Z) : act A := ([], Return code).
Definition wrong {A} : act A := ([], Wrong).

Declare Scope act_scope.
Delimit Scope act_scope with act.
Notation "x <- p ;; k" := (act_bind p (fun x => k))
  (at level 61, p at next level, right associativity) : act_scope.
Notation "p ;; k" := (act_bind p (fun _ => k))
  (at level 61, right associativity) : act_scope.

Section CommandLine.

Variable h : host.

Local Open Scope act_scope.

(** One pass of the [switch] of lines 134-181. *)
Definition option_case (o : cli_opt) (s : settings) : act settings :=
  match o with
  | Opt_dump_aas_files a =>
      act_ret (mkSettings (gain s) (ppm_error s) (device_index s) (input_name s)
                 (output_name s) (audio_name s) (format_name s) (Some a))
  | Opt_r a =>
      act_ret (mkSettings (gain s) (ppm_error s) (device_index s) (Some a)
                 (output_name s) (audio_name s) (format_name s) (files_path s))
  | Opt_w a =>
      act_ret (mkSettings (gain s) (ppm_error s) (device_index s) (input_name s)
                 (Some a) (audio_name s) (format_name s) (files_path s))
  | Opt_d a =>
      act_ret (mkSettings (gain s) (ppm_error s) (to_uint (atoi h a))
                 (input_name s) (output_name s) (audio_name s) (format_name s)
                 (files_path s))
  | Opt_p a =>
      act_ret (mkSettings (gain s) (atoi h a) (device_index s) (input_name s)
                 (output_name s) (audio_name s) (format_name s) (files_path s))
  | Opt_o a =>
      act_ret (mkSettings (gain s) (ppm_error s) (device_index s) (input_name s)
                 (output_name s) (Some a) (format_name s) (files_path s))
  | Opt_f a =>
      act_ret (mkSettings (gain s) (ppm_error s) (device_index s) (input_name s)
                 (output_name s) (audio_name s) (Some a) (files_path s))
  | Opt_g a =>
      act_ret (mkSettings (atoi h a) (ppm_error s) (device_index s)
                 (input_name s) (output_name s) (audio_name s) (format_name s)
                 (files_path s))
  | Opt_q => emit (LogSetQuiet 1) ;; act_ret s
  | Opt_l a => emit (LogSetLevel (atoi h a)) ;; act_ret s
  | Opt_v => emit PrintRevision ;; return_ 0
  | Opt_unknown => emit Help ;; return_ 0
  end.

(** The [while] of lines 132-182. *)
Fixpoint getopt_loop (opts : list cli_opt) (s : settings) : act settings :=
  match opts with
  | [] => act_ret s
  | o :: rest => s' <- option_case o s ;; getopt_loop rest s'
  end.

(** Where the samples come from once the arguments are accepted. *)
Inductive input_source :=
| FromRadio (frequency program : Z)
| FromFile (content : list Byte.byte) (program : Z).

(** Lines 191-270. *)
Definition select_input (s : settings) (args : list String.string) : act input_source :=
  match input_name s with
  | None =>
      match args with
      | [a_freq; a_prog] =>
          match parse_freq (strtod h) a_freq with
          | None => wrong
          | Some frequency =>
              let program := to_uint (strtoul h a_prog) in
              emit GetDeviceCount ;;
              let count := rtlsdr_get_device_count h in
              if count =? 0
              then emit (LogFatal "No devices found!"%string) ;; return_ 1
              else
                (emit_all (map LogDeviceName (zseq 0 (Z.to_nat count))) ;;
                 if device_index s >=? count
                 then emit (LogFatal "Selected device does not exist."%string) ;;
                      return_ 1
                 else act_ret (FromRadio frequency program))
          end
      | _ => emit Help ;; return_ 0
      end
  | Some name =>
      match args with
      | [a_prog] =>
          let program := to_uint (strtoul h a_prog) in
          if String.eqb name "-"%string
          then act_ret (FromFile (stdin h) program)
          else
            emit (FopenRead name) ;;
            match fopen_rb h name with
            | Some content => act_ret (FromFile content program)
            | None => emit (LogFatal "Unable to open input file."%string) ;; return_ 1
            end
      | _ => emit Help ;; return_ 0
      end
  end.

(** Lines 272-280: the sample dump; the value tells whether one is open. *)
Definition open_dump (s : settings) : act bool :=
  match output_name s with
  | None => act_ret false
  | Some name =>
      emit (FopenWrite name) ;;
      if fopen_wb h name
      then act_ret true
      else emit (LogFatal "Unable to open output file."%string) ;; return_ 1
  end.

(** Lines 282-320. *)
Definition select_output (s : settings) : act unit :=
  match audio_name s with
  | Some name =>
      match format_name s with
      | None => emit (LogFatal "Must specify an output format."%string) ;; return_ 1
      | Some fmt =>
          if String.eqb fmt "wav"%string
          then if USE_FAAD2 h
               then emit (OutputInit (OutWav name))
               else emit (LogFatal "WAV output requires FAAD2."%string) ;; return_ 1
          else if String.eqb fmt "adts"%string then emit (OutputInit (OutAdts name))
          else if String.eqb fmt "hdc"%string then emit (OutputInit (OutHdc name))
          else emit (LogFatal "Unknown output format."%string) ;; return_ 1
      end
  | None =>
      if USE_FAAD2 h
      then emit (OutputInit OutLive)
      else emit (LogFatal "Live output requires FAAD2."%string) ;; return_ 1
  end.

(** Lines 132-324: everything before the samples flow. *)
Definition main_startup (opts : list cli_opt) (args : list String.string) :
    act (settings * input_source) :=
  s <- getopt_loop opts settings_init ;;
  src <- select_input s args ;;
  dump <- open_dump s ;;
  select_output s ;;
  emit (OutputSetAasFilesPath (files_path s)) ;;
  emit (match src with
        | FromRadio frequency program => InputInit frequency program dump
        | FromFile _ program => InputInit 0 program dump
        end) ;;
  act_ret (s, src).

Variable drv : driver.
Variable tuner : tuner_gains.
Variable SNR_FFT_COUNT : Z.

(** [main]: what the process did besides driving the tuner, and how it
    ended with which statics and driver log. [blocks] are the blocks of
    samples that the tuner has on offer. *)
Definition main (opts : list cli_opt) (args : list String.string)
    (blocks : list (list float)) : list sys_event * result Z :=
  match main_startup opts args with
  | (ev, Return code) => (ev, Ok code world_init)
  | (ev, Wrong) => (ev, Undefined)
  | (ev, Next (s, FromFile content _)) =>
      (ev ++ map InputCb (main_file content), Ok 0 world_init)
  | (ev, Next (s, FromRadio frequency _)) =>
      (ev, main_rtlsdr drv tuner SNR_FFT_COUNT (gain s) (ppm_error s) frequency
             blocks world_init)
  end.

End CommandLine.

(** * Properties of the command line and the file input *)

(** ** [parse_freq] *)

(** A check of every integer from [lo], [len] of them, is a check of each
    integer in that range. *)
Lemma forallb_range (f : Z -> bool) (lo : Z) (len : nat) :
  forallb f (map (fun i => lo + Z.of_nat i) (seq 0 len)) = true ->
  forall z, lo <= z < lo + Z.of_nat len -> f z = true.
Proof.
  intros Hall z Hz. rewrite forallb_forall in Hall. apply Hall.
  apply in_map_iff. exists (Z.to_nat (z - lo)). split; [lia |].
  apply in_seq. lia.
Qed.

(** [parse_freq] when [strtod] makes [d] of the string. *)
Definition freq_of_double (d : double) : option Z :=
  parse_freq (fun _ => d) String.EmptyString.

Lemma parse_freq_of_double (strtod : String.string -> double)
    (s : String.string) :
  parse_freq strtod s = freq_of_double (strtod s).
Proof. reflexivity. Qed.

(** Does [parse_freq] make of [d] what is expected? *)
Definition parse_freq_gives (d : double) (expected : option Z) : bool :=
  match freq_of_double d, expected with
  | Some a, Some b => a =? b
  | None, None => true
  | _, _ => false
  end.

Lemma parse_freq_gives_eq (d : double) (expected : option Z) :
  parse_freq_gives d expected = true -> freq_of_double d = expected.
Proof.
  unfold parse_freq_gives.
  destruct (freq_of_double d) as [a |], expected as [b |];
    try discriminate; try reflexivity.
  intros H. apply Z.eqb_eq in H. congruence.
Qed.

Definition whole_MHz_ok (n : Z) : bool :=
  parse_freq_gives (double_of_Z n)
    (if n <=? 4294 then Some (n * 1000000) else None).

Definition fm_channel_ok (k : Z) : bool :=
  parse_freq_gives (double_of_decimal k 1) (Some (k * 100000)).

(** X9. A whole number of MHz is read exactly when the result fits an
    [unsigned int]: if [strtod] makes the integer n of the string, then for
    n = 0 .. 4294 [parse_freq] returns n * 1000000 Hz, and for
    n = 4295 .. 9999 the product is out of range and the conversion is
    undefined. *)
Theorem parse_freq_whole_MHz (strtod : String.string -> double)
    (s : String.string) (n : Z) :
  strtod s = double_of_Z n ->
  0 <= n <= 9999 ->
  parse_freq strtod s = if n <=? 4294 then Some (n * 1000000) else None.
Proof.
  intros Hd Hn. rewrite parse_freq_of_double, Hd.
  apply parse_freq_gives_eq. change (whole_MHz_ok n = true).
  apply (forallb_range whole_MHz_ok 0 (Z.to_nat 10000));
    [vm_compute; reflexivity | lia].
Qed.

Lemma parse_freq_whole_MHz_witness :
  0 <= 99 <= 9999 /\
  parse_freq (fun _ => double_of_Z 99) "99"%string = Some 99000000.
Proof.
  split; [lia |].
  apply (parse_freq_whole_MHz (fun _ => double_of_Z 99) "99"%string 99);
    [reflexivity | lia].
Defined.

(** X10. Every FM channel is read exactly: if [strtod] makes of the string
    the [double] nearest to k / 10, for k = 875 .. 1080 (87.5 to 108.0 MHz
    in steps of 100 kHz), then [parse_freq] returns k * 100000 Hz, with no
    loss in the multiplication by 1e6 or in the truncation. *)
Theorem parse_freq_fm_band (strtod : String.string -> double)
    (s : String.string) (k : Z) :
  strtod s = double_of_decimal k 1 ->
  875 <= k <= 1080 ->
  parse_freq strtod s = Some (k * 100000).
Proof.
  intros Hd Hk. rewrite parse_freq_of_double, Hd.
  apply parse_freq_gives_eq. change (fm_channel_ok k = true).
  apply (forallb_range fm_channel_ok 875 206); [vm_compute; reflexivity | lia].
Qed.

Lemma parse_freq_fm_band_witness :
  875 <= 995 <= 1080 /\
  parse_freq (fun _ => double_of_decimal 995 1) "99.5"%string = Some 99500000.
Proof.
  split; [lia |].
  apply (parse_freq_fm_band (fun _ => double_of_decimal 995 1) "99.5"%string 995);
    [reflexivity | lia].
Defined.

(** Outside the FM band the truncation shows: 4.1 MHz is read as
    4099999 Hz. *)
Example parse_freq_truncates :
  freq_of_double (double_of_decimal 41 1) = Some 4099999.
Proof. vm_compute. reflexivity. Qed.

(** ** The file read loop *)

Lemma firstn_add {A} (n m : nat) (l : list A) :
  firstn (n + m) l = firstn n l ++ firstn m (skipn n l).
Proof.
  revert l. induction n as [| n IH]; intros l; [reflexivity |].
  destruct l as [| x l]; cbn [Nat.add firstn skipn app].
  - rewrite firstn_nil. reflexivity.
  - rewrite IH. reflexivity.
Qed.

Section ReadLoopFacts.

Variable items : positive.

(** The bytes asked for in one read. *)
Let want : nat := (4 * Pos.to_nat items)%nat.

Lemma read_loop_full (rest : list Byte.byte) :
  (want <= length rest)%nat ->
  read_loop items (mkFile rest false) =
  firstn want rest :: read_loop items (mkFile (skipn want rest) false).
Proof.
  intros Hle. rewrite read_loop_equation_2. unfold fread4. cbn [f_rest f_eof].
  fold want. destruct (Nat.leb_spec want (length rest)) as [_ | Hgt]; [| lia].
  cbn [fst snd].
  destruct (Nat.ltb_spec 0 (Pos.to_nat items)) as [_ | H0];
    [reflexivity | pose proof (Pos2Nat.is_pos items); lia].
Qed.

Lemma read_loop_short (rest : list Byte.byte) :
  (length rest < want)%nat ->
  read_loop items (mkFile rest false) =
  if (0 <? length rest / 4)%nat
  then [firstn (4 * (length rest / 4)) rest]
  else [].
Proof.
  intros Hlt. rewrite read_loop_equation_2. unfold fread4. cbn [f_rest f_eof].
  fold want. destruct (Nat.leb_spec want (length rest)) as [Hle | _]; [lia |].
  cbn [fst snd]. rewrite read_loop_equation_1, app_nil_r. reflexivity.
Qed.

(** Induction on the file in steps of one read. *)
Lemma read_induction (P : list Byte.byte -> Prop) :
  (forall rest, (length rest < want)%nat -> P rest) ->
  (forall rest, (want <= length rest)%nat -> P (skipn want rest) -> P rest) ->
  forall rest, P rest.
Proof.
  intros Hshort Hfull rest.
  remember (length rest) as n eqn:Hn. revert rest Hn.
  induction n as [n IH] using lt_wf_ind. intros rest ->.
  destruct (Nat.lt_ge_cases (length rest) want) as [Hlt | Hle].
  - apply Hshort. exact Hlt.
  - apply Hfull; [exact Hle |].
    apply (IH (length (skipn want rest))); [| reflexivity].
    rewrite length_skipn. unfold want in *.
    pose proof (Pos2Nat.is_pos items). lia.
Qed.

Lemma read_loop_concat (rest : list Byte.byte) :
  concat (read_loop items (mkFile rest false)) =
  firstn (4 * (length rest / 4)) rest.
Proof.
  induction rest as [rest Hlt | rest Hle IH] using read_induction.
  - rewrite read_loop_short by exact Hlt.
    destruct (Nat.ltb_spec 0 (length rest / 4)) as [_ | H0].
    + cbn [concat]. apply app_nil_r.
    + replace (length rest / 4)%nat with O by lia. reflexivity.
  - rewrite read_loop_full by exact Hle. cbn [concat]. rewrite IH.
    rewrite length_skipn.
    replace (4 * (length rest / 4))%nat
      with (want + 4 * ((length rest - want) / 4))%nat.
    + apply eq_sym, firstn_add.
    + unfold want in *.
      replace (length rest) with
        (length rest - 4 * Pos.to_nat items + Pos.to_nat items * 4)%nat at 2
        by lia.
      rewrite Nat.div_add by lia. lia.
Qed.

Lemma read_loop_blocks (rest : list Byte.byte) :
  Forall (fun b => (0 < length b <= want)%nat /\ (length b mod 4 = 0)%nat)
         (read_loop items (mkFile rest false)).
Proof.
  induction rest as [rest Hlt | rest Hle IH] using read_induction.
  - rewrite read_loop_short by exact Hlt.
    destruct (Nat.ltb_spec 0 (length rest / 4)) as [Hpos | _];
      [| constructor].
    constructor; [| constructor].
    pose proof (Nat.Div0.mul_div_le (length rest) 4) as Hq.
    rewrite length_firstn, Nat.min_l by lia.
    split; [lia |]. rewrite Nat.mul_comm. apply Nat.Div0.mod_mul.
  - rewrite read_loop_full by exact Hle. constructor; [| exact IH].
    rewrite length_firstn, Nat.min_l by lia.
    pose proof (Pos2Nat.is_pos items).
    split; [unfold want; lia |].
    unfold want. rewrite Nat.mul_comm. apply Nat.Div0.mod_mul.
Qed.

Lemma read_loop_all_but_last (rest : list Byte.byte) :
  Forall (fun b => length b = want)
         (removelast (read_loop items (mkFile rest false))).
Proof.
  induction rest as [rest Hlt | rest Hle IH] using read_induction.
  - rewrite read_loop_short by exact Hlt.
    destruct (0 <? length rest / 4)%nat; constructor.
  - rewrite read_loop_full by exact Hle.
    destruct (read_loop items (mkFile (skipn want rest) false)) as [| b bs] eqn:E.
    + constructor.
    + change (removelast (firstn want rest :: b :: bs))
        with (firstn want rest :: removelast (b :: bs)).
      constructor; [| exact IH].
      rewrite length_firstn. lia.
Qed.

End ReadLoopFacts.

(** X11. The file loop hands [input_cb] the file in order and whole, but
    for the at most three bytes after the last complete 4-byte item: the
    blocks, concatenated, are the first 4 * (length / 4) bytes of the
    file. *)
Theorem file_blocks_concat (content : list Byte.byte) :
  concat (main_file content) = firstn (4 * (length content / 4)) content.
Proof. unfold main_file. apply read_loop_concat. Qed.

Lemma radio_items_bytes : Z.of_nat (4 * Pos.to_nat RADIO_ITEMS) = RADIO_BUFFER.
Proof. rewrite Nat2Z.inj_mul, positive_nat_Z. reflexivity. Qed.

(** X12. Every block the file loop hands to [input_cb] is non-empty, a
    whole number of 4-byte items and at most [RADIO_BUFFER] bytes; every
    block but the last is exactly [RADIO_BUFFER] bytes; and a file of fewer
    than 4 bytes, the empty file included, gives no block at all. *)
Theorem file_blocks_sizes (content : list Byte.byte) :
  Forall (fun b => 0 < Z.of_nat (length b) <= RADIO_BUFFER /\
                   Z.of_nat (length b) mod 4 = 0)
         (main_file content) /\
  Forall (fun b => Z.of_nat (length b) = RADIO_BUFFER)
         (removelast (main_file content)) /\
  ((length content < 4)%nat -> main_file content = []).
Proof.
  unfold main_file. split; [| split].
  - eapply Forall_impl; [| apply read_loop_blocks].
    intros b (Hlen & Hmod). cbv beta. rewrite <- radio_items_bytes.
    split; [lia |].
    change 4 with (Z.of_nat 4). rewrite <- Nat2Z.inj_mod, Hmod. reflexivity.
  - eapply Forall_impl; [| apply read_loop_all_but_last].
    intros b Hlen. cbv beta. rewrite Hlen. apply radio_items_bytes.
  - intros Hshort. rewrite read_loop_short.
    + rewrite Nat.div_small by exact Hshort. reflexivity.
    + pose proof (Pos2Nat.is_pos RADIO_ITEMS). lia.
Qed.

(** ** Early returns of [main] *)

(** How an early return is announced: the usage or the revision with
    status 0, a fatal message with status 1. *)
Definition announced (ev : list sys_event) (code : Z) : Prop :=
  exists ev' e, ev = ev' ++ [e] /\
    ((code = 0 /\ (e = Help \/ e = PrintRevision)) \/
     (code = 1 /\ exists msg, e = LogFatal msg)).

Definition announces {A} (p : act A) : Prop :=
  forall ev code, p = (ev, Return code) -> announced ev code.

Lemma act_bind_next {A B} (p : act A) (k : A -> act B) (ev : list sys_event)
    (b : B) :
  act_bind p k = (ev, Next b) ->
  exists ev1 a ev2, p = (ev1, Next a) /\ k a = (ev2, Next b) /\ ev = ev1 ++ ev2.
Proof.
  destruct p as [ev1 [a | code |]]; cbn [act_bind]; try discriminate.
  destruct (k a) as [ev2 r] eqn:E. intros [= <- ->]. eauto 6.
Qed.

Lemma announces_bind {A B} (p : act A) (k : A -> act B) :
  announces p -> (forall a, announces (k a)) -> announces (act_bind p k).
Proof.
  intros Hp Hk ev code. destruct p as [ev1 [a | c |]]; cbn [act_bind].
  - destruct (k a) as [ev2 r] eqn:E. intros [= <- ->].
    destruct (Hk a ev2 code E) as (ev' & e & -> & He).
    exists (ev1 ++ ev'), e. rewrite app_assoc. split; [reflexivity | exact He].
  - intros [= <- <-]. apply Hp. reflexivity.
  - discriminate.
Qed.

Lemma announces_next {A} (ev : list sys_event) (a : A) : announces (ev, Next a).
Proof. intros ev' code. discriminate. Qed.

Lemma announces_wrong {A} : announces (@wrong A).
Proof. intros ev' code. discriminate. Qed.

Lemma announces_usage {A} :
  announces (act_bind (emit Help) (fun _ => @return_ A 0)).
Proof.
  intros ev code [= <- <-]. exists [], Help. split; [reflexivity |]. auto.
Qed.

Lemma announces_revision {A} :
  announces (act_bind (emit PrintRevision) (fun _ => @return_ A 0)).
Proof.
  intros ev code [= <- <-]. exists [], PrintRevision.
  split; [reflexivity |]. auto.
Qed.

Lemma announces_fatal {A} (msg : String.string) :
  announces (act_bind (emit (LogFatal msg)) (fun _ => @return_ A 1)).
Proof.
  intros ev code [= <- <-]. exists [], (LogFatal msg).
  split; [reflexivity |]. right. eauto.
Qed.

Ltac announces_step :=
  first
    [ apply announces_usage | apply announces_revision | apply announces_fatal
    | apply announces_next | apply announces_wrong
    | apply announces_bind; [| intros ?]
    | match goal with
      | |- announces (if ?b then _ else _) => destruct b
      | |- announces (match ?x with _ => _ end) => destruct x
      end ].

Section StartupFacts.

Variable h : host.

Lemma announces_getopt_loop (opts : list cli_opt) :
  forall s, announces (getopt_loop h opts s).
Proof.
  induction opts as [| o rest IH]; intros s; cbn [getopt_loop].
  - apply announces_next.
  - apply announces_bind; [| intros s'; apply IH].
    destruct o; unfold option_case, act_ret, emit;
      repeat announces_step.
Qed.

Lemma announces_startup (opts : list cli_opt) (args : list String.string) :
  announces (main_startup h opts args).
Proof.
  unfold main_startup.
  apply announces_bind; [apply announces_getopt_loop | intros s].
  apply announces_bind.
  { unfold select_input, act_ret, emit, emit_all. repeat announces_step. }
  intros src. apply announces_bind.
  { unfold open_dump, act_ret, emit. repeat announces_step. }
  intros dump. apply announces_bind.
  { unfold select_output, act_ret, emit. repeat announces_step. }
  intros _. unfold act_ret, emit. repeat announces_step.
Qed.

End StartupFacts.

(** X13. Every early return of [main] is announced: when [main] returns
    before any sample flows, the last thing it did is print the usage or
    the revision and the status is 0, or log a fatal message and the
    status is 1. In particular a wrong command line ends with status 0. *)
Theorem early_returns_announced (h : host) (opts : list cli_opt)
    (args : list String.string) (ev : list sys_event) (code : Z) :
  main_startup h opts args = (ev, Return code) ->
  exists ev' e, ev = ev' ++ [e] /\
    ((code = 0 /\ (e = Help \/ e = PrintRevision)) \/
     (code = 1 /\ exists msg, e = LogFatal msg)).
Proof. intros H. exact (announces_startup h opts args ev code H). Qed.

(** ** What the options decide *)

(** The argument of the last [-g] among the options, if any. *)
Fixpoint gain_option (opts : list cli_opt) : option String.string :=
  match opts with
  | [] => None
  | o :: rest =>
      match gain_option rest with
      | Some a => Some a
      | None => match o with
                | Opt_g a => Some a
                | _ => None
                end
      end
  end.

(** The argument of the last [-d] among the options, if any. *)
Fixpoint device_option (opts : list cli_opt) : option String.string :=
  match opts with
  | [] => None
  | o :: rest =>
      match device_option rest with
      | Some a => Some a
      | None => match o with
                | Opt_d a => Some a
                | _ => None
                end
      end
  end.

(** The commands of a run with the explicit gain [g], in order. *)
Definition explicit_log (g ppm_error frequency : Z) : list dev_cmd :=
  config_log ppm_error frequency ++
  [SetTunerGain g; ResetBuffer; ReadAsync RADIO_BUFCNT RADIO_BUFFER; Close].

(** Only device 0 is opened. *)
Definition first_device (c : dev_cmd) : Prop :=
  match c with
  | Open i => i = 0
  | _ => True
  end.

Lemma gain_cmd_first_device (c : dev_cmd) : gain_cmd c -> first_device c.
Proof. intros [(g & ->) | ->]; exact I. Qed.

Section OptionFacts.

Variable h : host.

Lemma option_case_next (o : cli_opt) (s : settings) (ev : list sys_event)
    (s' : settings) :
  option_case h o s = (ev, Next s') ->
  gain s' = match o with
            | Opt_g a => atoi h a
            | _ => gain s
            end /\
  device_index s' = match o with
                    | Opt_d a => to_uint (atoi h a)
                    | _ => device_index s
                    end.
Proof.
  destruct o; cbn; intros [= <- <-] || intros [=]; split; reflexivity.
Qed.

Lemma getopt_loop_next (opts : list cli_opt) :
  forall s ev s',
    getopt_loop h opts s = (ev, Next s') ->
    gain s' = match gain_option opts with
              | Some a => atoi h a
              | None => gain s
              end /\
    device_index s' = match device_option opts with
                      | Some a => to_uint (atoi h a)
                      | None => device_index s
                      end.
Proof.
  induction opts as [| o rest IH]; intros s ev s' Hrun.
  - injection Hrun as _ <-. split; reflexivity.
  - cbn [getopt_loop] in Hrun. apply act_bind_next in Hrun.
    destruct Hrun as (ev1 & s1 & ev2 & Ho & Hrest & _).
    destruct (IH s1 ev2 s' Hrest) as (Hg & Hd).
    destruct (option_case_next o s ev1 s1 Ho) as (Hg1 & Hd1).
    cbn [gain_option device_option]. rewrite Hg, Hd.
    destruct (gain_option rest), (device_option rest);
      split; try reflexivity;
      destruct o; try assumption; try reflexivity.
Qed.

Lemma select_input_radio (s : settings) (args : list String.string)
    (ev : list sys_event) (frequency program : Z) :
  select_input h s args = (ev, Next (FromRadio frequency program)) ->
  input_name s = None /\
  rtlsdr_get_device_count h <> 0 /\
  device_index s < rtlsdr_get_device_count h.
Proof.
  unfold select_input.
  destruct (input_name s) as [name |].
  - destruct args as [| a [| b l]]; try discriminate; cbn.
    destruct (String.eqb name "-"); [discriminate |].
    destruct (fopen_rb h name); discriminate.
  - destruct args as [| a [| b [| c l]]]; try discriminate.
    destruct (parse_freq (strtod h) a) as [f |]; [| discriminate].
    cbn. destruct (Z.eqb_spec (rtlsdr_get_device_count h) 0) as [Hz | Hnz];
      [discriminate |].
    cbn. destruct (Z.geb_spec (device_index s) (rtlsdr_get_device_count h));
      [discriminate |].
    intros _. repeat split; auto.
Qed.

(** X14. An index given with [-d] that [atoi] reads as negative never
    passes: converted to [unsigned int] it is at least 2^31, so with at most
    2^31 devices the argument check, the frequency conversion or the
    device check ends the radio start-up, whatever the other arguments. *)
Theorem negative_device_index_rejected (s : settings)
    (args : list String.string) (d : Z) :
  device_index s = to_uint d ->
  - 2 ^ 31 <= d < 0 ->
  rtlsdr_get_device_count h <= 2 ^ 31 ->
  input_name s = None ->
  forall ev src, select_input h s args <> (ev, Next src).
Proof.
  intros Hd Hneg Hcount Hname ev src. unfold select_input. rewrite Hname.
  destruct args as [| a [| b [| c l]]]; try discriminate.
  destruct (parse_freq (strtod h) a) as [f |]; [| discriminate].
  cbn. destruct (Z.eqb_spec (rtlsdr_get_device_count h) 0); [discriminate |].
  cbn. destruct (Z.geb_spec (device_index s) (rtlsdr_get_device_count h))
    as [_ | Hlt]; [discriminate |].
  exfalso. rewrite Hd in Hlt. unfold to_uint in Hlt.
  assert (d mod 2 ^ 32 = d + 2 ^ 32).
  { symmetry. apply (Z.mod_unique _ _ (-1)); lia. }
  lia.
Qed.

End OptionFacts.

(** ** Entering the search, from the command line *)

(** [gain] still holds [INT_MIN] when the options have been read: there was
    no [-g], or [atoi] read the argument of the last one as [INT_MIN]. *)
Definition gain_unset (h : host) (opts : list cli_opt) : Prop :=
  match gain_option opts with
  | None => True
  | Some a => atoi h a = INT_MIN
  end.

Lemma gain_unset_iff (h : host) (opts : list cli_opt) (ev : list sys_event)
    (s : settings) :
  getopt_loop h opts settings_init = (ev, Next s) ->
  (gain s = INT_MIN <-> gain_unset h opts).
Proof.
  intros Hopt. destruct (getopt_loop_next h opts _ _ _ Hopt) as (Hg & _).
  unfold gain_unset. rewrite Hg. destruct (gain_option opts); [reflexivity |].
  cbn. tauto.
Qed.

(** C7 (amended): after the options are read, lines 406-420 on the fresh
    statics register the callback exactly when [gain] still holds [INT_MIN]
    (no [-g], or a [-g] whose argument reads as [INT_MIN]) and the tuner
    reports a positive number of gains, and exactly then the first table
    gain is the one applied; with a [-g] whose argument reads as another
    number, that gain is applied, the statics stay as initialised and no
    callback is registered. *)
Theorem gain_search_entry (h : host) (drv : driver) (tuner : tuner_gains)
    (opts : list cli_opt) (ev : list sys_event) (s : settings)
    (log : list dev_cmd) :
  getopt_loop h opts settings_init = (ev, Next s) ->
  (length (tg_written tuner) <= GAIN_LIST_LEN)%nat ->
  exists w',
    world_of (main_gain_setup drv tuner (gain s) (mkWorld statics_init false log))
      = Some w' /\
    (snr_cb w' = true <-> gain_unset h opts /\ 0 < tg_ret tuner) /\
    ((exists g0, gain_at (gain_list (mem w')) 0 = Some g0 /\
                 issued w' = log ++ [GetTunerGains; SetTunerGain g0])
     <-> gain_unset h opts /\ 0 < tg_ret tuner) /\
    (gain_unset h opts -> gain_count (mem w') = tg_ret tuner) /\
    (forall a, gain_option opts = Some a -> atoi h a <> INT_MIN ->
     mem w' = statics_init /\ snr_cb w' = false /\
     issued w' = log ++ [SetTunerGain (atoi h a)]).
Proof.
  intros Hopt Hlen.
  pose proof (gain_unset_iff h opts ev s Hopt) as Hun.
  destruct (getopt_loop_next h opts _ _ _ Hopt) as (Hg & _).
  destruct (gain_setup_cases drv tuner (gain s) log Hlen) as (w' & Hrun & Hcase).
  exists w'. split; [exact Hrun |].
  destruct Hcase as [(Hmin & Hpos & g0 & Hg0 & ->)
                    | [(Hmin & Hnone & ->) | (Hexp & ->)]];
    cbn [mem snr_cb issued gain_list gain_count].
  - split; [tauto |]. split; [| split; [reflexivity |]].
    + split; [tauto |]. intros _. exists g0. split; [exact Hg0 | reflexivity].
    + intros a Ha Hne. rewrite Ha in Hg. congruence.
  - split; [split; [discriminate | lia] |].
    split; [| split; [reflexivity |]].
    + split; [| lia].
      intros (g0 & _ & Hlog). apply app_inv_head in Hlog. discriminate.
    + intros a Ha Hne. rewrite Ha in Hg. congruence.
  - split; [split; [discriminate | tauto] |].
    split; [| split; [tauto |]].
    + split; [| tauto].
      intros (g0 & _ & Hlog). apply app_inv_head in Hlog. discriminate.
    + intros a Ha Hne. rewrite Ha in Hg. rewrite Hg. auto.
Qed.

(** ** Runs with an explicit gain, however they end *)

(** The world after one more driver command. *)
Definition logged (w : world) (c : dev_cmd) : world :=
  mkWorld (mem w) (snr_cb w) (issued w ++ [c]).

Lemma bind_call_check {A} (drv : driver) (c : dev_cmd) (cond : Z -> bool)
    (k : prog A) (w : world) :
  bind (call drv c) (fun err => bind (fatal_if (cond err)) (fun _ => k)) w =
  if cond (drv (issued w) c) then Fatal (logged w c) else k (logged w c).
Proof.
  unfold bind, call, fatal_if, fatal_exit, ret, logged.
  destruct (cond _); reflexivity.
Qed.

Lemma bind_call_check_last (drv : driver) (c : dev_cmd) (cond : Z -> bool)
    (w : world) :
  bind (call drv c) (fun err => fatal_if (cond err)) w =
  if cond (drv (issued w) c) then Fatal (logged w c) else Ok tt (logged w c).
Proof.
  unfold bind, call, fatal_if, fatal_exit, ret, logged.
  destruct (cond _); reflexivity.
Qed.

Lemma bind_call_check_then {A} (drv : driver) (c : dev_cmd) (cond : Z -> bool)
    (k : prog A) (w : world) :
  bind (bind (call drv c) (fun err => fatal_if (cond err))) (fun _ => k) w =
  if cond (drv (issued w) c) then Fatal (logged w c) else k (logged w c).
Proof.
  unfold bind, call, fatal_if, fatal_exit, ret, logged.
  destruct (cond _); reflexivity.
Qed.

Section ExplicitFacts.

Variable drv : driver.
Variable tuner : tuner_gains.
Variable SNR_FFT_COUNT : Z.

(** With an explicit gain the configuration either completes, or stops
    fatally somewhere along its commands, the statics untouched. *)
Lemma configure_explicit (gain ppm_error frequency : Z) :
  gain <> INT_MIN ->
  let full := config_log ppm_error frequency ++ [SetTunerGain gain; ResetBuffer] in
  main_configure drv tuner gain ppm_error frequency world_init =
    Ok tt (mkWorld statics_init false full) \/
  exists log rest,
    main_configure drv tuner gain ppm_error frequency world_init =
      Fatal (mkWorld statics_init false log) /\
    full = log ++ rest.
Proof.
  intros Hexp full. unfold main_configure, main_gain_setup.
  apply Z.eqb_neq in Hexp. rewrite Hexp.
  rewrite !bind_call_check. unfold world_init, logged.
  cbn [mem snr_cb issued app].
  destruct (nonzero _); [right; eexists _, _; split; reflexivity |].
  destruct (nonzero _); [right; eexists _, _; split; reflexivity |].
  destruct (nonzero _); [right; eexists _, _; split; reflexivity |].
  destruct (_ && _); [right; eexists _, _; split; reflexivity |].
  destruct (nonzero _); [right; eexists _, _; split; reflexivity |].
  rewrite bind_call_check_then. unfold logged. cbn [mem snr_cb issued app].
  destruct (nonzero _); [right; eexists _, _; split; reflexivity |].
  rewrite bind_call_check_last. unfold logged. cbn [mem snr_cb issued app].
  destruct (nonzero _); [right; eexists _, _; split; reflexivity |].
  left. reflexivity.
Qed.

Lemma explicit_gain_prefix (gain ppm_error frequency : Z)
    (blocks : list (list float)) (w' : world) :
  gain <> INT_MIN ->
  world_of (main_rtlsdr drv tuner SNR_FFT_COUNT gain ppm_error frequency blocks
              world_init) = Some w' ->
  mem w' = statics_init /\
  exists rest, explicit_log gain ppm_error frequency = issued w' ++ rest.
Proof.
  intros Hexp. unfold main_rtlsdr. unfold bind at 1.
  destruct (configure_explicit gain ppm_error frequency Hexp)
    as [Hok | (log & rest & Hfatal & Hfull)].
  - rewrite Hok. unfold bind at 1.
    rewrite sync_loop_done by reflexivity.
    unfold main_stream. rewrite bind_call_check. unfold logged.
    cbn [mem snr_cb issued app].
    destruct (nonzero _).
    { intros [= <-]. split; [reflexivity |]. eexists. reflexivity. }
    rewrite bind_call_check. unfold logged. cbn [mem snr_cb issued app].
    destruct (nonzero _); intros [= <-];
      (split; [reflexivity |]); exists []; rewrite app_nil_r; reflexivity.
  - rewrite Hfatal. intros [= <-]. split; [reflexivity |].
    cbn [issued]. exists (rest ++ [ReadAsync RADIO_BUFCNT RADIO_BUFFER; Close]).
    rewrite app_assoc, <- Hfull. unfold explicit_log.
    rewrite <- !app_assoc. reflexivity.
Qed.

Lemma bind_assoc_at {A B C} (p : prog A) (k : A -> prog B) (k' : B -> prog C)
    (w : world) :
  bind (bind p k) k' w = bind p (fun a => bind (k a) k') w.
Proof. unfold bind. destruct (p w); reflexivity. Qed.

(** The first thing the path does is open device 0. *)
Lemma main_rtlsdr_opens_first (gain ppm_error frequency : Z)
    (blocks : list (list float)) (w' : world) :
  world_of (main_rtlsdr drv tuner SNR_FFT_COUNT gain ppm_error frequency blocks
              world_init) = Some w' ->
  exists tr, issued w' = Open 0 :: tr.
Proof.
  unfold main_rtlsdr, main_configure. rewrite bind_assoc_at.
  unfold bind at 1, call. cbn [world_init mem snr_cb issued app]. intros Hw.
  match type of Hw with
  | world_of (?p ?w1) = _ => assert (Hem : emits (fun _ => True) p)
  end.
  { unfold main_gain_setup, rtlsdr_get_tuner_gains, main_stream.
    repeat first
      [ eapply emits_weaken; [| apply emits_sync_loop]; intros; exact I
      | emits_step ]. }
  destruct (Hem _ _ Hw) as (tr & Htr & _). cbn [issued app] in Htr. eauto.
Qed.

Lemma emits_sync_loop_first_device (blocks : list (list float)) :
  emits first_device (main_sync_loop drv SNR_FFT_COUNT blocks).
Proof.
  induction blocks as [| snrs rest IH]; cbn [main_sync_loop].
  - repeat emits_step.
  - apply emits_bind; [apply emits_load | intros gc].
    destruct (gc =? 0); [apply emits_ret |].
    apply emits_bind; [apply emits_call; exact I | intros err].
    apply emits_bind; [apply emits_fatal_if | intros _].
    apply emits_bind; [| intros _; exact IH].
    eapply emits_weaken; [apply gain_cmd_first_device | apply emits_input_cb].
Qed.

Lemma emits_main_first_device (gain ppm_error frequency : Z)
    (blocks : list (list float)) :
  emits first_device
    (main_rtlsdr drv tuner SNR_FFT_COUNT gain ppm_error frequency blocks).
Proof.
  unfold main_rtlsdr.
  apply emits_bind.
  { unfold main_configure, main_gain_setup, rtlsdr_get_tuner_gains.
    repeat emits_step. }
  intros _. apply emits_bind; [apply emits_sync_loop_first_device | intros _].
  unfold main_stream. repeat emits_step.
Qed.

End ExplicitFacts.

(** ** [main] from the command line to the tuner *)

Section MainFacts2.

Variable h : host.
Variable drv : driver.
Variable tuner : tuner_gains.
Variable SNR_FFT_COUNT : Z.

Lemma main_startup_next (opts : list cli_opt) (args : list String.string)
    (ev : list sys_event) (s : settings) (src : input_source) :
  main_startup h opts args = (ev, Next (s, src)) ->
  exists ev1 ev2,
    getopt_loop h opts settings_init = (ev1, Next s) /\
    select_input h s args = (ev2, Next src).
Proof.
  unfold main_startup. intros H.
  apply act_bind_next in H. destruct H as (ev1 & s1 & ev' & Hopt & H & _).
  apply act_bind_next in H. destruct H as (ev2 & src1 & ev'' & Hin & H & _).
  apply act_bind_next in H. destruct H as (ev3 & dump & ev3' & _ & H & _).
  apply act_bind_next in H. destruct H as (ev4 & [] & ev4' & _ & H & _).
  apply act_bind_next in H. destruct H as (ev5 & [] & ev5' & _ & H & _).
  apply act_bind_next in H. destruct H as (ev6 & [] & ev6' & _ & H & _).
  injection H as _ <- <-. eauto.
Qed.

(** When [main] has driven the tuner, it went by the radio branch. *)
Lemma main_drove_tuner (opts : list cli_opt) (args : list String.string)
    (blocks : list (list float)) (ev : list sys_event) (r : result Z)
    (w' : world) :
  main h drv tuner SNR_FFT_COUNT opts args blocks = (ev, r) ->
  world_of r = Some w' ->
  issued w' <> [] ->
  exists s frequency program,
    main_startup h opts args = (ev, Next (s, FromRadio frequency program)) /\
    r = main_rtlsdr drv tuner SNR_FFT_COUNT (gain s) (ppm_error s) frequency
          blocks world_init.
Proof.
  unfold main. intros Hmain Hw Hlog.
  destruct (main_startup h opts args) as [ev0 [[s [f p | content p]] | code |]].
  - injection Hmain as <- <-. eauto.
  - injection Hmain as _ <-. injection Hw as <-. contradiction.
  - injection Hmain as _ <-. injection Hw as <-. contradiction.
  - injection Hmain as _ <-. discriminate.
Qed.

(** X15. Whenever [main] has driven the tuner, the device index given
    with the last [-d] (0 without one) was found below the device count;
    yet the device it opened is device 0, and no other device is ever
    opened. *)
Theorem device_index_checked_not_used (opts : list cli_opt)
    (args : list String.string) (blocks : list (list float))
    (ev : list sys_event) (r : result Z) (w' : world) :
  main h drv tuner SNR_FFT_COUNT opts args blocks = (ev, r) ->
  world_of r = Some w' ->
  issued w' <> [] ->
  match device_option opts with
  | Some a => to_uint (atoi h a)
  | None => 0
  end < rtlsdr_get_device_count h /\
  (exists rest, issued w' = Open 0 :: rest) /\
  (forall i, In (Open i) (issued w') -> i = 0).
Proof.
  intros Hmain Hw Hlog.
  destruct (main_drove_tuner opts args blocks ev r w' Hmain Hw Hlog)
    as (s & f & p & Hstart & ->).
  destruct (main_startup_next _ _ _ _ _ Hstart) as (ev1 & ev2 & Hopt & Hin).
  destruct (getopt_loop_next h opts _ _ _ Hopt) as (_ & Hd).
  destruct (select_input_radio h s args ev2 f p Hin) as (_ & _ & Hlt).
  split; [rewrite Hd in Hlt; exact Hlt |].
  split; [exact (main_rtlsdr_opens_first drv tuner SNR_FFT_COUNT _ _ _ _ _ Hw) |].
  pose proof (emits_main_first_device drv tuner SNR_FFT_COUNT (gain s)
                (ppm_error s) f blocks world_init w' Hw) as (tr & Htr & Hall).
  cbn [world_init issued app] in Htr.
  intros i Hin'. rewrite Htr in Hin'. rewrite Forall_forall in Hall.
  exact (Hall _ Hin').
Qed.

(** X16. With [-g a], where [a] is not read as [INT_MIN], the gain search
    never happens, however [main] ends: the statics stay as initialised and
    the driver log is an initial part of the configuration commands, the
    gain [a], the buffer reset, the asynchronous read and the close, so the
    tuner's gains are not queried, nothing is read synchronously and no
    other gain is set. *)
Theorem explicit_gain_option_run (opts : list cli_opt)
    (args : list String.string) (blocks : list (list float))
    (ev : list sys_event) (r : result Z) (w' : world) (a : String.string) :
  main h drv tuner SNR_FFT_COUNT opts args blocks = (ev, r) ->
  world_of r = Some w' ->
  gain_option opts = Some a ->
  atoi h a <> INT_MIN ->
  mem w' = statics_init /\
  exists ppm_error frequency rest,
    explicit_log (atoi h a) ppm_error frequency = issued w' ++ rest.
Proof.
  intros Hmain Hw Hopt Hexp. unfold main in Hmain.
  destruct (main_startup h opts args)
    as [ev0 [[s [f p | content p]] | code |]] eqn:Hstart;
    injection Hmain as <- <-.
  - destruct (main_startup_next _ _ _ _ _ Hstart) as (ev1 & ev2 & Hgo & _).
    destruct (getopt_loop_next h opts _ _ _ Hgo) as (Hg & _).
    rewrite Hopt in Hg. rewrite Hg in Hw.
    destruct (explicit_gain_prefix drv tuner SNR_FFT_COUNT _ _ _ _ _ Hexp Hw)
      as (Hmem & rest & Hrest).
    split; [exact Hmem | eauto].
  - injection Hw as <-. split; [reflexivity |].
    exists 0, 0, (explicit_log (atoi h a) 0 0). reflexivity.
  - injection Hw as <-. split; [reflexivity |].
    exists 0, 0, (explicit_log (atoi h a) 0 0). reflexivity.
  - discriminate.
Qed.

End MainFacts2.

(** ** The output that start-up selects *)

Definition is_output_init (e : sys_event) : bool :=
  match e with
  | OutputInit _ => true
  | _ => false
  end.

(** A stretch of [main] that initialises no output, however it ends. *)
Definition no_output {A} (p : act A) : Prop :=
  filter is_output_init (fst p) = [].

Lemma no_output_bind {A B} (p : act A) (k : A -> act B) :
  no_output p -> (forall a, no_output (k a)) -> no_output (act_bind p k).
Proof.
  unfold no_output. intros Hp Hk. destruct p as [ev1 [a | code |]];
    cbn [act_bind fst] in *; try exact Hp.
  specialize (Hk a). destruct (k a) as [ev2 r]. cbn [fst] in *.
  rewrite filter_app, Hp, Hk. reflexivity.
Qed.

Lemma no_output_events {A} (ev : list sys_event) (r : flow A) :
  filter is_output_init ev = [] -> no_output (ev, r).
Proof. intros H. exact H. Qed.

Ltac no_output_step :=
  first
    [ apply no_output_bind; [| intros ?]
    | match goal with
      | |- no_output (if ?b then _ else _) => destruct b
      | |- no_output (match ?x with _ => _ end) => destruct x
      end
    | apply no_output_events; reflexivity ].

Section OutputFacts.

Variable h : host.

Lemma no_output_getopt_loop (opts : list cli_opt) :
  forall s, no_output (getopt_loop h opts s).
Proof.
  induction opts as [| o rest IH]; intros s; cbn [getopt_loop].
  - reflexivity.
  - apply no_output_bind; [| intros s'; apply IH].
    destruct o; unfold option_case, act_ret, emit, return_;
      repeat no_output_step.
Qed.

Lemma no_output_device_names (n : nat) (lo : Z) :
  filter is_output_init (map LogDeviceName (zseq lo n)) = [].
Proof.
  revert lo. induction n as [| n IH]; intros lo; [reflexivity |].
  cbn [zseq map filter is_output_init]. apply IH.
Qed.

Lemma no_output_select_input (s : settings) (args : list String.string) :
  no_output (select_input h s args).
Proof.
  unfold select_input, act_ret, emit, return_, wrong, emit_all.
  repeat first
    [ apply no_output_events; apply no_output_device_names
    | no_output_step ].
Qed.

Lemma no_output_open_dump (s : settings) : no_output (open_dump h s).
Proof.
  unfold open_dump, act_ret, emit, return_. repeat no_output_step.
Qed.

(** The output that the audio options select, when they select one. *)
Definition output_choice (s : settings) (k : output_kind) : Prop :=
  match audio_name s with
  | None => k = OutLive /\ USE_FAAD2 h = true
  | Some name =>
      (k = OutWav name /\ format_name s = Some "wav"%string /\
       USE_FAAD2 h = true) \/
      (k = OutAdts name /\ format_name s = Some "adts"%string) \/
      (k = OutHdc name /\ format_name s = Some "hdc"%string)
  end.

Lemma select_output_next (s : settings) (ev : list sys_event) :
  select_output h s = (ev, Next tt) ->
  exists k, ev = [OutputInit k] /\ output_choice s k.
Proof.
  unfold select_output, output_choice.
  destruct (audio_name s) as [name |].
  - destruct (format_name s) as [fmt |]; [| discriminate].
    destruct (String.eqb_spec fmt "wav") as [-> | _].
    { destruct (USE_FAAD2 h); [| discriminate].
      intros [= <-]. eexists. split; [reflexivity |]. left. auto. }
    destruct (String.eqb_spec fmt "adts") as [-> | _].
    { intros [= <-]. eexists. split; [reflexivity |]. right. left. auto. }
    destruct (String.eqb_spec fmt "hdc") as [-> | _]; [| discriminate].
    intros [= <-]. eexists. split; [reflexivity |]. right. right. auto.
  - destruct (USE_FAAD2 h); [| discriminate].
    intros [= <-]. eexists. split; [reflexivity |]. auto.
Qed.

(** X17. A start-up that goes through initialises exactly one output, the
    one the audio options select: live playback without [-o], which needs
    FAAD2; with [-o], a WAV file for format "wav", which needs FAAD2, an
    ADTS file for "adts", an HDC file for "hdc". So a build without FAAD2
    starts only with [-o] and format "adts" or "hdc". *)
Theorem startup_selects_one_output (opts : list cli_opt)
    (args : list String.string) (ev : list sys_event) (s : settings)
    (src : input_source) :
  main_startup h opts args = (ev, Next (s, src)) ->
  exists k,
    filter is_output_init ev = [OutputInit k] /\
    output_choice s k /\
    (USE_FAAD2 h = false ->
     exists name, audio_name s = Some name /\
                  (k = OutAdts name \/ k = OutHdc name)).
Proof.
  unfold main_startup. intros H.
  apply act_bind_next in H. destruct H as (ev1 & s1 & ev' & Hopt & H & ->).
  apply act_bind_next in H. destruct H as (ev2 & src1 & ev'' & Hin & H & ->).
  apply act_bind_next in H. destruct H as (ev3 & dump & ev3' & Hdump & H & ->).
  apply act_bind_next in H. destruct H as (ev4 & [] & ev4' & Hout & H & ->).
  apply act_bind_next in H. destruct H as (ev5 & [] & ev5' & Haas & H & ->).
  apply act_bind_next in H. destruct H as (ev6 & [] & ev6' & Hinit & H & ->).
  injection H as <- <- <-. injection Haas as <-.
  destruct (select_output_next s1 ev4 Hout) as (k & -> & Hk).
  exists k. split; [| split; [exact Hk |]].
  - pose proof (no_output_getopt_loop opts settings_init) as N1.
    pose proof (no_output_select_input s1 args) as N2.
    pose proof (no_output_open_dump s1) as N3.
    unfold no_output in N1, N2, N3. rewrite Hopt in N1. rewrite Hin in N2.
    rewrite Hdump in N3. cbn [fst] in N1, N2, N3.
    rewrite !filter_app, N1, N2, N3.
    assert (N6 : filter is_output_init ev6 = []).
    { destruct src1; injection Hinit as <-; reflexivity. }
    rewrite N6. reflexivity.
  - intros Hno. unfold output_choice in Hk.
    destruct (audio_name s1) as [name |].
    + exists name. split; [reflexivity |].
      destruct Hk as [(_ & _ & Hf) | [(-> & _) | (-> & _)]]; auto. congruence.
    + destruct Hk as (_ & Hf). congruence.
Qed.

End OutputFacts.

(** ** Options that end [main] *)

Section StopFacts.

Variable h : host.
Variable drv : driver.
Variable tuner : tuner_gains.
Variable SNR_FFT_COUNT : Z.

(** An option that the loop passes over. *)
Definition passes (o : cli_opt) : Prop := o <> Opt_v /\ o <> Opt_unknown.

Lemma option_case_passes (o : cli_opt) (s : settings) :
  passes o -> exists ev s', option_case h o s = (ev, Next s').
Proof.
  intros (Hv & Hu).
  destruct o; try (exfalso; apply Hv; reflexivity);
    try (exfalso; apply Hu; reflexivity);
    unfold option_case, act_ret, emit; cbn; do 2 eexists; reflexivity.
Qed.

Lemma getopt_loop_stop (pre post : list cli_opt) (o : cli_opt) :
  Forall passes pre ->
  o = Opt_v \/ o = Opt_unknown ->
  forall s,
    getopt_loop h (pre ++ o :: post) s = getopt_loop h (pre ++ [o]) s /\
    snd (getopt_loop h (pre ++ [o]) s) = Return 0.
Proof.
  intros Hpre Ho. induction Hpre as [| x pre Hx Hpre IH]; intros s.
  - cbn [app getopt_loop]. destruct Ho as [-> | ->]; cbn; split; reflexivity.
  - cbn [app getopt_loop].
    destruct (option_case_passes x s Hx) as (ev & s' & ->).
    cbn [act_bind]. destruct (IH s') as (Hsame & Hret). rewrite Hsame.
    split; [reflexivity |].
    destruct (getopt_loop h (pre ++ [o]) s') as [ev2 r]. exact Hret.
Qed.

(** X18. The first [-v] or unrecognised option ends [main] with status 0
    and the driver untouched: what [main] does is then the same whatever
    options follow it, whatever the arguments and whatever samples are on
    offer. So [-v] works without a frequency, and a wrong option is not
    reported by the exit status. *)
Theorem stop_option_ends_main (pre post : list cli_opt) (o : cli_opt)
    (args : list String.string) (blocks : list (list float)) :
  Forall passes pre ->
  o = Opt_v \/ o = Opt_unknown ->
  main h drv tuner SNR_FFT_COUNT (pre ++ o :: post) args blocks =
    main h drv tuner SNR_FFT_COUNT (pre ++ [o]) [] [] /\
  snd (main h drv tuner SNR_FFT_COUNT (pre ++ o :: post) args blocks) =
    Ok 0 world_init.
Proof.
  intros Hpre Ho.
  destruct (getopt_loop_stop pre post o Hpre Ho settings_init) as (Hsame & Hret).
  unfold main, main_startup. rewrite Hsame.
  destruct (getopt_loop h (pre ++ [o]) settings_init) as [ev r].
  cbn [snd] in Hret. subst r. cbn. split; reflexivity.
Qed.

End StopFacts.

(** ** Concrete command lines *)

(** A machine with one tuner and no readable file, a C library that reads
    "300" and "-1" as those numbers and any frequency as 99.5, and a build
    without FAAD2. *)
Definition test_host : host :=
  mkHost
    (fun a => if String.eqb a "300"%string then 300
              else if String.eqb a "-1"%string then -1 else 0)
    (fun _ => double_of_decimal 995 1)
    (fun _ => 0)
    1
    (fun _ => None)
    (fun _ => true)
    []
    false.

(** [-o out.aac -f adts 99.5 0] and the same with [-g 300]. *)
Definition adts_opts : list cli_opt :=
  [Opt_o "out.aac"%string; Opt_f "adts"%string].
Definition radio_args : list String.string := ["99.5"%string; "0"%string].

Lemma early_returns_announced_witness :
  main_startup test_host [] radio_args =
    ([GetDeviceCount; LogDeviceName 0;
      LogFatal "Live output requires FAAD2."%string], Return 1) /\
  exists ev' e,
    [GetDeviceCount; LogDeviceName 0;
     LogFatal "Live output requires FAAD2."%string] = ev' ++ [e] /\
    ((1 = 0 /\ (e = Help \/ e = PrintRevision)) \/
     (1 = 1 /\ exists msg, e = LogFatal msg)).
Proof.
  assert (Hrun : main_startup test_host [] radio_args =
                 ([GetDeviceCount; LogDeviceName 0;
                   LogFatal "Live output requires FAAD2."%string], Return 1))
    by (vm_compute; reflexivity).
  split; [exact Hrun |].
  exact (early_returns_announced test_host [] radio_args _ 1 Hrun).
Defined.

Lemma negative_device_index_rejected_witness :
  to_uint (-1) = to_uint (-1) /\
  forall ev src,
    select_input test_host
      (mkSettings INT_MIN 0 (to_uint (-1)) None None None None None) radio_args
    <> (ev, Next src).
Proof.
  split; [reflexivity |].
  apply (negative_device_index_rejected test_host _ radio_args (-1)).
  - reflexivity.
  - vm_compute. split; [discriminate | reflexivity].
  - vm_compute. discriminate.
  - reflexivity.
Defined.

Lemma device_index_checked_not_used_witness :
  exists ev w',
    main test_host quiet_driver five_gain_tuner 256 adts_opts radio_args
      trace_blocks = (ev, Ok 0 w') /\
    issued w' <> [] /\
    forall i, In (Open i) (issued w') -> i = 0.
Proof.
  eexists _, _. split; [vm_compute; reflexivity |].
  split; [discriminate |].
  refine (proj2 (proj2 (device_index_checked_not_used test_host quiet_driver
                          five_gain_tuner 256 adts_opts radio_args trace_blocks
                          _ _ _ _ _ _))).
  - vm_compute. reflexivity.
  - reflexivity.
  - discriminate.
Defined.

Lemma explicit_gain_option_run_witness :
  exists ev w',
    main test_host quiet_driver five_gain_tuner 256
      (Opt_g "300"%string :: adts_opts) radio_args trace_blocks = (ev, Ok 0 w') /\
    atoi test_host "300"%string <> INT_MIN /\
    mem w' = statics_init /\
    issued w' = explicit_log 300 0 99500000.
Proof.
  eexists _, _. split; [vm_compute; reflexivity |].
  assert (Hne : atoi test_host "300"%string <> INT_MIN)
    by (vm_compute; discriminate).
  split; [exact Hne |].
  split; [| reflexivity].
  refine (proj1 (explicit_gain_option_run test_host quiet_driver five_gain_tuner
                   256 (Opt_g "300"%string :: adts_opts) radio_args trace_blocks
                   _ _ _ "300"%string _ _ _ Hne)).
  - vm_compute. reflexivity.
  - reflexivity.
  - reflexivity.
Defined.

Lemma startup_selects_one_output_witness :
  exists ev s src k,
    main_startup test_host adts_opts radio_args = (ev, Next (s, src)) /\
    filter is_output_init ev = [OutputInit k] /\
    output_choice test_host s k.
Proof.
  eexists _, _, _.
  destruct (startup_selects_one_output test_host adts_opts radio_args _ _ _
              ltac:(vm_compute; reflexivity))
    as (k & Hone & Hk & _).
  exists k. split; [vm_compute; reflexivity |]. split; assumption.
Defined.

Lemma stop_option_ends_main_witness :
  Forall passes [Opt_q] /\
  snd (main test_host quiet_driver five_gain_tuner 256
         ([Opt_q] ++ Opt_v :: adts_opts) [] trace_blocks) = Ok 0 world_init.
Proof.
  assert (Hpre : Forall passes [Opt_q]).
  { constructor; [split; discriminate | constructor]. }
  split; [exact Hpre |].
  exact (proj2 (stop_option_ends_main test_host quiet_driver five_gain_tuner
                  256 [Opt_q] adts_opts Opt_v [] trace_blocks Hpre
                  (or_introl eq_refl))).
Defined.

(** The same machine with a C library that reads "-2147483648" as that
    number, which is [INT_MIN]. *)
Definition min_host : host :=
  mkHost
    (fun a => if String.eqb a "-2147483648"%string then INT_MIN
              else atoi test_host a)
    (strtod test_host) (strtoul test_host) (rtlsdr_get_device_count test_host)
    (fopen_rb test_host) (fopen_wb test_host) (stdin test_host)
    (USE_FAAD2 test_host).

(** [-g -2147483648 -o out.aac -f adts 99.5 0]. *)
Definition min_gain_opts : list cli_opt :=
  Opt_g "-2147483648"%string :: adts_opts.

Lemma gain_search_entry_witness :
  exists ev s w',
    getopt_loop test_host adts_opts settings_init = (ev, Next s) /\
    (length (tg_written five_gain_tuner) <= GAIN_LIST_LEN)%nat /\
    world_of (main_gain_setup quiet_driver five_gain_tuner (gain s) world_init)
      = Some w' /\
    (snr_cb w' = true <->
     gain_unset test_host adts_opts /\ 0 < tg_ret five_gain_tuner) /\
    snr_cb w' = true.
Proof.
  assert (Hlen : (length (tg_written five_gain_tuner) <= GAIN_LIST_LEN)%nat)
    by (unfold GAIN_LIST_LEN; simpl; lia).
  eexists _, _.
  destruct (gain_search_entry test_host quiet_driver five_gain_tuner adts_opts
              _ _ [] ltac:(vm_compute; reflexivity) Hlen)
    as (w' & Hrun & Hcb & _).
  exists w'. split; [vm_compute; reflexivity |].
  split; [exact Hlen |]. split; [exact Hrun |]. split; [exact Hcb |].
  apply Hcb. split; [exact I | reflexivity].
Defined.

(** C7 as stated fails: with [-g -2147483648] the option is present, yet the
    run of [main] registers the callback, searches the table and never sets
    the gain that was asked for. *)
Lemma gain_search_entry_not_by_absence :
  ~ (forall ev w',
       main min_host quiet_driver five_gain_tuner 256 min_gain_opts radio_args
         trace_blocks = (ev, Ok 0 w') ->
       (snr_cb w' = true <->
        gain_option min_gain_opts = None /\ 0 < tg_ret five_gain_tuner) /\
       (forall a, gain_option min_gain_opts = Some a ->
        mem w' = statics_init /\ In (SetTunerGain (atoi min_host a)) (issued w'))).
Proof.
  intros H.
  edestruct H as ((Hcb & _) & _); [vm_compute; reflexivity |].
  destruct (Hcb eq_refl) as (Hnone & _). discriminate Hnone.
Qed.

(** What that run does: the tuner's gains are queried and tried in turn,
    and the gain in force for the asynchronous read is the best of the
    table. *)
Example min_gain_run :
  exists ev w',
    main min_host quiet_driver five_gain_tuner 256 min_gain_opts radio_args
      trace_blocks = (ev, Ok 0 w') /\
    gain_option min_gain_opts = Some "-2147483648"%string /\
    atoi min_host "-2147483648"%string = INT_MIN /\
    snr_cb w' = true /\
    mem w' <> statics_init /\
    In GetTunerGains (issued w') /\
    ~ In (SetTunerGain INT_MIN) (issued w').
Proof.
  eexists _, _. split; [vm_compute; reflexivity |].
  split; [reflexivity |]. split; [reflexivity |]. split; [reflexivity |].
  split; [discriminate |].
  split; [vm_compute; tauto |].
  intros Hin. vm_compute in Hin.
  repeat (destruct Hin as [Hin | Hin]; [discriminate Hin |]).
  exact Hin.
Qed.
